(** * Helpdesk ticket assignment engine of eventbridge_plus

    A shallow embedding of the helpdesk assignment code
    ([eventbridge_plus/assign_request.py]), of the ticket lifecycle
    ([eventbridge_plus/helpdesk.py]) and of the notification sink they call
    ([eventbridge_plus/noti.py]), with the properties of the specification
    stated over it.

    Conventions of the embedding:
    - SQL tables are lists of rows; a [SELECT] is a filter (and a sort when
      it has an [ORDER BY]), an [UPDATE] is a map over the rows.
    - Python strings stay strings: status, priority and role values are
      compared with [String.eqb], as the code compares them with [==].
    - Python floats are exact rationals ([Q]); [float('inf')] is a separate
      constructor.  Timestamps are integers (seconds).
    - Code that touches the store runs in the monad [M]: it threads the
      connection (tables, clock, pending faults) and can raise. *)

From Stdlib Require Import List ZArith QArith Bool Lia Permutation Sorted.
From Stdlib Require Import String.
Import ListNotations.

Open Scope string_scope.
Open Scope list_scope.
Open Scope Z_scope.

(** ** Tables *)

(** A row of [users]; [account_status] is the column [users.status]. *)
Record user := mkUser {
  user_id : Z;
  username : string;
  first_name : string;
  last_name : string;
  platform_role : string;
  account_status : string;
  notifications_enabled : bool
}.

(** A row of [help_requests]; [owner_id] is the column
    [help_requests.user_id].  [created_at] is filled by the column default
    when the row is inserted ([create_help_request] never passes it). *)
Record help_request := mkRequest {
  request_id : Z;
  owner_id : Z;
  title : string;
  priority : string;
  status : string;
  assigned_to : option Z;
  created_at : Z;
  updated_at : option Z;
  resolved_at : option Z
}.

(** A row of [notifications]; the message text, an f-string over the
    ticket's title, is not kept. *)
Record notification := mkNoti {
  n_user_id : Z;
  n_title : string;
  n_category : string;
  n_related_id : option Z
}.

Record database := mkDb {
  users : list user;
  help_requests : list help_request;
  notifications : list notification
}.

(** ** The connection *)

(** Modelled from the spec: the module [db] ([init_db], [get_cursor], the
    cursor and what the connection does with a statement that raises) is not
    among the sources.  The specification gives the store point reads,
    filtered scans and atomic single-row updates, no transaction spanning an
    operation, and calls that can fail at any point.  [faults] is what the
    connection will do to the coming statements: the head says whether the
    next [cursor.execute] raises; an empty list means that every further
    statement succeeds.  [clock] is both [NOW()] and [datetime.now()]. *)
Record world := mkWorld {
  db : database;
  clock : Z;
  faults : list bool
}.

Inductive outcome (A : Type) : Type :=
| Ok (a : A)
| Raised.
Arguments Ok {A} a.
Arguments Raised {A}.

(** Modelled from the spec: statements take effect when they run, so the
    state reached when an exception is raised is the state its handler starts
    from.  Nothing in the sources rolls back, and [create_noti] commits the
    connection after each notification it inserts. *)
Definition M (A : Type) : Type := world -> outcome A * world.

Definition ret {A} (a : A) : M A := fun w => (Ok a, w).

Definition bind {A B} (m : M A) (k : A -> M B) : M B :=
  fun w => match m w with
           | (Ok a, w') => k a w'
           | (Raised, w') => (Raised, w')
           end.

Definition raise {A} : M A := fun w => (Raised, w).

(** [try: m except Exception: h] *)
Definition try_except {A} (m : M A) (h : M A) : M A :=
  fun w => match m w with
           | (Ok a, w') => (Ok a, w')
           | (Raised, w') => h w'
           end.

Declare Scope monad_scope.
Delimit Scope monad_scope with monad.
Notation "x <- m ;; k" := (bind m (fun x => k))
  (at level 61, m at next level, right associativity) : monad_scope.
Notation "m ;; k" := (bind m (fun _ => k))
  (at level 61, right associativity) : monad_scope.
Open Scope monad_scope.

(** [try: m except Exception: pass] *)
Definition try_pass {A} (m : M A) : M unit :=
  try_except (_ <- m ;; ret tt) (ret tt).

(** Modelled from the spec: one [cursor.execute], which either raises or
    runs its statement; it consumes the next fault. *)
Definition cursor_execute : M unit :=
  fun w => match faults w with
           | [] => (Ok tt, w)
           | b :: fs =>
               ((if b : bool then Raised else Ok tt),
                mkWorld (db w) (clock w) fs)
           end.

(** A [SELECT]: one statement, then the rows computed from the tables. *)
Definition select {A} (q : database -> A) : M A :=
  cursor_execute ;; (fun w => (Ok (q (db w)), w)).

(** An [UPDATE] or [INSERT]: one statement, then the tables changed; the
    change may use [NOW()]. *)
Definition modify (u : Z -> database -> database) : M unit :=
  cursor_execute ;; (fun w => (Ok tt, mkWorld (u (clock w) (db w)) (clock w) (faults w))).

(** [datetime.now()] *)
Definition datetime_now : M Z := fun w => (Ok (clock w), w).

(** [cursor.fetchone()] *)
Definition fetchone {A} (rows : list A) : option A := hd_error rows.

(** ** Python and SQL helpers *)

(** [d.get(k, default)] on a dict with string keys. *)
Fixpoint dict_get {V} (d : list (string * V)) (k : string) (default : V) : V :=
  match d with
  | [] => default
  | (k', v) :: d' => if String.eqb k k' then v else dict_get d' k default
  end.

(** [x in l] on a list of strings. *)
Fixpoint str_in (x : string) (l : list string) : bool :=
  match l with
  | [] => false
  | y :: l' => String.eqb x y || str_in x l'
  end.

Definition opt_Z_eqb (a b : option Z) : bool :=
  match a, b with
  | Some x, Some y => x =? y
  | None, None => true
  | _, _ => false
  end.

(** Truth value of a nullable id: [None] and [0] are false. *)
Definition truthy_id (a : option Z) : bool :=
  match a with
  | Some x => negb (x =? 0)
  | None => false
  end.

(** A stable sort that only uses [lt], as [sorted] and [ORDER BY] do:
    an element goes in front of the first element that is not below it. *)
Fixpoint insert_by {A} (lt : A -> A -> bool) (x : A) (l : list A) : list A :=
  match l with
  | [] => [x]
  | y :: l' => if lt y x then y :: insert_by lt x l' else x :: l
  end.

Fixpoint sort_by {A} (lt : A -> A -> bool) (l : list A) : list A :=
  match l with
  | [] => []
  | x :: l' => insert_by lt x (sort_by lt l')
  end.

(** ** helpdesk.py: the ticket lifecycle *)

Definition status_transitions : list (string * list string) :=
  [ ("new", ["assigned"; "solved"]);
    ("assigned", ["new"; "blocked"; "solved"]);
    ("blocked", ["new"; "assigned"; "solved"]);
    ("solved", []) ].

Definition get_valid_status_transitions (current_status : string) : list string :=
  dict_get status_transitions current_status [].

Definition is_valid_status_transition (current_status new_status : string) : bool :=
  str_in new_status (get_valid_status_transitions current_status).

(** Returns the error message, [None] when the transition is valid. *)
Definition validate_status_transition (current_status new_status : string)
  : option string :=
  if String.eqb current_status new_status then None
  else if negb (is_valid_status_transition current_status new_status) then
    if String.eqb current_status "solved" then
      Some ("Cannot change status from '" ++ current_status
            ++ "'. This request is already solved.")%string
    else
      Some ("Cannot change status from '" ++ current_status ++ "' to '"
            ++ new_status ++ "'. Valid transitions: "
            ++ String.concat ", " (get_valid_status_transitions current_status))%string
  else None.

(** ** noti.py: the notification sink *)

Definition is_noti_enabled (uid : Z) : M bool :=
  rows <- select (fun d => filter (fun u => user_id u =? uid) (users d)) ;;
  match fetchone rows with
  | Some u => ret (notifications_enabled u)
  | None => ret false
  end.

Definition allowed_categories : list string :=
  ["event"; "group"; "volunteer"; "system"].

Definition safe_category (category : string) : string :=
  if String.eqb category "help_request" then "system"
  else if str_in category allowed_categories then category else "system".

(** Returns the id of the new row, [None] when the user has notifications
    off or the [INSERT] failed. *)
Definition create_noti (uid : Z) (ttl category : string) (related_id : option Z)
    (force : bool) : M (option Z) :=
  disabled <- (if negb force
               then (enabled <- is_noti_enabled uid ;; ret (negb enabled))
               else ret false) ;;
  if disabled : bool then ret None
  else
    try_except
      (modify (fun _ d =>
                 mkDb (users d) (help_requests d)
                      (notifications d
                       ++ [mkNoti uid ttl (safe_category category) related_id])) ;;
       noti_id <- (fun w => (Ok (Z.of_nat (List.length (notifications (db w)))), w)) ;;
       ret (Some noti_id))
      (ret None).

(** ** helpdesk.py: applying a transition *)

(** The row fetched before the update: [help_requests] joined with the
    owner's row of [users]. *)
Record request_info := mkInfo {
  ri_user_id : Z;
  ri_title : string;
  old_status : string;
  old_assigned_to : option Z;
  old_priority : string;
  ri_first_name : string;
  ri_last_name : string
}.

Definition select_request_info (rid : Z) (d : database) : list request_info :=
  flat_map
    (fun hr =>
       map (fun u => mkInfo (owner_id hr) (title hr) (status hr) (assigned_to hr)
                            (priority hr) (first_name u) (last_name u))
           (filter (fun u => owner_id hr =? user_id u) (users d)))
    (filter (fun hr => request_id hr =? rid) (help_requests d)).

(** One assignment of the [SET] clause collected in [update_fields]. *)
Inductive update_field : Type :=
| SetStatus (s : string)
| SetUpdatedAtNow
| SetAssignedTo (a : Z)
| SetAssignedToNull
| SetPriority (p : string)
| SetResolvedAtNow.

Definition set_field (now : Z) (r : help_request) (f : update_field) : help_request :=
  match f with
  | SetStatus s =>
      mkRequest (request_id r) (owner_id r) (title r) (priority r) s
                (assigned_to r) (created_at r) (updated_at r) (resolved_at r)
  | SetUpdatedAtNow =>
      mkRequest (request_id r) (owner_id r) (title r) (priority r) (status r)
                (assigned_to r) (created_at r) (Some now) (resolved_at r)
  | SetAssignedTo a =>
      mkRequest (request_id r) (owner_id r) (title r) (priority r) (status r)
                (Some a) (created_at r) (updated_at r) (resolved_at r)
  | SetAssignedToNull =>
      mkRequest (request_id r) (owner_id r) (title r) (priority r) (status r)
                None (created_at r) (updated_at r) (resolved_at r)
  | SetPriority p =>
      mkRequest (request_id r) (owner_id r) (title r) p (status r)
                (assigned_to r) (created_at r) (updated_at r) (resolved_at r)
  | SetResolvedAtNow =>
      mkRequest (request_id r) (owner_id r) (title r) (priority r) (status r)
                (assigned_to r) (created_at r) (updated_at r) (Some now)
  end.

(** [UPDATE help_requests SET <fields> WHERE request_id = rid] *)
Definition update_rows (fields : list update_field) (rid now : Z)
    (rows : list help_request) : list help_request :=
  map (fun r => if request_id r =? rid then fold_left (set_field now) fields r else r)
      rows.

Definition execute_update (fields : list update_field) (rid : Z) : M unit :=
  modify (fun now d =>
            mkDb (users d) (update_rows fields rid now (help_requests d))
                 (notifications d)).

(** The [SET] clause that [update_help_request_status] builds. *)
Definition update_fields (new_status : string) (new_assigned_to : option Z)
    (new_priority : option string) : list update_field :=
  [SetStatus new_status; SetUpdatedAtNow]
  ++ (match new_assigned_to with
      | Some a => [SetAssignedTo a]
      | None => [SetAssignedToNull]
      end)
  ++ (match new_priority with
      | Some p => [SetPriority p]
      | None => []
      end)
  ++ (if String.eqb new_status "resolved" then [SetResolvedAtNow] else []).

(** The notifications sent after the update; only the staff lookup can
    raise, every [create_noti] is inside its own [try]. *)
Definition notify_changes (rid : Z) (info : request_info) (new_status : string)
    (new_assigned_to : option Z) (new_priority : option string) : M unit :=
  (if negb (String.eqb (old_status info) new_status) then
     try_pass (create_noti (ri_user_id info) "Help Request Status Updated"
                           "help_request" (Some rid) false)
   else ret tt) ;;
  (if negb (opt_Z_eqb (old_assigned_to info) new_assigned_to) then
     match new_assigned_to with
     | Some a =>
         staff_info <- select (fun d => fetchone (filter (fun u => user_id u =? a) (users d))) ;;
         try_pass (create_noti a "New Task Assignment" "help_request" (Some rid) true) ;;
         try_pass (create_noti (ri_user_id info) "Help Request Assigned"
                               "help_request" (Some rid) false)
     | None =>
         (match old_assigned_to info with
          | Some old =>
              if truthy_id (Some old) then
                try_pass (create_noti old "Request Unassigned" "help_request"
                                      (Some rid) true)
              else ret tt
          | None => ret tt
          end) ;;
         try_pass (create_noti (ri_user_id info) "Help Request Unassigned"
                               "help_request" (Some rid) false)
     end
   else ret tt) ;;
  (match new_priority with
   | Some p =>
       if negb (String.eqb (old_priority info) p) && String.eqb p "high" then
         (match new_assigned_to with
          | Some a =>
              try_pass (create_noti a "Escalated Help Request" "help_request"
                                    (Some rid) true)
          | None => ret tt
          end) ;;
         (match old_assigned_to info with
          | Some old =>
              if truthy_id (Some old)
                 && negb (opt_Z_eqb (Some old) new_assigned_to) then
                try_pass (create_noti old "Request Escalated and Reassigned"
                                      "help_request" (Some rid) true)
              else ret tt
          | None => ret tt
          end)
       else ret tt
   | None => ret tt
   end).

Definition update_help_request_status (rid : Z) (new_status : string)
    (new_assigned_to : option Z) (new_priority : option string)
    (bypass_validation : bool) : M bool :=
  try_except
    (rows <- select (select_request_info rid) ;;
     match fetchone rows with
     | None => ret false
     | Some info =>
         if negb bypass_validation
            && (match validate_status_transition (old_status info) new_status with
                | Some _ => true
                | None => false
                end)
         then ret false
         else
           execute_update (update_fields new_status new_assigned_to new_priority) rid ;;
           notify_changes rid info new_status new_assigned_to new_priority ;;
           ret true
     end)
    (ret false).

(** ** assign_request.py: directory and scorers *)

(** A Python float as the scorer produces it: a finite value or
    [float('inf')]. *)
Inductive workload : Type :=
| Fin (q : Q)
| Inf.

Definition Qltb (x y : Q) : bool := negb (Qle_bool y x).

(** [a < b] on floats. *)
Definition workload_ltb (a b : workload) : bool :=
  match a, b with
  | Fin x, Fin y => Qltb x y
  | Fin _, Inf => true
  | Inf, _ => false
  end.

(** [a + n] for a float [a] and an int [n]. *)
Definition workload_add (a : workload) (n : Z) : workload :=
  match a with
  | Fin x => Fin (x + inject_Z n)
  | Inf => Inf
  end.

Definition PRIORITY_WEIGHTS : list (string * Q) :=
  [ ("urgent", 4%Q); ("medium", 2%Q); ("low", 1%Q) ].

Definition STATUS_WEIGHTS : list (string * Q) :=
  [ ("assigned", 1%Q); ("blocked", 0.5%Q) ].

Definition is_active (u : user) : bool := String.eqb (account_status u) "active".

Definition by_user_id (a b : user) : bool := user_id a <? user_id b.

(** The rows of the two queries of [get_available_technicians]. *)
Definition select_technicians (roles : list string) (d : database) : list user :=
  sort_by by_user_id
          (filter (fun u => str_in (platform_role u) roles && is_active u) (users d)).

Definition get_available_technicians (priority : string) : M (list user) :=
  try_except
    (if String.eqb priority "high" then
       select (select_technicians ["super_admin"])
     else
       select (select_technicians ["super_admin"; "support_technician"]))
    (ret []).

(** [assigned_to = tid AND status IN ('assigned', 'blocked')] *)
Definition is_active_load (tid : Z) (r : help_request) : bool :=
  opt_Z_eqb (assigned_to r) (Some tid) && str_in (status r) ["assigned"; "blocked"].

Definition get_technician_current_workload (tid : Z) : M Z :=
  try_except
    (select (fun d => Z.of_nat (List.length (filter (is_active_load tid) (help_requests d)))))
    (ret 999).

(** [ORDER BY updated_at DESC]: a [NULL] sorts below every value. *)
Definition by_updated_at_desc (a b : help_request) : bool :=
  match updated_at b, updated_at a with
  | Some tb, Some ta => tb <? ta
  | None, Some _ => true
  | _, None => false
  end.

Definition select_active_requests (tid : Z) (d : database) : list help_request :=
  sort_by by_updated_at_desc (filter (is_active_load tid) (help_requests d)).

(** The body of the scoring loop: the weight of one request. *)
Definition request_weight (now : Z) (request : help_request) : Q :=
  let priority_weight := dict_get PRIORITY_WEIGHTS (priority request) 1%Q in
  let status_weight := dict_get STATUS_WEIGHTS (status request) 1%Q in
  let assigned_time :=
    match updated_at request with
    | Some t => t
    | None => created_at request
    end in
  let hours_since_assigned := (inject_Z (now - assigned_time) / 3600)%Q in
  let time_factor := (1 + hours_since_assigned * 0.1)%Q in
  (priority_weight * status_weight * time_factor)%Q.

Fixpoint workload_loop (requests : list help_request) (workload_score : Q) : M Q :=
  match requests with
  | [] => ret workload_score
  | request :: rest =>
      now <- datetime_now ;;
      workload_loop rest (workload_score + request_weight now request)%Q
  end.

Definition calculate_technician_workload (tid : Z) : M workload :=
  try_except
    (requests <- select (select_active_requests tid) ;;
     match requests with
     | [] => ret (Fin 0)
     | _ :: _ =>
         workload_score <- workload_loop requests 0%Q ;;
         ret (Fin workload_score)
     end)
    (ret Inf).

(** ** assign_request.py: assigning one ticket *)

Fixpoint least_busy_loop (technicians : list user) (best_technician : option user)
    (lowest_workload : workload) : M (option user * workload) :=
  match technicians with
  | [] => ret (best_technician, lowest_workload)
  | technician :: rest =>
      w <- calculate_technician_workload (user_id technician) ;;
      if workload_ltb w lowest_workload
      then least_busy_loop rest (Some technician) w
      else least_busy_loop rest best_technician lowest_workload
  end.

Definition find_least_busy_technician (priority : string)
  : M (option user * option workload) :=
  available_technicians <- get_available_technicians priority ;;
  match available_technicians with
  | [] => ret (None, None)
  | _ :: _ =>
      r <- least_busy_loop available_technicians None Inf ;;
      ret (fst r, Some (snd r))
  end.

(** The success message also prints the workload; the text of a caught
    exception is not kept. *)
Definition auto_assign_request (rid : Z) (priority : string)
  : M (bool * option Z * string) :=
  try_except
    (r <- find_least_busy_technician priority ;;
     match fst r with
     | None => ret (false, None, "No available technicians found")
     | Some technician =>
         success <- update_help_request_status rid "assigned"
                      (Some (user_id technician)) (Some priority) false ;;
         if success : bool then
           ret (true, Some (user_id technician),
                ("Auto-assigned to " ++ first_name technician ++ " "
                 ++ last_name technician)%string)
         else ret (false, None, "Failed to update request status")
     end)
    (ret (false, None, "Auto assignment failed")).

(** The unweighted sibling, used when a ticket is created. *)
Fixpoint simple_loop (technicians : list user) (best_technician : option user)
    (lowest_workload : Z) : M (option user * Z) :=
  match technicians with
  | [] => ret (best_technician, lowest_workload)
  | tech :: rest =>
      current_workload <- get_technician_current_workload (user_id tech) ;;
      if current_workload <? lowest_workload
      then simple_loop rest (Some tech) current_workload
      else simple_loop rest best_technician lowest_workload
  end.

Definition simple_auto_assign (rid : Z) (priority : string)
  : M (bool * option Z * string) :=
  try_except
    (technicians <- get_available_technicians priority ;;
     match technicians with
     | [] => ret (false, None, "No available technicians found")
     | _ :: _ =>
         r <- simple_loop technicians None 999 ;;
         match fst r with
         | None => ret (false, None, "No suitable technician found")
         | Some best_technician =>
             success <- update_help_request_status rid "assigned"
                          (Some (user_id best_technician)) (Some priority) false ;;
             if success : bool then
               ret (true, Some (user_id best_technician),
                    ("Assigned to " ++ first_name best_technician ++ " "
                     ++ last_name best_technician)%string)
             else ret (false, None, "Failed to update request status")
         end
     end)
    (ret (false, None, "Auto assignment failed")).

(** ** assign_request.py: the batch distributor *)

(** A value of the dict [technician_workloads]. *)
Record tech_entry := mkEntry {
  technician : user;
  current_workload : workload;
  new_assignments : Z
}.

(** The dict itself, keyed by [user_id], in insertion order. *)
Definition tech_workloads : Type := list (Z * tech_entry).

Definition keys (tw : tech_workloads) : list Z := map fst tw.

Fixpoint lookup (tid : Z) (tw : tech_workloads) : option tech_entry :=
  match tw with
  | [] => None
  | (k, e) :: tw' => if k =? tid then Some e else lookup tid tw'
  end.

(** [tw[tid] = e]: an existing key keeps its place. *)
Fixpoint dict_set (tid : Z) (e : tech_entry) (tw : tech_workloads) : tech_workloads :=
  match tw with
  | [] => [(tid, e)]
  | (k, e') :: tw' =>
      if k =? tid then (k, e) :: tw' else (k, e') :: dict_set tid e tw'
  end.

(** [tw[tid]['new_assignments'] += 1] *)
Fixpoint add_assignment (tid : Z) (tw : tech_workloads) : tech_workloads :=
  match tw with
  | [] => []
  | (k, e) :: tw' =>
      if k =? tid
      then (k, mkEntry (technician e) (current_workload e) (new_assignments e + 1)) :: tw'
      else (k, e) :: add_assignment tid tw'
  end.

Fixpoint init_workloads (technicians : list user) (tw : tech_workloads)
  : M tech_workloads :=
  match technicians with
  | [] => ret tw
  | tech :: rest =>
      w <- calculate_technician_workload (user_id tech) ;;
      init_workloads rest (dict_set (user_id tech) (mkEntry tech w 0) tw)
  end.

Definition priority_rank (p : string) : Z :=
  dict_get [("urgent", 1); ("medium", 2); ("low", 3)] p 4.

(** [<] on the sort keys [(priority_rank, created_at)], compared as Python
    compares tuples. *)
Definition sort_key_lt (x y : help_request) : bool :=
  if negb (priority_rank (priority x) =? priority_rank (priority y))
  then priority_rank (priority x) <? priority_rank (priority y)
  else created_at x <? created_at y.

Definition sorted_requests (unassigned_requests : list help_request)
  : list help_request :=
  sort_by sort_key_lt unassigned_requests.

(** The key of [min]: current workload plus new assignments.  The keys
    passed to it come from the dict, so the lookup succeeds. *)
Definition total_workload (tw : tech_workloads) (tid : Z) : workload :=
  match lookup tid tw with
  | Some e => workload_add (current_workload e) (new_assignments e)
  | None => Inf
  end.

(** [min(l, key=key)]: the first element whose key is smallest. *)
Fixpoint min_from {A} (key : A -> workload) (best : A) (l : list A) : A :=
  match l with
  | [] => best
  | x :: l' =>
      if workload_ltb (key x) (key best) then min_from key x l'
      else min_from key best l'
  end.

Definition py_min {A} (key : A -> workload) (l : list A) : option A :=
  match l with
  | [] => None
  | x :: l' => Some (min_from key x l')
  end.

Definition failure : Type := (Z * string)%type.

(** The loop state: the dict, [assigned_count] and [failed_assignments]. *)
Definition batch_state : Type := (tech_workloads * Z * list failure)%type.

(** The body of the loop over [sorted_requests]. *)
Definition assign_step (st : batch_state) (request : help_request) : M batch_state :=
  let '(tw, assigned_count, failed_assignments) := st in
  match py_min (total_workload tw) (keys tw) with
  | None => raise
  | Some best_tech_id =>
      match lookup best_tech_id tw with
      | None => raise
      | Some e =>
          let best_tech := technician e in
          if String.eqb (priority request) "high"
             && negb (String.eqb (platform_role best_tech) "super_admin")
          then
            ret (tw, assigned_count,
                 failed_assignments
                 ++ [(request_id request,
                      "No super admin available for high priority request")])
          else
            success <- update_help_request_status (request_id request) "assigned"
                         (Some best_tech_id) (Some (priority request)) false ;;
            if success : bool then
              ret (add_assignment best_tech_id tw, assigned_count + 1,
                   failed_assignments)
            else
              ret (tw, assigned_count,
                   failed_assignments
                   ++ [(request_id request, "Failed to update request status")])
      end
  end.

Fixpoint assign_loop (requests : list help_request) (st : batch_state) : M batch_state :=
  match requests with
  | [] => ret st
  | request :: rest =>
      st' <- assign_step st request ;;
      assign_loop rest st'
  end.

Definition bulk_auto_assign_balanced (unassigned_requests : list help_request)
  : M (Z * list failure) :=
  try_except
    (technicians <- get_available_technicians "medium" ;;
     match technicians with
     | [] =>
         ret (0, map (fun req => (request_id req, "No available technicians found"))
                     unassigned_requests)
     | _ :: _ =>
         tw <- init_workloads technicians [] ;;
         st <- assign_loop (sorted_requests unassigned_requests) (tw, 0, []) ;;
         ret (snd (fst st), snd st)
     end)
    (ret (0, map (fun req => (request_id req, "System error")) unassigned_requests)).

(** * Notions used in the statements *)

(** ** The store around a transition *)

(** [m] changes neither the tickets, nor the users, nor the clock. *)
Definition keeps_tickets {A} (m : M A) : Prop :=
  forall w,
    help_requests (db (snd (m w))) = help_requests (db w)
    /\ users (db (snd (m w))) = users (db w)
    /\ clock (snd (m w)) = clock w.

(** On a connection without pending faults, [m] returns normally and
    leaves the connection without pending faults. *)
Definition runs_clean {A} (m : M A) : Prop :=
  forall w, faults w = [] -> exists a w', m w = (Ok a, w') /\ faults w' = [].

Definition passes_validation (bypass : bool) (current_status new_status : string) : Prop :=
  bypass = true \/ validate_status_transition current_status new_status = None.

(** The row that the [UPDATE] of a transition writes for a matching ticket. *)
Definition applied (st : string) (a : option Z) (p : option string) (now : Z)
    (t : help_request) : help_request :=
  fold_left (set_field now) (update_fields st a p) t.

(** Every ticket of the table that has this id satisfies [P]. *)
Definition ticket_has (d : database) (rid : Z) (P : help_request -> Prop) : Prop :=
  forall t, In t (help_requests d) -> request_id t = rid -> P t.

Definition ticket_exists (d : database) (rid : Z) : Prop :=
  exists t, In t (help_requests d) /\ request_id t = rid.

(** ** Stores for the examples *)

Definition alice : user :=
  mkUser 1 "alice" "Alice" "Ames" "support_technician" "active" true.
Definition sam : user :=
  mkUser 2 "sam" "Sam" "Stone" "super_admin" "active" true.
Definition olga : user :=
  mkUser 9 "olga" "Olga" "Oak" "participant" "active" true.

(** A ticket of [olga], created at time 100. *)
Definition ticket (rid : Z) (prio st : string) (asg : option Z) : help_request :=
  mkRequest rid 9 "Cannot log in" prio st asg 100 None None.

Definition store (tickets : list help_request) : database :=
  mkDb [olga; sam; alice] tickets [].

(** ** The technician directory *)

Definition by_id_le (a b : user) : Prop := user_id a <= user_id b.

(** The roles that may take a ticket of this priority. *)
Definition eligible_role (priority : string) (u : user) : Prop :=
  if String.eqb priority "high" then platform_role u = "super_admin"
  else platform_role u = "super_admin" \/ platform_role u = "support_technician".

Definition eligible (priority : string) (u : user) : Prop :=
  account_status u = "active" /\ eligible_role priority u.

(** The roles that the query of [get_available_technicians] asks for. *)
Definition roles_for (priority : string) : list string :=
  if String.eqb priority "high" then ["super_admin"]
  else ["super_admin"; "support_technician"].

(** ** The score of the specification *)

(** The score as the specification words it. *)
Module Spec.
Local Open Scope Q_scope.

Definition priority_weight (p : string) : Q :=
  if String.eqb p "urgent" then 4
  else if String.eqb p "medium" then 2
  else if String.eqb p "low" then 1
  else 1.

Definition status_weight (s : string) : Q :=
  if String.eqb s "assigned" then 1
  else if String.eqb s "blocked" then 0.5
  else 1.

Definition hours_since (now t : Z) : Q := inject_Z (now - t) / 3600.

Definition time_factor (now : Z) (t : help_request) : Q :=
  1 + 0.1 * hours_since now (match updated_at t with
                             | Some u => u
                             | None => created_at t
                             end).

(** The ticket is currently assigned or blocked to the technician. *)
Definition in_active_load (tid : Z) (t : help_request) : bool :=
  match assigned_to t with
  | Some a => (a =? tid)%Z && (String.eqb (status t) "assigned"
                             || String.eqb (status t) "blocked")
  | None => false
  end.

Fixpoint sum (l : list Q) : Q :=
  match l with
  | [] => 0
  | x :: l' => x + sum l'
  end.

Definition score (d : database) (now tid : Z) : Q :=
  sum (map (fun t => priority_weight (priority t) * status_weight (status t)
                     * time_factor now t)
           (filter (in_active_load tid) (help_requests d))).

End Spec.

(** [alice] holds two urgent tickets assigned three hours ago, [sam] one low
    ticket blocked one hour ago; the clock reads 20000. *)
Definition busy_store : database :=
  mkDb [olga; sam; alice]
       [ mkRequest 1 9 "Cannot log in" "urgent" "assigned" (Some 1) 100 (Some 9200) None;
         mkRequest 2 9 "Payment failed" "urgent" "assigned" (Some 1) 200 (Some 9200) None;
         mkRequest 3 9 "Typo on page" "low" "blocked" (Some 2) 300 (Some 16400) None;
         mkRequest 4 9 "New question" "medium" "new" None 400 None None ]
       [].

Definition busy_world : world := mkWorld busy_store 20000 [].

(** ** The scan of the single-ticket assigner *)

(** The loop of [find_least_busy_technician] over scores that are already
    known. *)
Fixpoint scan (sc : Z -> workload) (technicians : list user)
    (best : option user) (lowest : workload) : option user * workload :=
  match technicians with
  | [] => (best, lowest)
  | t :: rest =>
      if workload_ltb (sc (user_id t)) lowest
      then scan sc rest (Some t) (sc (user_id t))
      else scan sc rest best lowest
  end.

(** The score that the code computes for a technician in this state. *)
Definition code_score (w : world) (tid : Z) : workload :=
  match fst (calculate_technician_workload tid w) with
  | Ok s => s
  | Raised => Inf
  end.

(** ** The batch distributor *)

(** The two numbers the distributor keeps for a technician. *)
Definition pending_count (tw : tech_workloads) (tid : Z) : Z :=
  match lookup tid tw with
  | Some e => new_assignments e
  | None => 0
  end.

Definition snapshot_score (tw : tech_workloads) (tid : Z) : option workload :=
  option_map current_workload (lookup tid tw).

(** [best] has the lowest total among the keys and, among the keys of that
    same total, the lowest id. *)
Definition selects (tw : tech_workloads) (best : Z) : Prop :=
  In best (keys tw)
  /\ forall tid, In tid (keys tw) ->
       workload_ltb (total_workload tw tid) (total_workload tw best) = false
       /\ (workload_ltb (total_workload tw best) (total_workload tw tid) = false ->
           best <= tid).

(** The dict of a run: not empty, keys in ascending order (the order in
    which the directory enumerates the technicians). *)
Definition batch_inv (tw : tech_workloads) : Prop :=
  tw <> [] /\ StronglySorted Z.le (keys tw).

(** The order of the backlog: by rank, then by creation time. *)
Definition key_le (x y : help_request) : Prop :=
  priority_rank (priority x) < priority_rank (priority y)
  \/ (priority_rank (priority x) = priority_rank (priority y)
      /\ created_at x <= created_at y).

(** What one turn of the loop does, from the dict [tw], the counter [count]
    and the failures [failed], to the state [st'] and the store [w']:
    it picks [best]; then either the transition to [assigned] succeeds and
    only [best] gets one more pending assignment, or the transition fails and
    the failure is recorded, or the ticket is [high] and [best] is not a
    [super_admin], and the failure is recorded without any transition. *)
Definition step_spec (tw : tech_workloads) (count : Z) (failed : list failure)
    (request : help_request) (w : world) (st' : batch_state) (w' : world) : Prop :=
  exists best e,
    py_min (total_workload tw) (keys tw) = Some best
    /\ selects tw best
    /\ lookup best tw = Some e
    /\ ((update_help_request_status (request_id request) "assigned" (Some best)
           (Some (priority request)) false w = (Ok true, w')
         /\ st' = (add_assignment best tw, count + 1, failed)
         /\ keys (fst (fst st')) = keys tw
         /\ (forall tid, pending_count (fst (fst st')) tid
                         = pending_count tw tid + (if tid =? best then 1 else 0))
         /\ (forall tid, snapshot_score (fst (fst st')) tid = snapshot_score tw tid))
        \/ (update_help_request_status (request_id request) "assigned" (Some best)
              (Some (priority request)) false w = (Ok false, w')
            /\ st' = (tw, count,
                      failed ++ [(request_id request, "Failed to update request status")]))
        \/ (priority request = "high"
            /\ platform_role (technician e) <> "super_admin"
            /\ w' = w
            /\ st' = (tw, count,
                      failed ++ [(request_id request,
                                  "No super admin available for high priority request")]))).

(** The sum of the pending counts of the dict. *)
Definition total_pending (tw : tech_workloads) : Z :=
  fold_right (fun entry acc => new_assignments (snd entry) + acc) 0 tw.

(** * The code around the claims *)

(** ** util.py: the constants of the helpdesk *)

Definition HELP_REQUEST_PRIORITIES : list string := ["low"; "medium"; "high"; "urgent"].

Definition HELP_REQUEST_STATUSES : list string := ["new"; "assigned"; "blocked"; "solved"].

(** ** Notions for the statements about the transition *)

(** The status of the ticket is one of [HELP_REQUEST_STATUSES]. *)
Definition known_status (t : help_request) : Prop :=
  In (status t) HELP_REQUEST_STATUSES.

(** [t'] is the row [t] after a transition aimed at ticket [rid]: the
    columns that identify the ticket are the same, and the whole row is the
    same when it is another ticket. *)
Definition same_ticket (rid : Z) (t t' : help_request) : Prop :=
  request_id t' = request_id t
  /\ owner_id t' = owner_id t
  /\ title t' = title t
  /\ created_at t' = created_at t
  /\ (request_id t <> rid -> t' = t).

(** No ticket with this id has its owner among the users: the join of
    [update_help_request_status] finds nothing. *)
Definition no_joined_ticket (d : database) (rid : Z) : Prop :=
  forall t u, In t (help_requests d) -> request_id t = rid ->
              In u (users d) -> user_id u <> owner_id t.

(** [m] returns normally on every connection. *)
Definition never_raises {A} (m : M A) : Prop :=
  forall w, fst (m w) <> Raised.

(** ** Notions for the statements about the notifications *)

(** The category of the row is one of [allowed_categories]. *)
Definition allowed_category (n : notification) : Prop :=
  In (n_category n) allowed_categories.

(** The user has no row, or the row says notifications are off: what
    [is_noti_enabled] answers [False] on. *)
Definition opted_out (d : database) (uid : Z) : Prop :=
  match fetchone (filter (fun u => user_id u =? uid) (users d)) with
  | Some u => notifications_enabled u = false
  | None => True
  end.

(** ** What an operation may do to the store *)

(** From [d] to [d'] the users are the same, the tickets are the same ones
    in the same order, only tickets whose id is in [touched] may differ,
    and notifications were only appended, each with an allowed category. *)
Definition frame_step (touched : Z -> Prop) (d d' : database) : Prop :=
  users d' = users d
  /\ Forall2 (fun t t' =>
                request_id t' = request_id t
                /\ owner_id t' = owner_id t
                /\ title t' = title t
                /\ created_at t' = created_at t
                /\ (~ touched (request_id t) -> t' = t))
             (help_requests d) (help_requests d')
  /\ exists sent,
       notifications d' = notifications d ++ sent /\ Forall allowed_category sent.

(** The same, and known statuses stay known. *)
Definition engine_step (touched : Z -> Prop) (d d' : database) : Prop :=
  frame_step touched d d'
  /\ (Forall known_status (help_requests d) -> Forall known_status (help_requests d')).

(** Every run of [m] relates the store before and the store after by [R]. *)
Definition stable (R : database -> database -> Prop) {A} (m : M A) : Prop :=
  forall w, R (db w) (db (snd (m w))).

(** From [d] to [d'] notifications were only appended, each satisfying [P]. *)
Definition notifies (P : notification -> Prop) (d d' : database) : Prop :=
  exists sent, notifications d' = notifications d ++ sent /\ Forall P sent.

(** A notification about ticket [rid], addressed to one of [recipients]. *)
Definition about_ticket (rid : Z) (recipients : list (option Z)) (n : notification)
  : Prop :=
  allowed_category n
  /\ n_related_id n = Some rid
  /\ In (Some (n_user_id n)) recipients.

(** ** Notions for the statements about the assigners *)

(** The number of tickets currently assigned or blocked to the technician:
    what the query of [get_technician_current_workload] counts. *)
Definition active_count_of (d : database) (tid : Z) : Z :=
  Z.of_nat (List.length (filter (is_active_load tid) (help_requests d))).

(** ** Notions for the statements about the batch distributor *)

(** [t'] is the ticket [t] as the distributor leaves it when it assigns it:
    [assigned], with the priority of an entry [r] of the backlog for this
    ticket, held by a user who is eligible for that priority. *)
Definition assigned_from (reqs : list help_request) (staff : list user)
    (t t' : help_request) : Prop :=
  request_id t' = request_id t
  /\ status t' = "assigned"
  /\ exists r u,
       In r reqs /\ request_id r = request_id t
       /\ In u staff /\ eligible (priority r) u
       /\ assigned_to t' = Some (user_id u)
       /\ priority t' = priority r.

(** The tickets after a run: each one untouched, or assigned from the
    backlog. *)
Definition batch_result (reqs : list help_request) (d d' : database) : Prop :=
  users d' = users d
  /\ Forall2 (fun t t' => t' = t \/ assigned_from reqs (users d) t t')
             (help_requests d) (help_requests d').

(** The entries of the dict are rows of the staff, under their own id. *)
Definition dict_ok (staff : list user) (tw : tech_workloads) : Prop :=
  forall k e, lookup k tw = Some e ->
              In (technician e) staff
              /\ user_id (technician e) = k
              /\ eligible "medium" (technician e).

(** ** assign_request.py: the simple bulk path *)

From Stdlib Require Import DecimalString.

(** [str(n)] for an int. *)
Definition str_of_int (n : Z) : string := NilZero.string_of_int (Z.to_int n).

(** The [CASE priority ... END] of the query: it has no [ELSE], so any other
    priority gives [NULL]. *)
Definition case_priority (p : string) : option Z :=
  if String.eqb p "urgent" then Some 1
  else if String.eqb p "medium" then Some 2
  else if String.eqb p "low" then Some 3
  else None.

(** [ORDER BY CASE ... END, created_at ASC]: a [NULL] sorts before every
    value. *)
Definition by_case_then_created_at (x y : help_request) : bool :=
  match case_priority (priority x), case_priority (priority y) with
  | None, None => created_at x <? created_at y
  | None, Some _ => true
  | Some _, None => false
  | Some a, Some b => if a =? b then created_at x <? created_at y else a <? b
  end.

(** [assigned_to IS NULL AND status != 'solved'] *)
Definition is_unassigned_open (r : help_request) : bool :=
  match assigned_to r with
  | None => negb (String.eqb (status r) "solved")
  | Some _ => false
  end.

Definition select_unassigned (d : database) : list help_request :=
  sort_by by_case_then_created_at (filter is_unassigned_open (help_requests d)).

(** The dict that [bulk_simple_assign] returns: with ['success': True], a
    message, the count and the failures; with ['success': False], the text of
    the exception (not kept), a count of 0 and no failure. *)
Inductive bulk_report : Type :=
| Report (message : string) (assigned_count : Z) (failed_assignments : list failure)
| ReportError.

Fixpoint simple_assign_loop (requests : list help_request) (assigned_count : Z)
    (failed_assignments : list failure) : M (Z * list failure) :=
  match requests with
  | [] => ret (assigned_count, failed_assignments)
  | request :: rest =>
      r <- simple_auto_assign (request_id request) (priority request) ;;
      let '(success, _, message) := r in
      if success : bool then
        simple_assign_loop rest (assigned_count + 1) failed_assignments
      else
        simple_assign_loop rest assigned_count
                           (failed_assignments ++ [(request_id request, message)])
  end.

Definition bulk_simple_assign : M bulk_report :=
  try_except
    (unassigned_requests <- select select_unassigned ;;
     match unassigned_requests with
     | [] => ret (Report "No unassigned requests found" 0 [])
     | _ :: _ =>
         r <- simple_assign_loop unassigned_requests 0 [] ;;
         ret (Report ("Bulk assignment completed. " ++ str_of_int (fst r)
                      ++ " requests assigned.")%string
                     (fst r) (snd r))
     end)
    (ret ReportError).

(** The id of a ticket that is unassigned and not solved in [d]. *)
Definition unassigned_open_id (d : database) (rid : Z) : Prop :=
  exists t, In t (help_requests d) /\ request_id t = rid
            /\ assigned_to t = None /\ status t <> "solved".

(** ** assign_request.py: the simple dashboard *)

(** An entry of the list that [get_simple_workload_dashboard] returns. *)
Record workload_row := mkRow {
  technician_id : Z;
  name : string;
  role : string;
  workload_score : Z;
  total_assigned : Z;
  active_count : Z;
  blocked_count : Z;
  urgent_count : Z
}.

Definition count_where (f : help_request -> bool) (rows : list help_request) : Z :=
  Z.of_nat (List.length (filter f rows)).

(** The row of the statistics query: the count of all rows and the three
    conditional counts over the active load of the technician. *)
Definition select_stats (tid : Z) (d : database) : Z * Z * Z * Z :=
  let rows := filter (is_active_load tid) (help_requests d) in
  (count_where (fun _ => true) rows,
   count_where (fun r => String.eqb (status r) "assigned") rows,
   count_where (fun r => String.eqb (status r) "blocked") rows,
   count_where (fun r => String.eqb (priority r) "urgent") rows).

Fixpoint dashboard_loop (technicians : list user) (workload_data : list workload_row)
  : M (list workload_row) :=
  match technicians with
  | [] => ret workload_data
  | technician :: rest =>
      current_workload <- get_technician_current_workload (user_id technician) ;;
      stats <- select (select_stats (user_id technician)) ;;
      let '(total, active, blocked, urgent) := stats in
      dashboard_loop rest
        (workload_data
         ++ [mkRow (user_id technician)
                   (first_name technician ++ " " ++ last_name technician)%string
                   (platform_role technician)
                   current_workload total active blocked urgent])
  end.

(** [workload_data.sort(key=lambda x: x['workload_score'])] *)
Definition by_workload_score (a b : workload_row) : bool :=
  workload_score a <? workload_score b.

Definition get_simple_workload_dashboard : M (list workload_row) :=
  try_except
    (technicians <- get_available_technicians "medium" ;;
     workload_data <- dashboard_loop technicians [] ;;
     ret (sort_by by_workload_score workload_data))
    (ret []).

(** What every entry of the dashboard satisfies, for the store [d] it was
    computed from. *)
Definition sound_row (d : database) (r : workload_row) : Prop :=
  total_assigned r = active_count r + blocked_count r
  /\ 0 <= urgent_count r <= total_assigned r
  /\ total_assigned r = active_count_of d (technician_id r)
  /\ (workload_score r = total_assigned r \/ workload_score r = 999)
  /\ exists u, In u (users d) /\ eligible "medium" u
               /\ technician_id r = user_id u /\ role r = platform_role u.

(** ** helpdesk.py: the staff list of the assignment dropdown *)

(** [ORDER BY first_name, last_name], for a comparison of strings
    [collate], the collation of the two columns, which the sources do not
    fix. *)
Definition by_name (collate : string -> string -> comparison) (a b : user) : bool :=
  match collate (first_name a) (first_name b) with
  | Lt => true
  | Gt => false
  | Eq => match collate (last_name a) (last_name b) with
          | Lt => true
          | _ => false
          end
  end.

(** The [CASE platform_role ... END] of the query. *)
Definition case_role (r : string) : option Z :=
  if String.eqb r "super_admin" then Some 1
  else if String.eqb r "support_technician" then Some 2
  else None.

Definition opt_Z_ltb (a b : option Z) : bool :=
  match a, b with
  | Some x, Some y => x <? y
  | None, Some _ => true
  | _, None => false
  end.

Definition by_role_then_name (collate : string -> string -> comparison) (a b : user)
  : bool :=
  if opt_Z_eqb (case_role (platform_role a)) (case_role (platform_role b))
  then by_name collate a b
  else opt_Z_ltb (case_role (platform_role a)) (case_role (platform_role b)).

Definition get_support_staff (collate : string -> string -> comparison)
    (priority : option string) : M (list user) :=
  try_except
    (if match priority with Some p => String.eqb p "high" | None => false end then
       select (fun d =>
                 sort_by (by_name collate)
                         (filter (fun u => str_in (platform_role u) ["super_admin"]
                                           && is_active u) (users d)))
     else
       select (fun d =>
                 sort_by (by_role_then_name collate)
                         (filter (fun u => str_in (platform_role u)
                                                  ["super_admin"; "support_technician"]
                                           && is_active u) (users d))))
    (ret []).

(** The position of a user in the order of the [CASE]: a role outside the
    two has no value there and sorts first. *)
Definition role_rank (u : user) : Z :=
  match case_role (platform_role u) with
  | Some x => x
  | None => 0
  end.

(** ** auth.py: the session and the role gate *)

(** What the routes read of the Flask session: whether the key
    ['loggedin'] is present, and [session.get] of ['user_id'] and of
    ['platform_role']. *)
Record session := mkSession {
  loggedin : bool;
  session_user_id : option Z;
  session_platform_role : option string
}.

Definition is_user_logged_in (s : session) : bool := loggedin s.

Definition get_current_user_id (s : session) : option Z := session_user_id s.

Definition get_current_platform_role (s : session) : option string :=
  session_platform_role s.

Definition platform_hierarchy : list (string * list string) :=
  [ ("super_admin", ["super_admin"; "support_technician"; "participant"]);
    ("support_technician", ["support_technician"; "participant"]);
    ("participant", ["participant"]) ].

Definition has_platform_permission (s : session) (required_role : string) : bool :=
  if negb (is_user_logged_in s) then false
  else
    match get_current_platform_role s with
    | Some user_role => str_in required_role (dict_get platform_hierarchy user_role [])
    | None => false
    end.

(** The targets of [url_for] that the routes use. *)
Inductive endpoint : Type :=
| login
| support_manage
| view_help_request (rid : Z).

Inductive reply : Type :=
| redirect (to : endpoint)
| access_denied.

(** A response: the messages flashed while it was computed, what is sent
    back, and whether the three no-cache headers were set. *)
Record response := mkResponse {
  flashed : list (string * string);
  body : reply;
  no_cache : bool
}.

(** [x not in allowed] for a role that may be [None]. *)
Definition role_in (r : option string) (allowed : list string) : bool :=
  match r with
  | Some r => str_in r allowed
  | None => false
  end.

(** The decorator, around a view that flashes messages and redirects. *)
Definition require_platform_role (allowed_platform_roles : list string) (s : session)
    (f : M (list (string * string) * endpoint)) : M response :=
  if negb (is_user_logged_in s) then ret (mkResponse [] (redirect login) false)
  else if negb (role_in (get_current_platform_role s) allowed_platform_roles) then
    ret (mkResponse [] access_denied false)
  else
    r <- f ;;
    ret (mkResponse (fst r) (redirect (snd r)) true).

(** ** helpdesk.py: the routes that take and release a ticket *)

(** [SELECT ... FROM help_requests WHERE request_id = %s], then
    [fetchone]. *)
Definition select_request_row (rid : Z) (d : database) : option help_request :=
  fetchone (filter (fun r => request_id r =? rid) (help_requests d)).

Definition dquote : string := String (Ascii.ascii_of_nat 34) EmptyString.

Definition cannot_message (verb current_status : string) : string :=
  ("Cannot " ++ verb ++ " request with status " ++ dquote ++ current_status ++ dquote
   ++ ". Valid transitions: "
   ++ String.concat ", " (get_valid_status_transitions current_status))%string.

Definition opt_Z_neqb (a b : option Z) : bool := negb (opt_Z_eqb a b).

(** The view function, under its decorator below. *)
Definition take_request_view (s : session) (rid : Z)
  : M (list (string * string) * endpoint) :=
  let current_user_id := get_current_user_id s in
  let current_user_role := get_current_platform_role s in
  try_except
    (request <- select (select_request_row rid) ;;
     match request with
     | None => ret ([("Request not found", "error")], support_manage)
     | Some request =>
         if truthy_id (assigned_to request)
            && opt_Z_neqb (assigned_to request) current_user_id then
           ret ([("Request is already assigned to another staff member", "warning")],
                view_help_request rid)
         else if String.eqb (priority request) "high"
                 && negb (role_in current_user_role ["super_admin"]) then
           ret ([("Only super administrators can assign high priority requests",
                  "error")],
                support_manage)
         else
           let current_status := status request in
           if negb (is_valid_status_transition current_status "assigned") then
             ret ([(cannot_message "assign" current_status, "error")],
                  view_help_request rid)
           else
             success <- update_help_request_status rid "assigned" current_user_id
                                                   None false ;;
             if success : bool then
               ret ([("Request assigned to you", "success")], view_help_request rid)
             else
               ret ([("Failed to assign request", "error")], view_help_request rid)
     end)
    (ret ([("An error occurred while assigning the request", "error")],
          view_help_request rid)).

Definition take_request (s : session) (rid : Z) : M response :=
  require_platform_role ["super_admin"; "support_technician"] s (take_request_view s rid).

(** The two flashes that end a release. *)
Definition unassign_outcome (success : bool) : string * string :=
  if success then ("Request unassigned successfully", "success")
  else ("Failed to unassign request", "error").

Definition drop_request_view (s : session) (rid : Z)
  : M (list (string * string) * endpoint) :=
  let current_user_id := get_current_user_id s in
  try_except
    (request <- select (select_request_row rid) ;;
     match request with
     | None => ret ([("Request not found", "error")], support_manage)
     | Some request =>
         if negb (truthy_id (assigned_to request)) then
           ret ([("Request is not assigned to anyone", "warning")],
                view_help_request rid)
         else if opt_Z_neqb (assigned_to request) current_user_id
                 && negb (has_platform_permission s "super_admin") then
           ret ([("You can only unassign requests assigned to you", "warning")],
                view_help_request rid)
         else
           let current_status := status request in
           if String.eqb current_status "solved" then
             ret ([("Cannot unassign a solved request", "error")],
                  view_help_request rid)
           else if String.eqb current_status "new" then
             success <- update_help_request_status rid current_status None None true ;;
             ret ([unassign_outcome success], view_help_request rid)
           else if negb (is_valid_status_transition current_status "new") then
             ret ([(cannot_message "unassign" current_status, "error")],
                  view_help_request rid)
           else
             success <- update_help_request_status rid "new" None None
                          (has_platform_permission s "super_admin") ;;
             ret ([unassign_outcome success], view_help_request rid)
     end)
    (ret ([("An error occurred while unassigning the request", "error")],
          view_help_request rid)).

Definition drop_request (s : session) (rid : Z) : M response :=
  require_platform_role ["super_admin"; "support_technician"] s (drop_request_view s rid).

Definition unassign_request_view (s : session) (rid : Z)
  : M (list (string * string) * endpoint) :=
  try_except
    (request <- select (select_request_row rid) ;;
     match request with
     | None => ret ([("Request not found", "error")], support_manage)
     | Some request =>
         if negb (truthy_id (assigned_to request)) then
           ret ([("Request is not assigned to anyone", "warning")], support_manage)
         else if String.eqb (status request) "solved" then
           ret ([("Cannot unassign a solved request", "error")], support_manage)
         else
           success <- update_help_request_status rid "new" None None true ;;
           ret ([unassign_outcome success], support_manage)
     end)
    (ret ([("An error occurred while unassigning the request", "error")],
          support_manage)).

Definition unassign_request (s : session) (rid : Z) : M response :=
  require_platform_role ["super_admin"] s (unassign_request_view s rid).

(** ** Notions for the statements about the routes *)

(** The session is logged in with one of the roles. *)
Definition logged_in_as (s : session) (roles : list string) : Prop :=
  loggedin s = true
  /\ exists r, session_platform_role s = Some r /\ In r roles.

(** What [take_request] requires of the session and of the row it reads. *)
Definition may_take (s : session) (d : database) (rid : Z) : Prop :=
  logged_in_as s ["super_admin"; "support_technician"]
  /\ exists request,
       select_request_row rid d = Some request
       /\ (truthy_id (assigned_to request) = false
           \/ assigned_to request = session_user_id s)
       /\ (priority request = "high"%string
           -> session_platform_role s = Some "super_admin"%string)
       /\ (status request = "new"%string \/ status request = "blocked"%string).

(** What [drop_request] requires. *)
Definition may_drop (s : session) (d : database) (rid : Z) : Prop :=
  logged_in_as s ["super_admin"; "support_technician"]
  /\ exists request,
       select_request_row rid d = Some request
       /\ truthy_id (assigned_to request) = true
       /\ (assigned_to request = session_user_id s
           \/ session_platform_role s = Some "super_admin"%string)
       /\ In (status request) ["new"; "assigned"; "blocked"]%string.

(** What [unassign_request] requires. *)
Definition may_unassign (s : session) (d : database) (rid : Z) : Prop :=
  logged_in_as s ["super_admin"]
  /\ exists request,
       select_request_row rid d = Some request
       /\ truthy_id (assigned_to request) = true
       /\ status request <> "solved"%string.

(** The tickets with this id are unassigned and [new]. *)
Definition released (d : database) (rid : Z) : Prop :=
  ticket_has d rid (fun t => status t = "new"%string /\ assigned_to t = None).

(** * Properties *)

(** ** Frame lemmas: code that leaves the tickets alone *)

Lemma keeps_ret {A} (a : A) : keeps_tickets (ret a).
Proof. intros w; cbn; auto. Qed.

Lemma keeps_raise {A} : keeps_tickets (@raise A).
Proof. intros w; cbn; auto. Qed.

Lemma keeps_bind {A B} (m : M A) (k : A -> M B) :
  keeps_tickets m -> (forall a, keeps_tickets (k a)) -> keeps_tickets (bind m k).
Proof.
  intros Hm Hk w. unfold bind.
  destruct (Hm w) as (H1 & H2 & H3).
  destruct (m w) as [[a|] w1]; cbn in *.
  - destruct (Hk a w1) as (K1 & K2 & K3).
    rewrite K1, K2, K3; auto.
  - auto.
Qed.

Lemma keeps_try_except {A} (m h : M A) :
  keeps_tickets m -> keeps_tickets h -> keeps_tickets (try_except m h).
Proof.
  intros Hm Hh w. unfold try_except.
  destruct (Hm w) as (H1 & H2 & H3).
  destruct (m w) as [[a|] w1]; cbn in *.
  - auto.
  - destruct (Hh w1) as (K1 & K2 & K3).
    rewrite K1, K2, K3; auto.
Qed.

Lemma keeps_cursor_execute : keeps_tickets cursor_execute.
Proof.
  intros w. unfold cursor_execute.
  destruct (faults w) as [|b fs]; cbn; auto.
Qed.

Lemma keeps_select {A} (q : database -> A) : keeps_tickets (select q).
Proof.
  unfold select. apply keeps_bind.
  - apply keeps_cursor_execute.
  - intros _ w; cbn; auto.
Qed.

Lemma keeps_try_pass {A} (m : M A) : keeps_tickets m -> keeps_tickets (try_pass m).
Proof.
  intros Hm. unfold try_pass.
  apply keeps_try_except; [apply keeps_bind; [assumption|] |]; intros; apply keeps_ret.
Qed.

Lemma keeps_is_noti_enabled uid : keeps_tickets (is_noti_enabled uid).
Proof.
  unfold is_noti_enabled. apply keeps_bind; [apply keeps_select|].
  intros rows. destruct (fetchone rows); apply keeps_ret.
Qed.

Lemma keeps_create_noti uid ttl cat rel force :
  keeps_tickets (create_noti uid ttl cat rel force).
Proof.
  unfold create_noti. apply keeps_bind.
  - destruct (negb force); [|apply keeps_ret].
    apply keeps_bind; [apply keeps_is_noti_enabled | intros; apply keeps_ret].
  - intros [|]; [apply keeps_ret|].
    apply keeps_try_except; [|apply keeps_ret].
    apply keeps_bind.
    + unfold modify. apply keeps_bind; [apply keeps_cursor_execute|].
      intros _ w; cbn; auto.
    + intros _. apply keeps_bind; [intros w; cbn; auto | intros; apply keeps_ret].
Qed.

Create HintDb frame.
#[export] Hint Resolve keeps_ret keeps_raise keeps_select keeps_cursor_execute
  keeps_try_pass keeps_create_noti keeps_is_noti_enabled : frame.

Lemma keeps_notify_changes rid info st a p :
  keeps_tickets (notify_changes rid info st a p).
Proof.
  unfold notify_changes.
  repeat first
    [ solve [auto with frame]
    | match goal with
      | |- keeps_tickets (if ?c then _ else _) => destruct c
      | |- keeps_tickets (match ?x with Some _ => _ | None => _ end) => destruct x
      end
    | apply keeps_bind; [|intros ?] ].
Qed.

(** ** What a transition does to the store *)

(** [update_help_request_status] never raises.  Either it reports failure
    with the tickets untouched, or the [UPDATE] ran on a ticket that was found
    and passed validation; the clock and the users stay as they were. *)
Lemma update_status_outcome rid st a p bypass w :
  exists b w',
    update_help_request_status rid st a p bypass w = (Ok b, w')
    /\ clock w' = clock w
    /\ users (db w') = users (db w)
    /\ ((b = false /\ help_requests (db w') = help_requests (db w))
        \/ ((exists info,
               fetchone (select_request_info rid (db w)) = Some info
               /\ passes_validation bypass (old_status info) st)
            /\ help_requests (db w')
               = update_rows (update_fields st a p) rid (clock w)
                             (help_requests (db w)))).
Proof.
  unfold update_help_request_status, try_except.
  unfold bind at 1. unfold select at 1. unfold bind at 1.
  destruct (keeps_cursor_execute w) as (E1 & E2 & E3).
  assert (Edb : db (snd (cursor_execute w)) = db w).
  { unfold cursor_execute. destruct (faults w) as [|[|] fs]; reflexivity. }
  destruct (cursor_execute w) as [[[]|] w1]; cbn [snd] in *.
  2:{ exists false, w1. cbn. repeat split; auto. }
  rewrite Edb.
  destruct (fetchone (select_request_info rid (db w))) as [info|] eqn:Hinfo.
  2:{ exists false, w1. cbn. repeat split; auto. }
  destruct (negb bypass
            && match validate_status_transition (old_status info) st with
               | Some _ => true
               | None => false
               end) eqn:Hval.
  { exists false, w1. cbn. repeat split; auto. }
  assert (Hpass : passes_validation bypass (old_status info) st).
  { unfold passes_validation. destruct bypass; [now left|right].
    cbn in Hval. destruct (validate_status_transition (old_status info) st);
      [discriminate|reflexivity]. }
  unfold bind at 1. unfold execute_update, modify. unfold bind at 1.
  destruct (keeps_cursor_execute w1) as (F1 & F2 & F3).
  assert (Fdb : db (snd (cursor_execute w1)) = db w1).
  { unfold cursor_execute. destruct (faults w1) as [|[|] fs]; reflexivity. }
  destruct (cursor_execute w1) as [[[]|] w2]; cbn [snd] in *.
  2:{ exists false, w2. cbn. rewrite F1, F2, F3. repeat split; auto. }
  set (w3 := mkWorld _ (clock w2) (faults w2)).
  assert (Hrows : help_requests (db w3)
                  = update_rows (update_fields st a p) rid (clock w)
                                (help_requests (db w))).
  { unfold w3. cbn. rewrite F3, E3, F1, E1. reflexivity. }
  assert (Husers : users (db w3) = users (db w)).
  { unfold w3. cbn. congruence. }
  assert (Hclock : clock w3 = clock w).
  { unfold w3. cbn. congruence. }
  clearbody w3.
  unfold bind.
  destruct (keeps_notify_changes rid info st a p w3) as (G1 & G2 & G3).
  destruct (notify_changes rid info st a p w3) as [[[]|] w4]; cbn [snd] in *.
  - exists true, w4. split; [reflexivity|]. repeat (split; [congruence|]).
    right. split; [exists info; auto | rewrite G1; exact Hrows].
  - exists false, w4. split; [reflexivity|]. repeat (split; [congruence|]).
    right. split; [exists info; auto | rewrite G1; exact Hrows].
Qed.

Lemma applied_fields st a p now t :
  request_id (applied st a p now t) = request_id t
  /\ status (applied st a p now t) = st
  /\ assigned_to (applied st a p now t) = a
  /\ updated_at (applied st a p now t) = Some now
  /\ priority (applied st a p now t)
     = match p with Some p' => p' | None => priority t end
  /\ resolved_at (applied st a p now t)
     = if String.eqb st "resolved" then Some now else resolved_at t.
Proof.
  unfold applied, update_fields.
  destruct a, p, (String.eqb st "resolved"); cbn; repeat split; reflexivity.
Qed.

Lemma update_rows_In fields rid now rows t' :
  In t' (update_rows fields rid now rows) ->
  exists t, In t rows
            /\ t' = if request_id t =? rid then fold_left (set_field now) fields t else t.
Proof.
  unfold update_rows. rewrite in_map_iff. intros (t & Ht & Hin).
  exists t. split; [assumption | symmetry; assumption].
Qed.

Lemma In_update_rows fields rid now rows t :
  In t rows -> request_id t = rid ->
  In (fold_left (set_field now) fields t) (update_rows fields rid now rows).
Proof.
  intros Hin Hid. unfold update_rows. apply in_map_iff.
  exists t. split; [|assumption].
  apply Z.eqb_eq in Hid. rewrite Hid. reflexivity.
Qed.

(** A fetched [request_info] comes from a ticket with that id. *)
Lemma select_request_info_In rid d info :
  In info (select_request_info rid d) ->
  exists t, In t (help_requests d) /\ request_id t = rid
            /\ old_status info = status t
            /\ old_assigned_to info = assigned_to t.
Proof.
  unfold select_request_info. rewrite in_flat_map.
  intros (t & Ht & Hinfo).
  apply filter_In in Ht. destruct Ht as [Ht Hid].
  apply in_map_iff in Hinfo. destruct Hinfo as (u & Hu & _).
  exists t. subst info. cbn. apply Z.eqb_eq in Hid. auto.
Qed.

Lemma fetchone_In {A} (rows : list A) (x : A) : fetchone rows = Some x -> In x rows.
Proof. destruct rows; cbn; [discriminate | intros [= ->]; now left]. Qed.

Lemma validate_from_solved st :
  st <> "solved" -> validate_status_transition "solved" st <> None.
Proof.
  intros Hst. unfold validate_status_transition.
  destruct (String.eqb_spec "solved" st) as [E|_]; [congruence|].
  cbn. discriminate.
Qed.

(** ** A connection without faults *)

Lemma fault_free_select {A} (q : database -> A) w :
  faults w = [] -> select q w = (Ok (q (db w)), w).
Proof.
  intros Hf. unfold select, bind, cursor_execute. rewrite Hf. reflexivity.
Qed.

Lemma clean_ret {A} (a : A) : runs_clean (ret a).
Proof. intros w Hf. exists a, w. auto. Qed.

Lemma clean_bind {A B} (m : M A) (k : A -> M B) :
  runs_clean m -> (forall a, runs_clean (k a)) -> runs_clean (bind m k).
Proof.
  intros Hm Hk w Hf. unfold bind.
  destruct (Hm w Hf) as (a & w1 & -> & Hf1). exact (Hk a w1 Hf1).
Qed.

Lemma clean_try_except {A} (m h : M A) : runs_clean m -> runs_clean (try_except m h).
Proof.
  intros Hm w Hf. unfold try_except.
  destruct (Hm w Hf) as (a & w1 & -> & Hf1). eauto.
Qed.

Lemma clean_cursor_execute : runs_clean cursor_execute.
Proof.
  intros w Hf. unfold cursor_execute. rewrite Hf. eauto.
Qed.

Lemma clean_select {A} (q : database -> A) : runs_clean (select q).
Proof.
  unfold select. apply clean_bind; [apply clean_cursor_execute|].
  intros _ w Hf. eauto.
Qed.

Lemma clean_modify u : runs_clean (modify u).
Proof.
  unfold modify. apply clean_bind; [apply clean_cursor_execute|].
  intros _ w Hf. do 2 eexists. split; [reflexivity | exact Hf].
Qed.

Lemma clean_try_pass {A} (m : M A) : runs_clean m -> runs_clean (try_pass m).
Proof.
  intros Hm. unfold try_pass. apply clean_try_except.
  apply clean_bind; [assumption | intros; apply clean_ret].
Qed.

Lemma clean_create_noti uid ttl cat rel force :
  runs_clean (create_noti uid ttl cat rel force).
Proof.
  unfold create_noti. apply clean_bind.
  - destruct (negb force); [|apply clean_ret].
    apply clean_bind; [|intros; apply clean_ret].
    unfold is_noti_enabled. apply clean_bind; [apply clean_select|].
    intros rows. destruct (fetchone rows); apply clean_ret.
  - intros [|]; [apply clean_ret|].
    apply clean_try_except.
    apply clean_bind; [apply clean_modify|]. intros _.
    apply clean_bind; [|intros; apply clean_ret].
    intros w Hf. eauto.
Qed.

#[export] Hint Resolve clean_ret clean_select clean_modify clean_try_pass
  clean_create_noti : frame.

Lemma clean_notify_changes rid info st a p :
  runs_clean (notify_changes rid info st a p).
Proof.
  unfold notify_changes.
  repeat first
    [ solve [auto with frame]
    | match goal with
      | |- runs_clean (if ?c then _ else _) => destruct c
      | |- runs_clean (match ?x with Some _ => _ | None => _ end) => destruct x
      end
    | apply clean_bind; [|intros ?] ].
Qed.

(** While the connection answers every statement, a transition that
    reports failure has touched nothing: it was rejected before its
    [UPDATE]. *)
Lemma fault_free_failure_changes_nothing rid st a p bypass w w' :
  faults w = [] ->
  update_help_request_status rid st a p bypass w = (Ok false, w') ->
  w' = w.
Proof.
  intros Hf. unfold update_help_request_status, try_except.
  unfold bind at 1. rewrite fault_free_select by exact Hf.
  destruct (fetchone (select_request_info rid (db w))) as [info|];
    [|cbn; congruence].
  destruct (negb bypass && _); [cbn; congruence|].
  unfold bind at 1.
  destruct (clean_modify
              (fun now d =>
                 mkDb (users d)
                      (update_rows (update_fields st a p) rid now (help_requests d))
                      (notifications d)) w Hf) as ([] & w1 & Hupd & Hf1).
  unfold execute_update. rewrite Hupd. unfold bind.
  destruct (clean_notify_changes rid info st a p w1 Hf1) as ([] & w2 & -> & _).
  cbn. discriminate.
Qed.

(** ** The transition: claims C2, C4, C5, C10 *)

(** C2 (evaluation of the code at the failing input).  The claim: every
    successful transition refreshes [updated_at] and sets [resolved_at]
    exactly when the target status is [solved].  The code compares the target
    with ['resolved'], which is not a status: marking ticket 1 solved at time
    5000 succeeds and refreshes [updated_at], but leaves [resolved_at]
    unset. *)
Example C2_solved_leaves_resolved_at_unset :
  let w := mkWorld (store [ticket 1 "medium" "assigned" (Some 1)]) 5000 [] in
  fst (update_help_request_status 1 "solved" (Some 1) None false w) = Ok true
  /\ map (fun t => (status t, updated_at t, resolved_at t))
         (help_requests (db (snd (update_help_request_status 1 "solved" (Some 1) None false w))))
     = [("solved", Some 5000, None)].
Proof. split; reflexivity. Qed.

(** What the code does instead, for every accepted transition: [updated_at]
    becomes [NOW()], and [resolved_at] is written exactly when the target is
    the string ['resolved']. *)
Lemma accepted_transition_timestamps rid st a p bypass w w' :
  update_help_request_status rid st a p bypass w = (Ok true, w') ->
  forall t', In t' (help_requests (db w')) -> request_id t' = rid ->
  updated_at t' = Some (clock w)
  /\ exists t, In t (help_requests (db w)) /\ request_id t = rid
               /\ resolved_at t'
                  = if String.eqb st "resolved" then Some (clock w) else resolved_at t.
Proof.
  intros Hrun t' Hin Hid.
  destruct (update_status_outcome rid st a p bypass w)
    as (b & w1 & Hrun' & _ & _ & [[Hb _] | [_ Hrows]]);
    rewrite Hrun in Hrun'; injection Hrun' as <- <-; [discriminate|].
  rewrite Hrows in Hin. apply update_rows_In in Hin.
  destruct Hin as (t & Ht & ->).
  destruct (request_id t =? rid) eqn:E.
  - fold (applied st a p (clock w) t).
    destruct (applied_fields st a p (clock w) t) as (_ & _ & _ & Hu & _ & Hr).
    split; [exact Hu|]. exists t. apply Z.eqb_eq in E. auto.
  - apply Z.eqb_neq in E. contradiction.
Qed.

(** C10.  A transition that succeeds and was called without an assignee
    leaves the ticket with [assigned_to = NULL], whatever the target status
    and whoever held the ticket before. *)
Theorem C10_omitted_assignee_clears_assigned_to rid st p bypass w w' :
  update_help_request_status rid st None p bypass w = (Ok true, w') ->
  ticket_exists (db w') rid
  /\ ticket_has (db w') rid (fun t => assigned_to t = None).
Proof.
  intros Hrun.
  destruct (update_status_outcome rid st None p bypass w)
    as (b & w1 & Hrun' & _ & _ & [[Hb _] | [(info & Hinfo & _) Hrows]]);
    rewrite Hrun in Hrun'; injection Hrun' as <- <-; [discriminate|].
  split.
  - apply fetchone_In, select_request_info_In in Hinfo.
    destruct Hinfo as (t & Ht & Hid & _).
    exists (applied st None p (clock w) t). split.
    + rewrite Hrows. apply In_update_rows; assumption.
    + destruct (applied_fields st None p (clock w) t) as (-> & _). exact Hid.
  - intros t' Hin Hid. rewrite Hrows in Hin.
    apply update_rows_In in Hin. destruct Hin as (t & Ht & ->).
    destruct (request_id t =? rid) eqn:E.
    + fold (applied st None p (clock w) t).
      now destruct (applied_fields st None p (clock w) t) as (_ & _ & -> & _).
    + apply Z.eqb_neq in E. contradiction.
Qed.

(** Witness of C10: ticket 1 is assigned to [alice]; blocking it without
    naming an assignee succeeds and unassigns it. *)
Lemma C10_witness :
  let w := mkWorld (store [ticket 1 "medium" "assigned" (Some 1)]) 5000 [] in
  let w' := snd (update_help_request_status 1 "blocked" None None false w) in
  ticket_exists (db w') 1 /\ ticket_has (db w') 1 (fun t => assigned_to t = None).
Proof.
  intros w w'.
  apply (C10_omitted_assignee_clears_assigned_to 1 "blocked" None false w w').
  reflexivity.
Defined.

(** C4 (as amended).  From a ticket that is [solved], a transition called
    without [bypass_validation] never changes the status; when it names
    another target status it is rejected and the tickets are left as they
    were; the only request that is accepted is the one to [solved] itself,
    which, as every accepted transition does, writes [assigned_to] from its
    argument. *)
Theorem C4_solved_is_terminal_without_bypass rid st a p w :
  ticket_has (db w) rid (fun t => status t = "solved") ->
  let r := update_help_request_status rid st a p false w in
  ticket_has (db (snd r)) rid (fun t => status t = "solved")
  /\ (st <> "solved" ->
      fst r = Ok false /\ help_requests (db (snd r)) = help_requests (db w))
  /\ (fst r = Ok true ->
      st = "solved" /\ ticket_has (db (snd r)) rid (fun t => assigned_to t = a)).
Proof.
  intros Hsolved r.
  destruct (update_status_outcome rid st a p false w)
    as (b & w1 & Hrun & _ & _ & Hcases).
  assert (Hr : r = (Ok b, w1)) by exact Hrun.
  rewrite Hr. cbn [fst snd].
  assert (Hacc : forall info,
             fetchone (select_request_info rid (db w)) = Some info ->
             passes_validation false (old_status info) st -> st = "solved").
  { intros info Hinfo [Hb|Hv]; [discriminate|].
    apply fetchone_In, select_request_info_In in Hinfo.
    destruct Hinfo as (t & Ht & Hid & Hst & _).
    rewrite Hst, (Hsolved t Ht Hid) in Hv.
    destruct (String.eqb_spec st "solved") as [E|E]; [exact E|].
    now apply validate_from_solved in E. }
  assert (Hrows : forall t', In t' (help_requests (db w1)) -> request_id t' = rid ->
             (In t' (help_requests (db w)))
             \/ (st = "solved" /\ status t' = st /\ assigned_to t' = a)).
  { intros t' Hin Hid.
    destruct Hcases as [[_ Hsame] | [(info & Hinfo & Hpass) Hupd]].
    - left. now rewrite <- Hsame.
    - right. split; [exact (Hacc info Hinfo Hpass)|].
      rewrite Hupd in Hin. apply update_rows_In in Hin.
      destruct Hin as (t & Ht & ->).
      destruct (request_id t =? rid) eqn:E.
      + fold (applied st a p (clock w) t).
        destruct (applied_fields st a p (clock w) t) as (_ & -> & -> & _). auto.
      + apply Z.eqb_neq in E. contradiction. }
  split; [|split].
  - intros t' Hin Hid.
    destruct (Hrows t' Hin Hid) as [Hold | (-> & Hst & _)]; [|exact Hst].
    exact (Hsolved t' Hold Hid).
  - intros Hne.
    destruct Hcases as [[-> Hsame] | [(info & Hinfo & Hpass) _]]; [auto|].
    elim Hne. exact (Hacc info Hinfo Hpass).
  - intros [= ->].
    destruct Hcases as [[Hb _] | [(info & Hinfo & Hpass) Hupd]]; [discriminate|].
    split; [exact (Hacc info Hinfo Hpass)|].
    intros t' Hin Hid. rewrite Hupd in Hin. apply update_rows_In in Hin.
    destruct Hin as (t & Ht & ->).
    destruct (request_id t =? rid) eqn:E.
    + fold (applied st a p (clock w) t).
      now destruct (applied_fields st a p (clock w) t) as (_ & _ & -> & _).
    + apply Z.eqb_neq in E. contradiction.
Qed.

Lemma solved_fixture_is_solved :
  ticket_has (store [ticket 1 "medium" "solved" (Some 1)]) 1
             (fun t => status t = "solved").
Proof. intros t [<-|[]] _. reflexivity. Qed.

(** Witness of C4: ticket 1 is solved and held by [alice]; reopening it is
    rejected and nothing changes. *)
Lemma C4_witness :
  let w := mkWorld (store [ticket 1 "medium" "solved" (Some 1)]) 5000 [] in
  let r := update_help_request_status 1 "assigned" (Some 2) None false w in
  ticket_has (db (snd r)) 1 (fun t => status t = "solved")
  /\ ("assigned" <> "solved" ->
      fst r = Ok false /\ help_requests (db (snd r)) = help_requests (db w))
  /\ (fst r = Ok true ->
      "assigned" = "solved"
      /\ ticket_has (db (snd r)) 1 (fun t => assigned_to t = Some 2)).
Proof.
  intros w.
  apply (C4_solved_is_terminal_without_bypass 1 "assigned" (Some 2) None w).
  intros t [<-|[]] _. reflexivity.
Defined.

(** Counterexample to C4 as stated ("any target status, any flags"): with
    [bypass_validation] the table is not consulted, and the solved ticket 1,
    held by [alice], goes back to [new] and loses its assignee. *)
Lemma C4_counterexample_bypass :
  let w := mkWorld (store [ticket 1 "medium" "solved" (Some 1)]) 5000 [] in
  let r := update_help_request_status 1 "new" None None true w in
  ticket_has (db w) 1 (fun t => status t = "solved")
  /\ fst r = Ok true
  /\ map (fun t => (status t, assigned_to t)) (help_requests (db w))
     = [("solved", Some 1)]
  /\ map (fun t => (status t, assigned_to t)) (help_requests (db (snd r)))
     = [("new", None)].
Proof.
  intros w r. split; [exact solved_fixture_is_solved|].
  repeat split; reflexivity.
Qed.

(** C5 (evaluation of the code at the failing input).  The claim: a
    transition or assignment that reports failure has not changed the ticket.
    The staff-name [SELECT] runs after the [UPDATE], inside the same [try]:
    when it raises, the transition returns [False] and the ticket is already
    assigned (and the owner already notified of it).  The same run seen from
    [auto_assign_request]: it answers "Failed to update request status" for a
    ticket that it has assigned. *)
Example C5_failure_after_the_update_keeps_the_write :
  let w := mkWorld (store [ticket 1 "medium" "new" None]) 5000
                   [false; false; false; false; true] in
  let r := update_help_request_status 1 "assigned" (Some 1) (Some "medium") false w in
  let w2 := mkWorld (store [ticket 1 "medium" "new" None]) 5000
                    [false; false; false; false; false; false; false; true] in
  let r2 := auto_assign_request 1 "medium" w2 in
  fst r = Ok false
  /\ map (fun t => (status t, assigned_to t, updated_at t)) (help_requests (db w))
     = [("new", None, None)]
  /\ map (fun t => (status t, assigned_to t, updated_at t)) (help_requests (db (snd r)))
     = [("assigned", Some 1, Some 5000)]
  /\ map n_title (notifications (db (snd r))) = ["Help Request Status Updated"]
  /\ fst r2 = Ok (false, None, "Failed to update request status")
  /\ map (fun t => (status t, assigned_to t, updated_at t)) (help_requests (db (snd r2)))
     = [("assigned", Some 1, Some 5000)].
Proof. repeat split; reflexivity. Qed.

(** The same when the connection is lost right after the [UPDATE]. *)
Example failure_when_the_connection_drops_after_the_update :
  let w := mkWorld (store [ticket 1 "medium" "new" None]) 5000
                   [false; false; true; true] in
  let r := update_help_request_status 1 "assigned" (Some 1) (Some "medium") false w in
  fst r = Ok false
  /\ map (fun t => (status t, assigned_to t, updated_at t)) (help_requests (db (snd r)))
     = [("assigned", Some 1, Some 5000)].
Proof. split; reflexivity. Qed.

(** ** The sort *)

Section Sorting.
Context {A : Type} (lt : A -> A -> bool) (le : A -> A -> Prop).
Hypothesis le_trans : forall x y z, le x y -> le y z -> le x z.
Hypothesis lt_le : forall x y, lt x y = true -> le x y.
Hypothesis not_lt_le : forall x y, lt y x = false -> le x y.

Lemma insert_by_perm x l : Permutation (insert_by lt x l) (x :: l).
Proof.
  induction l as [|y l IH]; cbn; [reflexivity|].
  destruct (lt y x); [|reflexivity].
  rewrite IH. apply perm_swap.
Qed.

Lemma sort_by_perm l : Permutation (sort_by lt l) l.
Proof.
  induction l as [|x l IH]; cbn; [constructor|].
  rewrite insert_by_perm. now constructor.
Qed.

Lemma insert_by_sorted x l :
  StronglySorted le l -> StronglySorted le (insert_by lt x l).
Proof.
  induction 1 as [|y l Hs IH Hall]; cbn.
  - repeat constructor.
  - destruct (lt y x) eqn:E.
    + constructor; [exact IH|].
      eapply Permutation_Forall.
      * symmetry. apply insert_by_perm.
      * constructor; [now apply lt_le | exact Hall].
    + assert (Hxy : le x y) by now apply not_lt_le.
      constructor; [now constructor|].
      constructor; [exact Hxy|].
      eapply Forall_impl; [|exact Hall].
      intros z Hyz. now apply le_trans with y.
Qed.

Lemma sort_by_sorted l : StronglySorted le (sort_by lt l).
Proof.
  induction l as [|x l IH]; cbn; [constructor|].
  now apply insert_by_sorted.
Qed.
End Sorting.

Lemma sort_by_In {A} (lt : A -> A -> bool) (l : list A) (x : A) :
  In x (sort_by lt l) <-> In x l.
Proof.
  split; apply Permutation_in; [|symmetry]; apply sort_by_perm.
Qed.

(** ** The technician directory: claim C8 *)

Lemma select_technicians_sorted roles d :
  StronglySorted by_id_le (select_technicians roles d).
Proof.
  unfold select_technicians. apply sort_by_sorted; unfold by_id_le, by_user_id.
  - intros x y z; lia.
  - intros x y H; apply Z.ltb_lt in H; lia.
  - intros x y H; apply Z.ltb_ge in H; lia.
Qed.

Lemma select_technicians_In roles d u :
  In u (select_technicians roles d)
  <-> In u (users d) /\ str_in (platform_role u) roles = true /\ is_active u = true.
Proof.
  unfold select_technicians. rewrite sort_by_In, filter_In, andb_true_iff.
  reflexivity.
Qed.

Lemma str_in_iff x l : str_in x l = true <-> In x l.
Proof.
  induction l as [|y l IH]; cbn; [split; [discriminate|tauto]|].
  rewrite orb_true_iff, IH, String.eqb_eq. split; intros [H|H]; auto.
Qed.

Lemma roles_for_eligible priority u :
  In (platform_role u) (roles_for priority) <-> eligible_role priority u.
Proof.
  unfold roles_for, eligible_role.
  destruct (String.eqb priority "high"); cbn; intuition congruence.
Qed.

(** [get_available_technicians] never raises: it returns the rows of its
    query, or the empty list when the query fails. *)
Lemma get_available_technicians_run priority w :
  exists w',
    clock w' = clock w /\ db w' = db w
    /\ (get_available_technicians priority w
          = (Ok (select_technicians (roles_for priority) (db w)), w')
        \/ get_available_technicians priority w = (Ok [], w')).
Proof.
  unfold get_available_technicians, roles_for, try_except, select, bind, cursor_execute.
  destruct (String.eqb priority "high");
    destruct (faults w) as [|[|] fs]; cbn;
    (eexists; split; [|split];
     [ | | first [left; reflexivity | right; reflexivity] ]; reflexivity).
Qed.

(** C8.  For every priority and every state of the store,
    [get_available_technicians] returns a list, not an error; the list holds
    only active technicians, in ascending order of id; for ["high"] they are
    all [super_admin], otherwise [super_admin] or [support_technician]; when
    the query is answered the list holds every such user; and the list is
    empty when no user matches. *)
Theorem C8_eligible_pool priority w :
  exists pool w',
    get_available_technicians priority w = (Ok pool, w')
    /\ Forall (fun u => In u (users (db w)) /\ eligible priority u) pool
    /\ StronglySorted by_id_le pool
    /\ (hd false (faults w) = false ->
        forall u, In u (users (db w)) -> eligible priority u -> In u pool)
    /\ ((forall u, In u (users (db w)) -> ~ eligible priority u) -> pool = []).
Proof.
  assert (Hsel : forall u,
             In u (select_technicians (roles_for priority) (db w))
             <-> In u (users (db w)) /\ eligible priority u).
  { intros u. rewrite select_technicians_In, str_in_iff, roles_for_eligible.
    unfold eligible, is_active. rewrite String.eqb_eq. tauto. }
  assert (Hnone : (forall u, In u (users (db w)) -> ~ eligible priority u) ->
                  select_technicians (roles_for priority) (db w) = []).
  { intros Hno.
    destruct (select_technicians (roles_for priority) (db w)) as [|u l] eqn:E;
      [reflexivity|].
    destruct (proj1 (Hsel u) (or_introl eq_refl)) as [Hin Hel].
    elim (Hno u Hin Hel). }
  destruct (get_available_technicians_run priority w) as (w' & _ & _ & [Hrun|Hrun]).
  - exists (select_technicians (roles_for priority) (db w)), w'.
    split; [exact Hrun|]. split; [|split; [|split]].
    + apply Forall_forall. intros u Hu. now apply Hsel.
    + apply select_technicians_sorted.
    + intros _ u Hin Hel. apply Hsel. auto.
    + exact Hnone.
  - exists [], w'. split; [exact Hrun|]. split; [|split; [|split]].
    + constructor.
    + constructor.
    + intros Hok u Hin Hel. exfalso.
      revert Hrun Hok.
      unfold get_available_technicians, try_except, select, bind, cursor_execute.
      destruct (String.eqb priority "high") eqn:Ep;
        destruct (faults w) as [|[|] fs]; cbn; try discriminate;
        intros [= Hempty _] _;
        assert (Hu : In u (select_technicians (roles_for priority) (db w)))
          by (apply Hsel; auto);
        unfold roles_for in Hu; rewrite Ep, Hempty in Hu; exact Hu.
    + reflexivity.
Qed.

(** ** The scorers: claims C3 and C7 *)



Lemma sum_perm (l l' : list Q) : Permutation l l' -> (Spec.sum l == Spec.sum l')%Q.
Proof.
  induction 1 as [| x l l' _ IH | x y l | l l' l'' _ IH1 _ IH2]; cbn.
  - reflexivity.
  - rewrite IH. reflexivity.
  - ring.
  - rewrite IH1. exact IH2.
Qed.

Lemma sum_map_ext {A} (f g : A -> Q) (l : list A) :
  (forall x, (f x == g x)%Q) -> (Spec.sum (map f l) == Spec.sum (map g l))%Q.
Proof.
  intros Hfg. induction l as [|x l IH]; cbn; [reflexivity|].
  rewrite IH, (Hfg x). reflexivity.
Qed.

(** The loop adds the weight of each request to the accumulator, and does
    nothing else. *)
Lemma workload_loop_run requests acc w :
  workload_loop requests acc w
  = (Ok (fold_left (fun s r => (s + request_weight (clock w) r)%Q) requests acc), w).
Proof.
  revert acc. induction requests as [|r l IH]; intros acc; cbn; [reflexivity|].
  unfold bind, datetime_now. apply IH.
Qed.

Lemma fold_left_sum {A} (f : A -> Q) (l : list A) (acc : Q) :
  (fold_left (fun s r => s + f r) l acc == acc + Spec.sum (map f l))%Q.
Proof.
  revert acc. induction l as [|x l IH]; intros acc; cbn.
  - ring.
  - rewrite IH. ring.
Qed.

Lemma request_weight_spec now t :
  (request_weight now t
   == Spec.priority_weight (priority t) * Spec.status_weight (status t)
      * Spec.time_factor now t)%Q.
Proof.
  unfold request_weight, Spec.time_factor, Spec.hours_since.
  change (dict_get PRIORITY_WEIGHTS (priority t) 1%Q)
    with (Spec.priority_weight (priority t)).
  change (dict_get STATUS_WEIGHTS (status t) 1%Q)
    with (Spec.status_weight (status t)).
  ring.
Qed.

Lemma is_active_load_spec tid t : is_active_load tid t = Spec.in_active_load tid t.
Proof.
  unfold is_active_load, Spec.in_active_load, opt_Z_eqb.
  destruct (assigned_to t); cbn; [|reflexivity].
  now rewrite orb_false_r.
Qed.

(** The scorer on a store that answers its query. *)
Lemma calculate_technician_workload_run tid w :
  hd false (faults w) = false ->
  exists s,
    calculate_technician_workload tid w
    = (Ok (Fin s), mkWorld (db w) (clock w) (tl (faults w)))
    /\ (s == Spec.score (db w) (clock w) tid)%Q
    /\ (filter (Spec.in_active_load tid) (help_requests (db w)) = [] -> s = 0%Q).
Proof.
  intros Hok.
  assert (Hfilter : filter (is_active_load tid) (help_requests (db w))
                    = filter (Spec.in_active_load tid) (help_requests (db w))).
  { apply filter_ext. intros t. apply is_active_load_spec. }
  assert (Hsel : select (select_active_requests tid) w
                 = (Ok (select_active_requests tid (db w)),
                    mkWorld (db w) (clock w) (tl (faults w)))).
  { unfold select, bind, cursor_execute.
    destruct w as [d now [|[|] fs]]; cbn in *; [reflexivity|discriminate|reflexivity]. }
  unfold calculate_technician_workload, try_except.
  unfold bind at 1. rewrite Hsel.
  destruct (select_active_requests tid (db w)) as [|r l] eqn:Hrows.
  - exists 0%Q. cbn. split; [reflexivity|]. split; [|reflexivity].
    unfold Spec.score. rewrite <- Hfilter.
    assert (Hp : Permutation [] (filter (is_active_load tid) (help_requests (db w)))).
    { rewrite <- Hrows. apply sort_by_perm. }
    apply Permutation_nil in Hp. rewrite Hp. reflexivity.
  - unfold bind. rewrite workload_loop_run. cbn [clock].
    eexists. split; [reflexivity|]. split.
    + rewrite fold_left_sum, Qplus_0_l.
      rewrite (sum_map_ext _ _ _ (request_weight_spec (clock w))).
      unfold Spec.score. rewrite <- Hfilter.
      apply sum_perm, Permutation_map.
      rewrite <- Hrows. apply sort_by_perm.
    + intros Hempty. exfalso.
      assert (Hp : Permutation (r :: l) []).
      { rewrite <- Hrows, <- Hempty, <- Hfilter. apply sort_by_perm. }
      symmetry in Hp. now apply Permutation_nil in Hp.
Qed.



Example busy_scores :
  (Spec.score busy_store 20000 1 == 10.4)%Q
  /\ (Spec.score busy_store 20000 2 == 0.55)%Q
  /\ Spec.score busy_store 20000 9 = 0%Q.
Proof. repeat split; reflexivity. Qed.

(** ** Order on workloads *)

Lemma Qltb_lt x y : Qltb x y = true <-> (x < y)%Q.
Proof.
  unfold Qltb. rewrite negb_true_iff, <- not_true_iff_false, Qle_bool_iff.
  split; [apply Qnot_le_lt | apply Qlt_not_le].
Qed.

Lemma Qltb_ge x y : Qltb x y = false <-> (y <= x)%Q.
Proof.
  unfold Qltb. rewrite negb_false_iff, Qle_bool_iff. reflexivity.
Qed.

Lemma workload_ltb_trans a b c :
  workload_ltb a b = true -> workload_ltb b c = true -> workload_ltb a c = true.
Proof.
  destruct a as [x|], b as [y|], c as [z|]; cbn; try discriminate; auto.
  rewrite !Qltb_lt. apply Qlt_trans.
Qed.

Lemma workload_ltb_negtrans a b c :
  workload_ltb a b = false -> workload_ltb b c = false -> workload_ltb a c = false.
Proof.
  destruct a as [x|], b as [y|], c as [z|]; cbn; try discriminate; auto.
  rewrite !Qltb_ge. intros H1 H2. now apply Qle_trans with y.
Qed.

(** ** The scan of the single-ticket assigner: claim C6 *)

Lemma least_busy_loop_scan sc w technicians best lowest :
  (forall tid, calculate_technician_workload tid w = (Ok (sc tid), w)) ->
  least_busy_loop technicians best lowest w
  = (Ok (scan sc technicians best lowest), w).
Proof.
  intros Hsc. revert best lowest.
  induction technicians as [|t rest IH]; intros best lowest; cbn; [reflexivity|].
  unfold bind. rewrite Hsc.
  destruct (workload_ltb (sc (user_id t)) lowest); apply IH.
Qed.

(** The scan keeps the first technician whose score is the lowest: either
    nobody went below the initial bound, or the winner is at some position,
    below the bound, and strictly below everyone in front of it. *)
Lemma scan_spec sc l : forall b0 lo0 b lo,
  scan sc l b0 lo0 = (b, lo) ->
  workload_ltb lo0 lo = false
  /\ (forall t, In t l -> workload_ltb (sc (user_id t)) lo = false)
  /\ ((b = b0 /\ lo = lo0)
      \/ (exists l1 t l2,
             l = l1 ++ t :: l2 /\ b = Some t /\ lo = sc (user_id t)
             /\ workload_ltb lo lo0 = true
             /\ forall t', In t' l1 -> workload_ltb lo (sc (user_id t')) = true)).
Proof.
  induction l as [|x rest IH]; intros b0 lo0 b lo; cbn.
  - intros [= <- <-]. split; [|split].
    + destruct lo0; cbn; [unfold Qltb; rewrite negb_false_iff, Qle_bool_iff; apply Qle_refl | reflexivity].
    + intros t [].
    + now left.
  - destruct (workload_ltb (sc (user_id x)) lo0) eqn:Hx; intros Hscan;
      destruct (IH _ _ _ _ Hscan) as (Hle & Hall & Hwin).
    + assert (Hlo : workload_ltb lo lo0 = true).
      { destruct Hwin as [[_ ->] | (l1 & t & l2 & _ & _ & _ & Hlt & _)];
          [exact Hx | exact (workload_ltb_trans _ _ _ Hlt Hx)]. }
      split; [|split].
      * destruct (workload_ltb lo0 lo) eqn:E; [|reflexivity].
        rewrite (workload_ltb_trans _ _ _ Hx E) in Hle. discriminate.
      * intros t [<-|Hin]; [exact Hle | now apply Hall].
      * right.
        destruct Hwin as [[-> ->] | (l1 & t & l2 & -> & -> & -> & Hlt & Hfront)].
        -- exists [], x, rest. repeat split; auto; intros t' [].
        -- exists (x :: l1), t, l2. repeat split; auto.
           intros t' [<-|Hin]; [exact Hlt | now apply Hfront].
    + split; [exact Hle|]. split.
      * intros t [<-|Hin]; [|now apply Hall].
        exact (workload_ltb_negtrans _ _ _ Hx Hle).
      * destruct Hwin as [[-> ->] | (l1 & t & l2 & -> & -> & -> & Hlt & Hfront)];
          [now left | right].
        exists (x :: l1), t, l2. repeat split; auto.
        intros t' [<-|Hin]; [|now apply Hfront].
        destruct (workload_ltb (sc (user_id t)) (sc (user_id x))) eqn:E;
          [reflexivity|].
        rewrite (workload_ltb_negtrans _ _ _ E Hx) in Hlt. discriminate.
Qed.

Lemma fault_free_available priority w :
  faults w = [] ->
  get_available_technicians priority w
  = (Ok (select_technicians (roles_for priority) (db w)), w).
Proof.
  intros Hf. unfold get_available_technicians, roles_for, try_except.
  destruct (String.eqb priority "high"); rewrite fault_free_select by assumption;
    reflexivity.
Qed.

Lemma fault_free_score w tid :
  faults w = [] ->
  calculate_technician_workload tid w = (Ok (code_score w tid), w)
  /\ exists s, code_score w tid = Fin s
               /\ (s == Spec.score (db w) (clock w) tid)%Q.
Proof.
  intros Hf.
  assert (Hok : hd false (faults w) = false) by now rewrite Hf.
  destruct (calculate_technician_workload_run tid w Hok) as (s & Hrun & Hs & _).
  assert (Hw : mkWorld (db w) (clock w) (tl (faults w)) = w).
  { destruct w as [d now fs]. cbn in *. now subst fs. }
  rewrite Hw in Hrun. unfold code_score. rewrite Hrun. cbn.
  split; [reflexivity|]. exists s. auto.
Qed.

Lemma sorted_from_position {A} (R : A -> A -> Prop) l1 t l2 :
  StronglySorted R (l1 ++ t :: l2) -> Forall (R t) l2.
Proof.
  induction l1 as [|x l1 IH]; cbn; intros Hs.
  - now apply StronglySorted_inv in Hs.
  - apply StronglySorted_inv in Hs. now apply IH.
Qed.



Example tie_goes_to_alice :
  fst (find_least_busy_technician "medium"
         (mkWorld (store [ticket 1 "medium" "new" None]) 5000 []))
  = Ok (Some alice, Some (Fin 0)).
Proof. reflexivity. Qed.

(** ** The batch distributor: claims C9 and C1 *)

Lemma workload_ltb_irrefl a : workload_ltb a a = false.
Proof.
  destruct a as [x|]; cbn; [|reflexivity].
  apply Qltb_ge, Qle_refl.
Qed.

(** [min] returns the first element whose key is smallest: nothing is
    below it, and everything in front of it is strictly above it. *)
Lemma min_from_spec {A} (key : A -> workload) l : forall best,
  exists l1 l2,
    best :: l = l1 ++ min_from key best l :: l2
    /\ (forall x, In x l1 -> workload_ltb (key (min_from key best l)) (key x) = true)
    /\ (forall x, In x (best :: l) ->
          workload_ltb (key x) (key (min_from key best l)) = false).
Proof.
  induction l as [|y l IH]; intros best; cbn [min_from].
  - exists [], []. split; [reflexivity|]. split; [intros x []|].
    intros x [<-|[]]. apply workload_ltb_irrefl.
  - destruct (workload_ltb (key y) (key best)) eqn:Hy.
    + destruct (IH y) as (l1 & l2 & Hsplit & Hfront & Hall).
      set (r := min_from key y l) in *.
      assert (Hry : workload_ltb (key y) (key r) = false)
        by (apply Hall; now left).
      assert (Hrb : workload_ltb (key r) (key best) = true).
      { destruct (workload_ltb (key r) (key best)) eqn:E; [reflexivity|].
        rewrite (workload_ltb_negtrans _ _ _ Hry E) in Hy. discriminate. }
      exists (best :: l1), l2. split; [cbn; now rewrite Hsplit|]. split.
      * intros x [<-|Hx]; [exact Hrb | now apply Hfront].
      * intros x [<-|Hx]; [|now apply Hall].
        destruct (workload_ltb (key best) (key r)) eqn:E; [|reflexivity].
        rewrite (workload_ltb_trans _ _ _ Hy E) in Hry. discriminate.
    + destruct (IH best) as (l1 & l2 & Hsplit & Hfront & Hall).
      set (r := min_from key best l) in *.
      destruct l1 as [|b l1]; cbn in Hsplit.
      * injection Hsplit as Hr Hl. exists [], (y :: l2).
        split; [cbn; rewrite <- Hr, Hl; reflexivity|]. split; [intros x []|].
        intros x [<-|[<-|Hx]].
        -- rewrite <- Hr. apply workload_ltb_irrefl.
        -- rewrite <- Hr. exact Hy.
        -- apply Hall. now right.
      * injection Hsplit as Hb Hl. subst b.
        assert (Hrb : workload_ltb (key r) (key best) = true)
          by (apply Hfront; now left).
        exists (best :: y :: l1), l2.
        split; [cbn; rewrite Hl; reflexivity|]. split.
        -- intros x [<-|[<-|Hx]]; [exact Hrb | | apply Hfront; now right].
           destruct (workload_ltb (key r) (key y)) eqn:E; [reflexivity|].
           pose proof (workload_ltb_negtrans _ _ _ E Hy) as Hn.
           rewrite Hn in Hrb. discriminate.
        -- intros x [<-|[<-|Hx]].
           ++ apply Hall. now left.
           ++ destruct (workload_ltb (key y) (key r)) eqn:E; [|reflexivity].
              rewrite (workload_ltb_trans _ _ _ E Hrb) in Hy. discriminate.
           ++ apply Hall. now right.
Qed.

Lemma lookup_In_keys tid tw : In tid (keys tw) -> exists e, lookup tid tw = Some e.
Proof.
  induction tw as [|[k e] tw IH]; cbn; [intros []|].
  destruct (k =? tid) eqn:E; [eauto|].
  intros [Hk|Hin]; [apply Z.eqb_neq in E; contradiction | now apply IH].
Qed.

Lemma keys_add_assignment tid tw : keys (add_assignment tid tw) = keys tw.
Proof.
  induction tw as [|[k e] tw IH]; cbn; [reflexivity|].
  destruct (k =? tid); cbn; [reflexivity | f_equal; exact IH].
Qed.

Lemma lookup_add_assignment best tid tw :
  lookup tid (add_assignment best tw)
  = if tid =? best
    then option_map (fun e => mkEntry (technician e) (current_workload e)
                                      (new_assignments e + 1))
                    (lookup tid tw)
    else lookup tid tw.
Proof.
  induction tw as [|[k e] tw IH]; cbn.
  - now destruct (tid =? best).
  - destruct (k =? best) eqn:Ekb; cbn.
    + apply Z.eqb_eq in Ekb. subst k.
      destruct (best =? tid) eqn:E.
      * apply Z.eqb_eq in E. subst tid. now rewrite Z.eqb_refl.
      * rewrite Z.eqb_sym, E. reflexivity.
    + destruct (k =? tid) eqn:Ekt.
      * apply Z.eqb_eq in Ekt. subst k. now rewrite Ekb.
      * exact IH.
Qed.

Lemma pending_add_assignment best tid tw :
  In best (keys tw) ->
  pending_count (add_assignment best tw) tid
  = pending_count tw tid + (if tid =? best then 1 else 0).
Proof.
  intros Hin. unfold pending_count. rewrite lookup_add_assignment.
  destruct (tid =? best) eqn:E; [|lia].
  apply Z.eqb_eq in E. subst tid.
  destruct (lookup_In_keys _ _ Hin) as (e & ->). reflexivity.
Qed.

Lemma snapshot_add_assignment best tid tw :
  snapshot_score (add_assignment best tw) tid = snapshot_score tw tid.
Proof.
  unfold snapshot_score. rewrite lookup_add_assignment.
  destruct (tid =? best); [|reflexivity].
  now destruct (lookup tid tw).
Qed.

Lemma py_min_selects tw :
  batch_inv tw ->
  exists best, py_min (total_workload tw) (keys tw) = Some best /\ selects tw best.
Proof.
  intros [Hne Hsorted].
  destruct (keys tw) as [|k ks] eqn:Hkeys.
  { destruct tw; [congruence | discriminate]. }
  cbn [py_min].
  destruct (min_from_spec (total_workload tw) ks k) as (l1 & l2 & Hsplit & Hfront & Hall).
  set (best := min_from (total_workload tw) k ks) in *.
  exists best. split; [reflexivity|]. unfold selects. rewrite Hkeys. split.
  - rewrite Hsplit. apply in_or_app. right. now left.
  - intros tid Htid. split; [now apply Hall|].
    intros Htie. rewrite Hsplit in Htid, Hsorted.
    apply in_app_or in Htid. destruct Htid as [Htid | [<- | Htid]].
    + rewrite (Hfront tid Htid) in Htie. discriminate.
    + lia.
    + apply sorted_from_position in Hsorted.
      rewrite Forall_forall in Hsorted. exact (Hsorted tid Htid).
Qed.

Lemma sorted_drop_middle {A} (R : A -> A -> Prop) l1 x l2 :
  StronglySorted R (l1 ++ x :: l2) -> StronglySorted R (l1 ++ l2).
Proof.
  induction l1 as [|y l1 IH]; cbn; intros Hs; apply StronglySorted_inv in Hs.
  - tauto.
  - destruct Hs as [Hs Hall]. constructor; [now apply IH|].
    rewrite Forall_app in *. destruct Hall as [H1 H2].
    apply Forall_inv_tail in H2. auto.
Qed.

Lemma keys_dict_set tid e tw :
  (In tid (keys tw) /\ keys (dict_set tid e tw) = keys tw)
  \/ keys (dict_set tid e tw) = keys tw ++ [tid].
Proof.
  induction tw as [|[k e'] tw IH]; cbn; [now right|].
  destruct (k =? tid) eqn:E; cbn.
  - apply Z.eqb_eq in E. left. auto.
  - destruct IH as [[Hin Hk] | Hk].
    + left. split; [now right | f_equal; exact Hk].
    + right. f_equal. exact Hk.
Qed.

Lemma lookup_dict_set t tid e tw :
  lookup t (dict_set tid e tw) = if t =? tid then Some e else lookup t tw.
Proof.
  induction tw as [|[k e'] tw IH]; cbn.
  - rewrite (Z.eqb_sym tid t). reflexivity.
  - destruct (k =? tid) eqn:Ek; cbn.
    + apply Z.eqb_eq in Ek. subst k. rewrite (Z.eqb_sym tid t).
      now destruct (t =? tid).
    + destruct (k =? t) eqn:Ekt; [|exact IH].
      apply Z.eqb_eq in Ekt. subst k. now rewrite Ek.
Qed.

(** The scorer never raises and leaves the tables and the clock alone. *)
Lemma calculate_never_raises tid w :
  exists s w', calculate_technician_workload tid w = (Ok s, w')
               /\ db w' = db w /\ clock w' = clock w.
Proof.
  unfold calculate_technician_workload, try_except, select, cursor_execute.
  unfold bind at 1. unfold bind at 1.
  destruct (faults w) as [|[|] fs]; cbn.
  - destruct (select_active_requests tid (db w)); cbn.
    + do 2 eexists. repeat split; reflexivity.
    + unfold bind, datetime_now. rewrite workload_loop_run.
      do 2 eexists. repeat split; reflexivity.
  - do 2 eexists. repeat split; reflexivity.
  - destruct (select_active_requests tid (db w)); cbn.
    + do 2 eexists. repeat split; reflexivity.
    + unfold bind, datetime_now. rewrite workload_loop_run.
      do 2 eexists. repeat split; reflexivity.
Qed.

(** Building the dict: one entry per technician, no assignment yet, keys in
    the order of the directory. *)
Lemma init_workloads_run technicians : forall tw w,
  StronglySorted Z.le (keys tw ++ map user_id technicians) ->
  (forall tid, pending_count tw tid = 0) ->
  exists tw' w',
    init_workloads technicians tw w = (Ok tw', w')
    /\ db w' = db w /\ clock w' = clock w
    /\ StronglySorted Z.le (keys tw')
    /\ (forall tid, pending_count tw' tid = 0)
    /\ (forall tid, In tid (keys tw')
                    <-> In tid (keys tw) \/ In tid (map user_id technicians)).
Proof.
  induction technicians as [|t rest IH]; intros tw w Hsorted Hzero; cbn.
  - exists tw, w. rewrite app_nil_r in Hsorted. repeat split; auto; tauto.
  - unfold bind.
    destruct (calculate_never_raises (user_id t) w) as (s & w1 & -> & Hdb & Hclock).
    set (tw1 := dict_set (user_id t) (mkEntry t s 0) tw).
    assert (Hkeys : (In (user_id t) (keys tw) /\ keys tw1 = keys tw)
                    \/ keys tw1 = keys tw ++ [user_id t])
      by apply keys_dict_set.
    destruct (IH tw1 w1) as (tw' & w' & Hrun & Hdb' & Hclock' & Hs' & Hz' & Hk').
    + cbn in Hsorted. destruct Hkeys as [[_ ->] | ->].
      * now apply sorted_drop_middle in Hsorted.
      * now rewrite <- app_assoc.
    + intros tid. unfold pending_count, tw1. rewrite lookup_dict_set.
      destruct (tid =? user_id t); [reflexivity | apply Hzero].
    + exists tw', w'. split; [exact Hrun|].
      repeat split; try congruence; auto.
      * intros Hin. apply Hk' in Hin. destruct Hin as [Hin|Hin]; [|cbn; tauto].
        destruct Hkeys as [[_ Hk] | Hk]; rewrite Hk in Hin; [tauto|].
        apply in_app_or in Hin. cbn in *. tauto.
      * intros Hin. apply Hk'.
        destruct Hkeys as [[Hold Hk] | Hk]; rewrite Hk.
        -- cbn in Hin. destruct Hin as [Hin | [<- | Hin]]; auto.
        -- rewrite in_app_iff. cbn in *. tauto.
Qed.

Lemma sorted_map_user_id l :
  StronglySorted by_id_le l -> StronglySorted Z.le (map user_id l).
Proof.
  induction 1 as [|x l _ IH Hall]; cbn; constructor; [exact IH|].
  rewrite Forall_map. exact Hall.
Qed.

Lemma init_workloads_inv technicians w :
  technicians <> [] -> StronglySorted by_id_le technicians ->
  exists tw w',
    init_workloads technicians [] w = (Ok tw, w')
    /\ db w' = db w
    /\ batch_inv tw
    /\ (forall tid, pending_count tw tid = 0)
    /\ (forall tid, In tid (keys tw) <-> In tid (map user_id technicians)).
Proof.
  intros Hne Hsorted.
  destruct (init_workloads_run technicians [] w)
    as (tw & w' & Hrun & Hdb & _ & Hs & Hz & Hk).
  - cbn. now apply sorted_map_user_id.
  - reflexivity.
  - exists tw, w'. repeat split; auto.
    + intros ->. destruct technicians as [|t rest]; [congruence|].
      destruct (proj2 (Hk (user_id t))); cbn; auto.
    + intros Hin. apply Hk in Hin. cbn in Hin. tauto.
    + intros Hin. apply Hk. now right.
Qed.

Lemma sort_key_lt_cases x y :
  (sort_key_lt x y = true ->
   priority_rank (priority x) < priority_rank (priority y)
   \/ (priority_rank (priority x) = priority_rank (priority y)
       /\ created_at x < created_at y))
  /\ (sort_key_lt x y = false -> key_le y x).
Proof.
  unfold sort_key_lt, key_le.
  destruct (priority_rank (priority x) =? priority_rank (priority y)) eqn:E;
    cbn [negb].
  - apply Z.eqb_eq in E. rewrite Z.ltb_lt, Z.ltb_ge. lia.
  - apply Z.eqb_neq in E. rewrite Z.ltb_lt, Z.ltb_ge. lia.
Qed.

Lemma sorted_requests_sorted reqs :
  Permutation (sorted_requests reqs) reqs
  /\ StronglySorted key_le (sorted_requests reqs).
Proof.
  split; [apply sort_by_perm|].
  apply sort_by_sorted.
  - unfold key_le. intros x y z. lia.
  - intros x y H. apply sort_key_lt_cases in H. unfold key_le. lia.
  - intros x y H. now apply sort_key_lt_cases in H.
Qed.


Lemma assign_step_spec tw count failed request w :
  batch_inv tw ->
  exists st' w',
    assign_step (tw, count, failed) request w = (Ok st', w')
    /\ batch_inv (fst (fst st'))
    /\ step_spec tw count failed request w st' w'.
Proof.
  intros Hinv.
  destruct (py_min_selects tw Hinv) as (best & Hmin & Hsel).
  destruct (lookup_In_keys best tw (proj1 Hsel)) as (e & He).
  unfold assign_step. rewrite Hmin, He.
  destruct (String.eqb (priority request) "high"
            && negb (String.eqb (platform_role (technician e)) "super_admin")) eqn:Hguard.
  - apply andb_true_iff in Hguard. destruct Hguard as [Hhigh Hrole].
    apply String.eqb_eq in Hhigh. apply negb_true_iff, String.eqb_neq in Hrole.
    eexists. exists w. split; [reflexivity|]. split; [exact Hinv|].
    exists best, e. repeat (split; [assumption|]). right. right. auto.
  - unfold bind.
    destruct (update_status_outcome (request_id request) "assigned" (Some best)
                (Some (priority request)) false w) as (b & w' & Hrun & _).
    rewrite Hrun. destruct b; cbn.
    + eexists. exists w'. split; [reflexivity|]. cbn [fst snd]. split.
      * destruct Hinv as [Hne Hs]. split.
        -- intros Hnil. apply (f_equal keys) in Hnil.
           rewrite keys_add_assignment in Hnil. destruct tw; [congruence|discriminate].
        -- now rewrite keys_add_assignment.
      * exists best, e. repeat (split; [assumption|]). left. cbn [fst snd].
        split; [exact Hrun|]. split; [reflexivity|].
        split; [apply keys_add_assignment|]. split.
        -- intros tid. apply pending_add_assignment. exact (proj1 Hsel).
        -- intros tid. apply snapshot_add_assignment.
    + eexists. exists w'. split; [reflexivity|]. split; [exact Hinv|].
      exists best, e. repeat (split; [assumption|]). right. left. auto.
Qed.

Lemma total_pending_add best tw :
  In best (keys tw) -> total_pending (add_assignment best tw) = total_pending tw + 1.
Proof.
  induction tw as [|[k e] tw IH]; cbn; [intros []|].
  destruct (k =? best) eqn:E; cbn.
  - lia.
  - intros [Hk|Hin]; [apply Z.eqb_neq in E; contradiction|].
    specialize (IH Hin). unfold total_pending in IH. lia.
Qed.

(** The loop never raises; every ticket ends either counted as assigned or
    in the failure list, and the pending counts add up to the number of
    tickets assigned. *)
Lemma assign_loop_run reqs : forall tw count failed w,
  batch_inv tw ->
  exists tw' count' failed' w',
    assign_loop reqs (tw, count, failed) w = (Ok (tw', count', failed'), w')
    /\ batch_inv tw'
    /\ keys tw' = keys tw
    /\ count <= count'
    /\ count' - count = total_pending tw' - total_pending tw
    /\ (count' - count) + Z.of_nat (List.length failed')
       = Z.of_nat (List.length reqs) + Z.of_nat (List.length failed).
Proof.
  induction reqs as [|request rest IH]; intros tw count failed w Hinv.
  - exists tw, count, failed, w. cbn. repeat split; try apply Hinv; lia.
  - cbn [assign_loop]. unfold bind.
    destruct (assign_step_spec tw count failed request w Hinv)
      as ([[tw1 count1] failed1] & w1 & Hstep & Hinv1 & Hspec).
    rewrite Hstep. cbn [fst snd] in Hinv1.
    destruct (IH tw1 count1 failed1 w1 Hinv1)
      as (tw' & count' & failed' & w' & Hrun & Hinv' & Hkeys & Hle & Hsum & Hlen).
    exists tw', count', failed', w'. split; [exact Hrun|]. split; [exact Hinv'|].
    destruct Hspec as (best & e & _ & Hsel & _ & Hcases).
    assert (Hstep_facts :
              keys tw1 = keys tw
              /\ count <= count1
              /\ count1 - count = total_pending tw1 - total_pending tw
              /\ (count1 - count) + Z.of_nat (List.length failed1)
                 = 1 + Z.of_nat (List.length failed)).
    { destruct Hcases as [(_ & Hst & _) | [(_ & Hst) | (_ & _ & _ & Hst)]];
        injection Hst as -> -> ->.
      - rewrite keys_add_assignment, (total_pending_add _ _ (proj1 Hsel)).
        repeat split; lia.
      - rewrite length_app. cbn [List.length]. repeat split; lia.
      - rewrite length_app. cbn [List.length]. repeat split; lia. }
    destruct Hstep_facts as (Hk1 & Hle1 & Hsum1 & Hlen1).
    split; [congruence|]. cbn [List.length]. repeat split; lia.
Qed.

(** The run of the distributor: the directory is read once; with nobody in
    it every ticket fails; otherwise the dict is built once and the loop goes
    through the sorted backlog.  It never raises. *)
Lemma bulk_auto_assign_balanced_run reqs w :
  exists technicians w1,
    get_available_technicians "medium" w = (Ok technicians, w1)
    /\ ((technicians = []
         /\ bulk_auto_assign_balanced reqs w
            = (Ok (0, map (fun req => (request_id req, "No available technicians found"))
                          reqs), w1))
        \/ (exists tw w2 tw' count failed w3,
              init_workloads technicians [] w1 = (Ok tw, w2)
              /\ batch_inv tw
              /\ (forall tid, pending_count tw tid = 0)
              /\ assign_loop (sorted_requests reqs) (tw, 0, []) w2
                 = (Ok (tw', count, failed), w3)
              /\ bulk_auto_assign_balanced reqs w = (Ok (count, failed), w3)
              /\ 0 <= count
              /\ count = total_pending tw' - total_pending tw
              /\ count + Z.of_nat (List.length failed) = Z.of_nat (List.length reqs))).
Proof.
  assert (Hshape : exists technicians w1,
             get_available_technicians "medium" w = (Ok technicians, w1)
             /\ StronglySorted by_id_le technicians).
  { destruct (get_available_technicians_run "medium" w) as (w1 & _ & _ & [Hrun|Hrun]);
      do 2 eexists; (split; [exact Hrun|]);
      [apply select_technicians_sorted | constructor]. }
  destruct Hshape as (technicians & w1 & Hrun & Hsorted).
  exists technicians, w1. split; [exact Hrun|].
  destruct technicians as [|t rest]; [left | right].
  { split; [reflexivity|].
    unfold bulk_auto_assign_balanced, try_except. unfold bind at 1.
    rewrite Hrun. reflexivity. }
  destruct (init_workloads_inv (t :: rest) w1 ltac:(discriminate) Hsorted)
    as (tw & w2 & Hinit & _ & Hinv & Hzero & _).
  destruct (assign_loop_run (sorted_requests reqs) tw 0 [] w2 Hinv)
    as (tw' & count & failed & w3 & Hloop & _ & _ & Hle & Hsum & Hlen).
  exists tw, w2, tw', count, failed, w3.
  split; [exact Hinit|]. split; [exact Hinv|]. split; [exact Hzero|].
  split; [exact Hloop|]. split.
  - unfold bulk_auto_assign_balanced, try_except, bind.
    rewrite Hrun, Hinit, Hloop. reflexivity.
  - rewrite (Permutation_length (proj1 (sorted_requests_sorted reqs))) in Hlen.
    cbn [List.length] in Hlen. repeat split; lia.
Qed.

(** The distributor always returns, and every ticket of the backlog is
    either counted as assigned or listed as failed. *)
Lemma bulk_auto_assign_balanced_total reqs w :
  exists count failed w',
    bulk_auto_assign_balanced reqs w = (Ok (count, failed), w')
    /\ 0 <= count
    /\ count + Z.of_nat (List.length failed) = Z.of_nat (List.length reqs).
Proof.
  destruct (bulk_auto_assign_balanced_run reqs w)
    as (technicians & w1 & _ & [[_ Hrun] | Hrun]).
  - do 3 eexists. split; [exact Hrun|]. rewrite length_map. lia.
  - destruct Hrun as (tw & w2 & tw' & count & failed & w3 & _ & _ & _ & _
                      & Hrun & Hle & _ & Hlen).
    exists count, failed, w3. auto.
Qed.


(** The backlog of the fifth scenario of the specification, and two idle
    technicians: the tickets go to [alice] and [sam] in turn. *)
Example batch_scenario :
  let reqs := [ mkRequest 11 9 "a" "urgent" "new" None 1 None None;
                mkRequest 12 9 "b" "urgent" "new" None 2 None None;
                mkRequest 13 9 "c" "medium" "new" None 3 None None;
                mkRequest 14 9 "d" "low" "new" None 4 None None ] in
  let r := bulk_auto_assign_balanced reqs (mkWorld (store reqs) 5000 []) in
  sorted_requests reqs = reqs
  /\ fst r = Ok (4, [])
  /\ map (fun t => (request_id t, assigned_to t)) (help_requests (db (snd r)))
     = [(11, Some 1); (12, Some 2); (13, Some 1); (14, Some 2)].
Proof. repeat split; reflexivity. Qed.

(** C1 (evaluation of the code at the failing input).  The claim: for a
    [high] ticket the candidates are the super admins, and "No super admin
    available" is recorded only when there is none.  The code takes the
    least loaded technician of the whole pool and only then looks at the
    role: with [alice] (support technician, id 1) and [sam] (active super
    admin, id 2) both idle, the least loaded is [alice], and the high ticket
    is recorded as failed for lack of a super admin although [sam] is in the
    pool.  The single-ticket path, which asks the directory for the
    ["high"] pool, assigns the same ticket to [sam]. *)
Example C1_high_ticket_fails_with_a_super_admin_in_the_pool :
  let reqs := [ticket 1 "high" "new" None] in
  let w := mkWorld (store reqs) 5000 [] in
  fst (get_available_technicians "medium" w) = Ok [alice; sam]
  /\ fst (get_available_technicians "high" w) = Ok [sam]
  /\ platform_role sam = "super_admin"
  /\ account_status sam = "active"
  /\ fst (bulk_auto_assign_balanced reqs w)
     = Ok (0, [(1, "No super admin available for high priority request")])
  /\ help_requests (db (snd (bulk_auto_assign_balanced reqs w))) = reqs
  /\ fst (auto_assign_request 1 "high" w) = Ok (true, Some 2, "Auto-assigned to Sam Stone").
Proof. repeat split; reflexivity. Qed.

(** * Further properties of the code *)

(** ** The transition *)

Lemma validate_accepts current_status new_status :
  validate_status_transition current_status new_status = None ->
  new_status = current_status
  \/ In new_status (get_valid_status_transitions current_status).
Proof.
  unfold validate_status_transition, is_valid_status_transition.
  destruct (String.eqb_spec current_status new_status) as [E|_]; [auto|].
  destruct (str_in new_status (get_valid_status_transitions current_status)) eqn:Hin.
  - intros _. right. now apply str_in_iff.
  - cbn [negb]. destruct (String.eqb current_status "solved"); discriminate.
Qed.

Lemma valid_targets_are_statuses current_status s :
  In s (get_valid_status_transitions current_status) -> In s HELP_REQUEST_STATUSES.
Proof.
  unfold get_valid_status_transitions, status_transitions, HELP_REQUEST_STATUSES.
  cbn [dict_get].
  repeat match goal with
         | |- context [String.eqb ?a ?b] => destruct (String.eqb a b)
         end; cbn; tauto.
Qed.

Lemma set_fields_identity now fields : forall t,
  request_id (fold_left (set_field now) fields t) = request_id t
  /\ owner_id (fold_left (set_field now) fields t) = owner_id t
  /\ title (fold_left (set_field now) fields t) = title t
  /\ created_at (fold_left (set_field now) fields t) = created_at t.
Proof.
  induction fields as [|f fields IH]; intros t; cbn [fold_left]; [auto|].
  destruct (IH (set_field now t f)) as (-> & -> & -> & ->).
  destruct f; cbn; auto.
Qed.

Lemma update_rows_same_ticket fields rid now rows :
  Forall2 (same_ticket rid) rows (update_rows fields rid now rows).
Proof.
  unfold update_rows. induction rows as [|t rows IH]; cbn [map]; constructor; [|exact IH].
  unfold same_ticket. destruct (request_id t =? rid) eqn:E.
  - destruct (set_fields_identity now fields t) as (-> & -> & -> & ->).
    apply Z.eqb_eq in E. repeat split; auto. intros Hne. contradiction.
  - repeat split; auto.
Qed.

Lemma Forall2_same_ticket_refl rid rows : Forall2 (same_ticket rid) rows rows.
Proof.
  induction rows; constructor; [|assumption].
  unfold same_ticket. repeat split; auto.
Qed.

(** X1.  A transition never touches another ticket, never adds or removes
    a ticket, never changes the id, the owner, the title or the creation
    time of the ticket it is aimed at, and never changes the users. *)
Theorem transition_frame rid st a p bypass w :
  Forall2 (same_ticket rid)
          (help_requests (db w))
          (help_requests (db (snd (update_help_request_status rid st a p bypass w))))
  /\ users (db (snd (update_help_request_status rid st a p bypass w))) = users (db w).
Proof.
  destruct (update_status_outcome rid st a p bypass w)
    as (b & w' & -> & _ & Husers & [[_ Hsame] | [_ Hupd]]); cbn [snd].
  - split; [|exact Husers]. rewrite Hsame. apply Forall2_same_ticket_refl.
  - split; [|exact Husers]. rewrite Hupd. apply update_rows_same_ticket.
Qed.

(** X2.  Without [bypass_validation], whatever string is passed as the
    target status, a table of tickets whose statuses are all among
    [HELP_REQUEST_STATUSES] stays so: a transition cannot store an unknown
    status. *)
Theorem transition_keeps_statuses_known rid st a p w :
  Forall known_status (help_requests (db w)) ->
  Forall known_status
         (help_requests (db (snd (update_help_request_status rid st a p false w)))).
Proof.
  intros Hknown.
  destruct (update_status_outcome rid st a p false w)
    as (b & w' & -> & _ & _ & [[_ Hsame] | [(info & Hinfo & Hpass) Hupd]]);
    cbn [snd].
  - now rewrite Hsame.
  - rewrite Hupd. rewrite Forall_forall in *. intros t' Hin.
    apply update_rows_In in Hin. destruct Hin as (t & Ht & ->).
    destruct (request_id t =? rid); [|now apply Hknown].
    fold (applied st a p (clock w) t). unfold known_status.
    destruct (applied_fields st a p (clock w) t) as (_ & -> & _).
    destruct Hpass as [Hb|Hv]; [discriminate|].
    apply fetchone_In, select_request_info_In in Hinfo.
    destruct Hinfo as (t0 & Ht0 & _ & Hst & _).
    apply validate_accepts in Hv. destruct Hv as [-> | Hv].
    + rewrite Hst. exact (Hknown t0 Ht0).
    + exact (valid_targets_are_statuses _ _ Hv).
Qed.

Lemma transition_keeps_statuses_known_witness :
  Forall known_status
         (help_requests
            (db (snd (update_help_request_status 4 "archived" None None false busy_world)))).
Proof.
  apply (transition_keeps_statuses_known 4 "archived" None None busy_world).
  repeat constructor; unfold known_status; cbn; tauto.
Defined.

(** X3.  When no ticket with this id can be joined with its owner (there is
    no such ticket, or its owner is not among the users), the transition
    reports failure and leaves the whole store as it was, with or without
    [bypass_validation]. *)
Theorem transition_on_missing_ticket rid st a p bypass w :
  no_joined_ticket (db w) rid ->
  fst (update_help_request_status rid st a p bypass w) = Ok false
  /\ db (snd (update_help_request_status rid st a p bypass w)) = db w.
Proof.
  intros Hno.
  assert (Hempty : select_request_info rid (db w) = []).
  { destruct (select_request_info rid (db w)) as [|info l] eqn:E; [reflexivity|].
    exfalso.
    assert (Hin : In info (select_request_info rid (db w))) by (rewrite E; now left).
    unfold select_request_info in Hin. rewrite in_flat_map in Hin.
    destruct Hin as (t & Ht & Hinfo).
    apply filter_In in Ht. destruct Ht as [Ht Hid]. apply Z.eqb_eq in Hid.
    apply in_map_iff in Hinfo. destruct Hinfo as (u & _ & Hu).
    apply filter_In in Hu. destruct Hu as [Hu Hown]. apply Z.eqb_eq in Hown.
    exact (Hno t u Ht Hid Hu (eq_sym Hown)). }
  unfold update_help_request_status, try_except, select, bind, cursor_execute.
  destruct (faults w) as [|[|] fs]; cbn; try rewrite Hempty; cbn; auto.
Qed.

Lemma transition_on_missing_ticket_witness :
  fst (update_help_request_status 77 "assigned" (Some 1) None true busy_world) = Ok false
  /\ db (snd (update_help_request_status 77 "assigned" (Some 1) None true busy_world))
     = db busy_world.
Proof.
  apply (transition_on_missing_ticket 77 "assigned" (Some 1) None true busy_world).
  intros t u Ht Hid. cbn in Ht.
  destruct Ht as [<-|[<-|[<-|[<-|[]]]]]; discriminate.
Defined.

(** X4.  In an accepted transition the priority is an optional argument:
    omitted, every matching ticket keeps the priority it had; given, it
    becomes the ticket's priority; in both cases the status becomes the
    target. *)
Theorem accepted_transition_priority rid st a p bypass w w' :
  update_help_request_status rid st a p bypass w = (Ok true, w') ->
  Forall2 (fun t t' =>
             request_id t = rid ->
             status t' = st
             /\ priority t' = match p with Some p' => p' | None => priority t end)
          (help_requests (db w)) (help_requests (db w')).
Proof.
  intros Hrun.
  destruct (update_status_outcome rid st a p bypass w)
    as (b & w1 & Hrun' & _ & _ & [[Hb _] | [_ Hrows]]);
    rewrite Hrun in Hrun'; injection Hrun' as <- <-; [discriminate|].
  rewrite Hrows. clear Hrows Hrun. unfold update_rows.
  generalize (help_requests (db w)) as rows.
  induction rows as [|t rows IH]; cbn [map]; constructor; [|exact IH].
  intros Hid. apply Z.eqb_eq in Hid. rewrite Hid.
  fold (applied st a p (clock w) t).
  destruct (applied_fields st a p (clock w) t) as (_ & -> & _ & _ & -> & _). auto.
Qed.

Lemma accepted_transition_priority_witness :
  Forall2 (fun t t' =>
             request_id t = 4 ->
             status t' = "assigned" /\ priority t' = priority t)
          (help_requests (db busy_world))
          (help_requests
             (db (snd (update_help_request_status 4 "assigned" (Some 2) None false
                                                  busy_world)))).
Proof.
  apply (accepted_transition_priority 4 "assigned" (Some 2) None false busy_world).
  reflexivity.
Defined.

(** ** Code that cannot raise *)

Lemma nr_ret {A} (a : A) : never_raises (ret a).
Proof. intros w. discriminate. Qed.

Lemma nr_bind {A B} (m : M A) (k : A -> M B) :
  never_raises m -> (forall a, never_raises (k a)) -> never_raises (bind m k).
Proof.
  intros Hm Hk w. unfold bind. specialize (Hm w).
  destruct (m w) as [[a|] w1]; cbn in *; [apply Hk | congruence].
Qed.

Lemma nr_try_except {A} (m h : M A) : never_raises h -> never_raises (try_except m h).
Proof.
  intros Hh w. unfold try_except.
  destruct (m w) as [[a|] w1]; cbn; [discriminate | apply Hh].
Qed.

Lemma nr_try_pass {A} (m : M A) : never_raises (try_pass m).
Proof. unfold try_pass. apply nr_try_except, nr_ret. Qed.

(** Once the ticket is updated, a transition that names no assignee has no
    statement left that is not inside a [try]. *)
Lemma nr_notify_unassigned rid info st p : never_raises (notify_changes rid info st None p).
Proof.
  unfold notify_changes.
  repeat first
    [ apply nr_ret
    | apply nr_try_pass
    | match goal with
      | |- never_raises (if ?c then _ else _) => destruct c
      | |- never_raises (match ?x with Some _ => _ | None => _ end) => destruct x
      end
    | apply nr_bind; [|intros ?] ].
Qed.

(** X5.  The notifications are fire-and-forget.  A transition that names
    no assignee, aimed at a ticket that is found and passes validation,
    reports success as soon as its [SELECT] and its [UPDATE] have run,
    whatever happens to any statement after them. *)
Theorem notification_faults_do_not_fail_the_transition rid st p bypass d now fs info :
  fetchone (select_request_info rid d) = Some info ->
  passes_validation bypass (old_status info) st ->
  fst (update_help_request_status rid st None p bypass
         (mkWorld d now (false :: false :: fs))) = Ok true.
Proof.
  intros Hinfo Hpass.
  unfold update_help_request_status, try_except.
  unfold bind at 1. unfold select, bind at 1, cursor_execute. cbn [faults db clock].
  rewrite Hinfo.
  assert (Hcond : negb bypass
                  && match validate_status_transition (old_status info) st with
                     | Some _ => true
                     | None => false
                     end = false).
  { destruct Hpass as [-> | ->]; [reflexivity | apply andb_false_r]. }
  rewrite Hcond.
  unfold bind at 1. unfold execute_update, modify, bind at 1, cursor_execute.
  cbn [faults db clock]. unfold bind.
  match goal with
  | |- context [notify_changes rid info st None p ?w3] =>
      pose proof (nr_notify_unassigned rid info st p w3) as Hnr;
      destruct (notify_changes rid info st None p w3) as [[[]|] w4]
  end; cbn in *; [reflexivity | congruence].
Qed.

(** Witness of X5: [alice]'s two tickets aside, ticket 3 is blocked and
    held by [sam]; solving it without naming an assignee succeeds although
    every statement after the [UPDATE] fails. *)
Lemma notification_faults_do_not_fail_the_transition_witness :
  fst (update_help_request_status 3 "solved" None None false
         (mkWorld busy_store 20000 [false; false; true; true; true])) = Ok true.
Proof.
  apply (notification_faults_do_not_fail_the_transition
           3 "solved" None false busy_store 20000 [true; true; true]
           (mkInfo 9 "Typo on page" "blocked" (Some 2) "low" "Olga" "Oak")).
  - reflexivity.
  - right. reflexivity.
Defined.

(** ** The notification sink *)

(** X6.  Without [force], a user who has notifications off, or who has no
    row at all, gets nothing: [create_noti] returns [None] and the store is
    as it was. *)
Theorem create_noti_respects_opt_out uid ttl cat rel w :
  hd false (faults w) = false ->
  opted_out (db w) uid ->
  fst (create_noti uid ttl cat rel false w) = Ok None
  /\ db (snd (create_noti uid ttl cat rel false w)) = db w.
Proof.
  intros Hok Hout. unfold opted_out in Hout.
  unfold create_noti, is_noti_enabled, select, bind, cursor_execute. cbn [negb].
  destruct (faults w) as [|[|] fs]; cbn in Hok; try discriminate; cbn;
    destruct (fetchone (filter (fun u => user_id u =? uid) (users (db w))));
    cbn; try rewrite Hout; cbn; auto.
Qed.

Lemma create_noti_respects_opt_out_witness :
  fst (create_noti 42 "Help Request Status Updated" "help_request" (Some 1) false
                   busy_world) = Ok None
  /\ db (snd (create_noti 42 "Help Request Status Updated" "help_request" (Some 1) false
                          busy_world)) = db busy_world.
Proof.
  apply (create_noti_respects_opt_out 42 "Help Request Status Updated" "help_request"
                                      (Some 1) busy_world); reflexivity.
Defined.

(** X7.  With [force] the preference of the user is not read and
    [create_noti] cannot raise: when the [INSERT] runs, one row is appended
    for the user, with the category normalised, whatever the user chose; when
    it fails, [None] is returned and the store is as it was. *)
Theorem create_noti_forced uid ttl cat rel d now fs :
  (exists noti_id,
      create_noti uid ttl cat rel true (mkWorld d now (false :: fs))
      = (Ok (Some noti_id),
         mkWorld (mkDb (users d) (help_requests d)
                       (notifications d ++ [mkNoti uid ttl (safe_category cat) rel]))
                 now fs))
  /\ create_noti uid ttl cat rel true (mkWorld d now (true :: fs))
     = (Ok None, mkWorld d now fs).
Proof.
  split; [eexists|];
    unfold create_noti, try_except, modify, bind, cursor_execute; cbn; reflexivity.
Qed.

(** ** Composing what operations may do to the store *)

Section Stability.
Variable R : database -> database -> Prop.
Hypothesis R_refl : forall d, R d d.
Hypothesis R_trans : forall d1 d2 d3, R d1 d2 -> R d2 d3 -> R d1 d3.

Lemma stable_ret {A} (a : A) : stable R (ret a).
Proof. intros w. apply R_refl. Qed.

Lemma stable_raise {A} : stable R (@raise A).
Proof. intros w. apply R_refl. Qed.

Lemma stable_bind {A B} (m : M A) (k : A -> M B) :
  stable R m -> (forall a, stable R (k a)) -> stable R (bind m k).
Proof.
  intros Hm Hk w. unfold bind. specialize (Hm w).
  destruct (m w) as [[a|] w1]; cbn in *; [|exact Hm].
  exact (R_trans _ _ _ Hm (Hk a w1)).
Qed.

Lemma stable_try_except {A} (m h : M A) :
  stable R m -> stable R h -> stable R (try_except m h).
Proof.
  intros Hm Hh w. unfold try_except. specialize (Hm w).
  destruct (m w) as [[a|] w1]; cbn in *; [exact Hm|].
  exact (R_trans _ _ _ Hm (Hh w1)).
Qed.

Lemma stable_try_pass {A} (m : M A) : stable R m -> stable R (try_pass m).
Proof.
  intros Hm. unfold try_pass. apply stable_try_except; [|apply stable_ret].
  apply stable_bind; [exact Hm | intros; apply stable_ret].
Qed.

Lemma stable_cursor_execute : stable R cursor_execute.
Proof.
  intros w. unfold cursor_execute.
  destruct (faults w) as [|b fs]; cbn; apply R_refl.
Qed.

Lemma stable_select {A} (q : database -> A) : stable R (select q).
Proof.
  unfold select. apply stable_bind; [apply stable_cursor_execute|].
  intros _ w. apply R_refl.
Qed.

Lemma stable_modify u :
  (forall now d, R d (u now d)) -> stable R (modify u).
Proof.
  intros Hu. unfold modify. apply stable_bind; [apply stable_cursor_execute|].
  intros _ w. cbn. apply Hu.
Qed.

Lemma stable_datetime_now : stable R datetime_now.
Proof. intros w. apply R_refl. Qed.

Lemma stable_workload_loop requests acc : stable R (workload_loop requests acc).
Proof.
  intros w. rewrite workload_loop_run. apply R_refl.
Qed.

Lemma stable_get_available_technicians priority :
  stable R (get_available_technicians priority).
Proof.
  unfold get_available_technicians. apply stable_try_except; [|apply stable_ret].
  destruct (String.eqb priority "high"); apply stable_select.
Qed.

Lemma stable_get_technician_current_workload tid :
  stable R (get_technician_current_workload tid).
Proof.
  unfold get_technician_current_workload.
  apply stable_try_except; [apply stable_select | apply stable_ret].
Qed.

Lemma stable_calculate_technician_workload tid :
  stable R (calculate_technician_workload tid).
Proof.
  unfold calculate_technician_workload.
  apply stable_try_except; [|apply stable_ret].
  apply stable_bind; [apply stable_select|].
  intros [|r l]; [apply stable_ret|].
  apply stable_bind; [apply stable_workload_loop | intros; apply stable_ret].
Qed.

Lemma stable_least_busy_loop technicians : forall best lowest,
  stable R (least_busy_loop technicians best lowest).
Proof.
  induction technicians as [|t rest IH]; intros best lowest; cbn [least_busy_loop].
  - apply stable_ret.
  - apply stable_bind; [apply stable_calculate_technician_workload|].
    intros s. destruct (workload_ltb s lowest); apply IH.
Qed.

Lemma stable_find_least_busy_technician priority :
  stable R (find_least_busy_technician priority).
Proof.
  unfold find_least_busy_technician.
  apply stable_bind; [apply stable_get_available_technicians|].
  intros [|t rest]; [apply stable_ret|].
  apply stable_bind; [apply stable_least_busy_loop | intros; apply stable_ret].
Qed.

Lemma stable_simple_loop technicians : forall best lowest,
  stable R (simple_loop technicians best lowest).
Proof.
  induction technicians as [|t rest IH]; intros best lowest; cbn [simple_loop].
  - apply stable_ret.
  - apply stable_bind; [apply stable_get_technician_current_workload|].
    intros n. destruct (n <? lowest); apply IH.
Qed.

Lemma stable_init_workloads technicians : forall tw,
  stable R (init_workloads technicians tw).
Proof.
  induction technicians as [|t rest IH]; intros tw; cbn [init_workloads].
  - apply stable_ret.
  - apply stable_bind; [apply stable_calculate_technician_workload|].
    intros s. apply IH.
Qed.

End Stability.

(** ** The relation between the store before and after *)

Lemma frame_step_refl touched d : frame_step touched d d.
Proof.
  split; [reflexivity|]. split.
  - induction (help_requests d); constructor; auto 6.
  - exists []. rewrite app_nil_r. split; [reflexivity | constructor].
Qed.

Lemma frame_step_trans touched d1 d2 d3 :
  frame_step touched d1 d2 -> frame_step touched d2 d3 -> frame_step touched d1 d3.
Proof.
  intros (Hu1 & Ht1 & sent1 & Hn1 & Hs1) (Hu2 & Ht2 & sent2 & Hn2 & Hs2).
  split; [congruence|]. split.
  - revert Ht2. generalize (help_requests d3).
    induction Ht1 as [|t1 t2 l1 l2 (Ha & Hb & Hc & Hd & He) _ IH]; intros l3 Ht2;
      inversion Ht2 as [|? t3 ? l3' (Ha' & Hb' & Hc' & Hd' & He') Hrest]; subst;
      constructor; [|now apply IH].
    repeat split; try congruence.
    intros Hn. rewrite He', He; auto. now rewrite (He Hn).
  - exists (sent1 ++ sent2). split.
    + rewrite Hn2, Hn1, app_assoc. reflexivity.
    + apply Forall_app. auto.
Qed.

Lemma frame_step_mono (P Q : Z -> Prop) d d' :
  (forall rid, P rid -> Q rid) -> frame_step P d d' -> frame_step Q d d'.
Proof.
  intros HPQ (Hu & Ht & Hn). split; [exact Hu|]. split; [|exact Hn].
  eapply Forall2_impl; [|exact Ht].
  intros t t' (Ha & Hb & Hc & Hd & He). repeat split; auto.
Qed.

Lemma engine_step_refl touched d : engine_step touched d d.
Proof. split; [apply frame_step_refl | auto]. Qed.

Lemma engine_step_trans touched d1 d2 d3 :
  engine_step touched d1 d2 -> engine_step touched d2 d3 -> engine_step touched d1 d3.
Proof.
  intros [Hf1 Hk1] [Hf2 Hk2]. split; [now apply frame_step_trans with d2 | auto].
Qed.

Lemma engine_step_mono (P Q : Z -> Prop) d d' :
  (forall rid, P rid -> Q rid) -> engine_step P d d' -> engine_step Q d d'.
Proof.
  intros HPQ [Hf Hk]. split; [now apply frame_step_mono with P | exact Hk].
Qed.

Lemma safe_category_allowed category : In (safe_category category) allowed_categories.
Proof.
  unfold safe_category.
  destruct (String.eqb category "help_request"); [cbn; tauto|].
  destruct (str_in category allowed_categories) eqn:E; [|cbn; tauto].
  now apply str_in_iff.
Qed.

Lemma frame_create_noti touched uid ttl cat rel force :
  stable (frame_step touched) (create_noti uid ttl cat rel force).
Proof.
  pose proof (frame_step_refl touched) as Hrefl.
  pose proof (frame_step_trans touched) as Htrans.
  unfold create_noti. apply stable_bind; auto.
  - destruct (negb force); [|now apply stable_ret].
    apply stable_bind; auto; [|intros; now apply stable_ret].
    unfold is_noti_enabled. apply stable_bind; auto; [now apply stable_select|].
    intros rows. destruct (fetchone rows); now apply stable_ret.
  - intros [|]; [now apply stable_ret|].
    apply stable_try_except; auto; [|now apply stable_ret].
    apply stable_bind; auto.
    + apply stable_modify; auto. intros now d. split; [reflexivity|]. split.
      * cbn. induction (help_requests d); constructor; auto 6.
      * cbn. eexists. split; [reflexivity|].
        constructor; [apply safe_category_allowed | constructor].
    + intros _. apply stable_bind; auto; [|intros; now apply stable_ret].
      intros w. apply Hrefl.
Qed.

Lemma frame_notify_changes touched rid info st a p :
  stable (frame_step touched) (notify_changes rid info st a p).
Proof.
  pose proof (frame_step_refl touched) as Hrefl.
  pose proof (frame_step_trans touched) as Htrans.
  unfold notify_changes.
  repeat first
    [ now apply stable_ret
    | now apply stable_select
    | apply stable_try_pass; try assumption; apply frame_create_noti
    | match goal with
      | |- stable _ (if ?c then _ else _) => destruct c
      | |- stable _ (match ?x with Some _ => _ | None => _ end) => destruct x
      end
    | apply stable_bind; try assumption; [|intros ?] ].
Qed.

Lemma frame_execute_update fields rid :
  stable (frame_step (eq rid)) (execute_update fields rid).
Proof.
  unfold execute_update. apply stable_modify.
  - apply frame_step_refl.
  - apply frame_step_trans.
  - intros now d. split; [reflexivity|]. split.
    + cbn. eapply Forall2_impl; [|apply update_rows_same_ticket].
      intros t t' (Ha & Hb & Hc & Hd & He).
      repeat split; auto; intros Hne; apply He; congruence.
    + cbn. exists []. rewrite app_nil_r. split; [reflexivity | constructor].
Qed.

Lemma frame_update_help_request_status rid st a p bypass :
  stable (frame_step (eq rid)) (update_help_request_status rid st a p bypass).
Proof.
  pose proof (frame_step_refl (eq rid)) as Hrefl.
  pose proof (frame_step_trans (eq rid)) as Htrans.
  unfold update_help_request_status.
  apply stable_try_except; auto; [|now apply stable_ret].
  apply stable_bind; auto; [now apply stable_select|].
  intros rows. destruct (fetchone rows) as [info|]; [|now apply stable_ret].
  destruct (negb bypass && _); [now apply stable_ret|].
  apply stable_bind; auto; [apply frame_execute_update|]. intros _.
  apply stable_bind; auto; [apply frame_notify_changes|]. intros _.
  now apply stable_ret.
Qed.

(** The run of a transition, statement by statement: either it is rejected
    with the store untouched, or the ticket [info] was fetched and passed
    validation, the [UPDATE] ran, and the result is [True] exactly when the
    notifications that follow did not raise. *)
Lemma update_run rid st a p bypass w :
  exists b w',
    update_help_request_status rid st a p bypass w = (Ok b, w')
    /\ ((b = false /\ db w' = db w /\ clock w' = clock w)
        \/ (exists info w3 r,
               fetchone (select_request_info rid (db w)) = Some info
               /\ passes_validation bypass (old_status info) st
               /\ db w3 = mkDb (users (db w))
                               (update_rows (update_fields st a p) rid (clock w)
                                            (help_requests (db w)))
                               (notifications (db w))
               /\ notify_changes rid info st a p w3 = (r, w')
               /\ b = match r with Ok _ => true | Raised => false end)).
Proof.
  unfold update_help_request_status, try_except.
  unfold bind at 1. unfold select at 1. unfold bind at 1.
  assert (Edb : db (snd (cursor_execute w)) = db w
                /\ clock (snd (cursor_execute w)) = clock w).
  { unfold cursor_execute. destruct (faults w) as [|[|] fs]; split; reflexivity. }
  destruct Edb as [Edb Eclock].
  destruct (cursor_execute w) as [[[]|] w1]; cbn [snd] in *.
  2:{ exists false, w1. cbn. auto. }
  rewrite Edb.
  destruct (fetchone (select_request_info rid (db w))) as [info|] eqn:Hinfo.
  2:{ exists false, w1. cbn. auto. }
  destruct (negb bypass
            && match validate_status_transition (old_status info) st with
               | Some _ => true
               | None => false
               end) eqn:Hval.
  { exists false, w1. cbn. auto. }
  assert (Hpass : passes_validation bypass (old_status info) st).
  { unfold passes_validation. destruct bypass; [now left|right].
    cbn in Hval. destruct (validate_status_transition (old_status info) st);
      [discriminate|reflexivity]. }
  unfold bind at 1. unfold execute_update, modify. unfold bind at 1.
  assert (Fdb : db (snd (cursor_execute w1)) = db w1
                /\ clock (snd (cursor_execute w1)) = clock w1).
  { unfold cursor_execute. destruct (faults w1) as [|[|] fs]; split; reflexivity. }
  destruct Fdb as [Fdb Fclock].
  destruct (cursor_execute w1) as [[[]|] w2]; cbn [snd] in *.
  2:{ exists false, w2. cbn. split; [reflexivity|]. left.
      split; [reflexivity|]. split; congruence. }
  set (w3 := mkWorld _ (clock w2) (faults w2)).
  assert (Hdb3 : db w3 = mkDb (users (db w))
                              (update_rows (update_fields st a p) rid (clock w)
                                           (help_requests (db w)))
                              (notifications (db w))).
  { unfold w3. cbn. rewrite Fdb, Fclock, Edb, Eclock. reflexivity. }
  clearbody w3. unfold bind.
  destruct (notify_changes rid info st a p w3) as [r w4] eqn:Hn.
  destruct r as [[]|].
  - exists true, w4. split; [reflexivity|]. right.
    exists info, w3, (Ok tt). auto 6.
  - exists false, w4. split; [reflexivity|]. right.
    exists info, w3, Raised. auto 6.
Qed.

Lemma select_request_info_ticket rid d info :
  In info (select_request_info rid d) ->
  exists t, In t (help_requests d) /\ request_id t = rid
            /\ ri_user_id info = owner_id t
            /\ old_assigned_to info = assigned_to t
            /\ old_status info = status t
            /\ old_priority info = priority t.
Proof.
  unfold select_request_info. rewrite in_flat_map.
  intros (t & Ht & Hinfo).
  apply filter_In in Ht. destruct Ht as [Ht Hid].
  apply in_map_iff in Hinfo. destruct Hinfo as (u & Hu & _).
  exists t. subst info. cbn. apply Z.eqb_eq in Hid. auto 6.
Qed.

Lemma notifies_refl P d : notifies P d d.
Proof. exists []. rewrite app_nil_r. split; [reflexivity | constructor]. Qed.

Lemma notifies_trans P d1 d2 d3 :
  notifies P d1 d2 -> notifies P d2 d3 -> notifies P d1 d3.
Proof.
  intros (s1 & H1 & F1) (s2 & H2 & F2). exists (s1 ++ s2). split.
  - rewrite H2, H1, app_assoc. reflexivity.
  - apply Forall_app. auto.
Qed.

Lemma notifies_create_noti (P : notification -> Prop) uid ttl cat rel force :
  P (mkNoti uid ttl (safe_category cat) rel) ->
  stable (notifies P) (create_noti uid ttl cat rel force).
Proof.
  intros HP.
  pose proof (notifies_refl P) as Hrefl.
  pose proof (notifies_trans P) as Htrans.
  unfold create_noti. apply stable_bind; auto.
  - destruct (negb force); [|now apply stable_ret].
    apply stable_bind; auto; [|intros; now apply stable_ret].
    unfold is_noti_enabled. apply stable_bind; auto; [now apply stable_select|].
    intros rows. destruct (fetchone rows); now apply stable_ret.
  - intros [|]; [now apply stable_ret|].
    apply stable_try_except; auto; [|now apply stable_ret].
    apply stable_bind; auto.
    + apply stable_modify; auto. intros now d. cbn.
      eexists. split; [reflexivity|]. constructor; [exact HP | constructor].
    + intros _. apply stable_bind; auto; [|intros; now apply stable_ret].
      intros w. apply Hrefl.
Qed.

Lemma notifies_notify_changes rid info st a p :
  stable (notifies (about_ticket rid [Some (ri_user_id info); a; old_assigned_to info]))
         (notify_changes rid info st a p).
Proof.
  set (P := about_ticket rid [Some (ri_user_id info); a; old_assigned_to info]).
  pose proof (notifies_refl P) as Hrefl.
  pose proof (notifies_trans P) as Htrans.
  assert (Hsend : forall uid ttl force,
             In (Some uid) [Some (ri_user_id info); a; old_assigned_to info] ->
             stable (notifies P)
                    (try_pass (create_noti uid ttl "help_request" (Some rid) force))).
  { intros uid ttl force Hin. apply stable_try_pass; auto.
    apply notifies_create_noti. unfold P, about_ticket. cbn [n_category n_related_id n_user_id].
    split; [apply safe_category_allowed|]. split; [reflexivity | exact Hin]. }
  unfold notify_changes.
  apply stable_bind; auto.
  { destruct (negb _); [apply Hsend; cbn; auto | now apply stable_ret]. }
  intros _. apply stable_bind; auto.
  { destruct (negb _); [|now apply stable_ret].
    destruct a as [a0|].
    - apply stable_bind; auto; [now apply stable_select|]. intros _.
      apply stable_bind; auto; [apply Hsend; cbn; auto|]. intros _.
      apply Hsend; cbn; auto.
    - apply stable_bind; auto.
      + destruct (old_assigned_to info) as [old|]; [|now apply stable_ret].
        destruct (truthy_id (Some old)); [apply Hsend; cbn; auto | now apply stable_ret].
      + intros _. apply Hsend; cbn; auto. }
  intros _. destruct p as [p0|]; [|now apply stable_ret].
  destruct (negb _ && _); [|now apply stable_ret].
  apply stable_bind; auto.
  - destruct a as [a0|]; [apply Hsend; cbn; auto | now apply stable_ret].
  - intros _. destruct (old_assigned_to info) as [old|]; [|now apply stable_ret].
    destruct (truthy_id (Some old) && _); [apply Hsend; cbn; auto | now apply stable_ret].
Qed.

(** X8.  A transition never deletes or rewrites a notification: it only
    appends.  Every notification it appends has one of the four allowed
    categories, is about the ticket of the call, and is addressed to the
    owner of that ticket, to the assignee named in the call or to the
    assignee the ticket had before; a call that names no assignee on an
    unassigned ticket can only reach the owner. *)
Theorem transition_notifications rid st a p bypass w :
  exists sent,
    notifications (db (snd (update_help_request_status rid st a p bypass w)))
    = notifications (db w) ++ sent
    /\ (sent = []
        \/ exists t, In t (help_requests (db w)) /\ request_id t = rid
                     /\ Forall (about_ticket rid [Some (owner_id t); a; assigned_to t])
                               sent).
Proof.
  destruct (update_run rid st a p bypass w)
    as (b & w' & -> & [(_ & Hdb & _) | (info & w3 & r & Hinfo & _ & Hdb3 & Hn & _)]);
    cbn [snd].
  - exists []. rewrite Hdb, app_nil_r. auto.
  - destruct (notifies_notify_changes rid info st a p w3) as (sent & Hsent & Hall).
    rewrite Hn in Hsent. cbn [snd] in Hsent.
    exists sent. split.
    + rewrite Hsent, Hdb3. reflexivity.
    + right. apply fetchone_In, select_request_info_ticket in Hinfo.
      destruct Hinfo as (t & Ht & Hid & Hown & Hasg & _).
      exists t. rewrite <- Hown, <- Hasg. auto.
Qed.

(** ** The assigners *)

Lemma update_keeps_statuses_known rid st a p bypass w :
  bypass = false \/ In st HELP_REQUEST_STATUSES ->
  Forall known_status (help_requests (db w)) ->
  Forall known_status
         (help_requests (db (snd (update_help_request_status rid st a p bypass w)))).
Proof.
  intros Hst Hknown.
  destruct (update_status_outcome rid st a p bypass w)
    as (b & w' & -> & _ & _ & [[_ Hsame] | [(info & Hinfo & Hpass) Hupd]]);
    cbn [snd].
  - now rewrite Hsame.
  - rewrite Hupd. rewrite Forall_forall in *. intros t' Hin.
    apply update_rows_In in Hin. destruct Hin as (t & Ht & ->).
    destruct (request_id t =? rid); [|now apply Hknown].
    fold (applied st a p (clock w) t). unfold known_status.
    destruct (applied_fields st a p (clock w) t) as (_ & -> & _).
    destruct Hst as [-> | Hst]; [|exact Hst].
    destruct Hpass as [Hb|Hv]; [discriminate|].
    apply fetchone_In, select_request_info_In in Hinfo.
    destruct Hinfo as (t0 & Ht0 & _ & Hst & _).
    apply validate_accepts in Hv. destruct Hv as [-> | Hv].
    + rewrite Hst. exact (Hknown t0 Ht0).
    + exact (valid_targets_are_statuses _ _ Hv).
Qed.

Lemma engine_update_help_request_status rid st a p bypass :
  bypass = false \/ In st HELP_REQUEST_STATUSES ->
  stable (engine_step (eq rid)) (update_help_request_status rid st a p bypass).
Proof.
  intros Hst w. split.
  - apply frame_update_help_request_status.
  - now apply update_keeps_statuses_known.
Qed.

(** The rows of the ticket after an accepted transition. *)
Lemma accepted_transition_rows rid st a p bypass w w' :
  update_help_request_status rid st a p bypass w = (Ok true, w') ->
  ticket_exists (db w') rid
  /\ ticket_has (db w') rid
       (fun t => status t = st /\ assigned_to t = a
                 /\ forall p', p = Some p' -> priority t = p').
Proof.
  intros Hrun.
  destruct (update_status_outcome rid st a p bypass w)
    as (b & w1 & Hrun' & _ & _ & [[Hb _] | [(info & Hinfo & _) Hrows]]);
    rewrite Hrun in Hrun'; injection Hrun' as <- <-; [discriminate|].
  split.
  - apply fetchone_In, select_request_info_In in Hinfo.
    destruct Hinfo as (t & Ht & Hid & _).
    exists (applied st a p (clock w) t). split.
    + rewrite Hrows. apply In_update_rows; assumption.
    + destruct (applied_fields st a p (clock w) t) as (-> & _). exact Hid.
  - intros t' Hin Hid. rewrite Hrows in Hin.
    apply update_rows_In in Hin. destruct Hin as (t & Ht & ->).
    destruct (request_id t =? rid) eqn:E.
    + fold (applied st a p (clock w) t).
      destruct (applied_fields st a p (clock w) t) as (_ & -> & -> & _ & -> & _).
      repeat split. now intros p' ->.
    + apply Z.eqb_neq in E. contradiction.
Qed.

Lemma update_never_raises rid st a p bypass :
  never_raises (update_help_request_status rid st a p bypass).
Proof. unfold update_help_request_status. apply nr_try_except, nr_ret. Qed.

Lemma select_technicians_eligible priority d u :
  In u (select_technicians (roles_for priority) d)
  <-> In u (users d) /\ eligible priority u.
Proof.
  rewrite select_technicians_In, str_in_iff, roles_for_eligible.
  unfold eligible, is_active. rewrite String.eqb_eq. tauto.
Qed.

(** The directory on any connection: the pool is the answer of the query or
    is empty; every member is an eligible user. *)
Lemma get_available_technicians_pool priority w :
  exists pool w',
    get_available_technicians priority w = (Ok pool, w')
    /\ db w' = db w /\ clock w' = clock w
    /\ StronglySorted by_id_le pool
    /\ (forall u, In u pool -> In u (users (db w)) /\ eligible priority u)
    /\ ((forall u, In u (users (db w)) -> ~ eligible priority u) -> pool = []).
Proof.
  destruct (get_available_technicians_run priority w)
    as (w' & Hclock & Hdb & [Hrun|Hrun]).
  - exists (select_technicians (roles_for priority) (db w)), w'.
    split; [exact Hrun|]. split; [exact Hdb|]. split; [exact Hclock|].
    split; [apply select_technicians_sorted|]. split.
    + intros u Hu. now apply select_technicians_eligible in Hu.
    + intros Hno.
      destruct (select_technicians (roles_for priority) (db w)) as [|u l] eqn:E;
        [reflexivity|].
      assert (Hu : In u (select_technicians (roles_for priority) (db w)))
        by (rewrite E; now left).
      apply select_technicians_eligible in Hu. destruct Hu as [Hin Hel].
      elim (Hno u Hin Hel).
  - exists [], w'. split; [exact Hrun|]. split; [exact Hdb|]. split; [exact Hclock|].
    split; [constructor|]. split; [intros u [] | reflexivity].
Qed.

Lemma least_busy_loop_run technicians : forall best lowest w,
  exists best' lowest' w',
    least_busy_loop technicians best lowest w = (Ok (best', lowest'), w')
    /\ db w' = db w /\ clock w' = clock w
    /\ (best' = best \/ exists t, In t technicians /\ best' = Some t).
Proof.
  induction technicians as [|t rest IH]; intros best lowest w; cbn [least_busy_loop].
  - exists best, lowest, w. cbn. auto.
  - unfold bind.
    destruct (calculate_never_raises (user_id t) w) as (s & w1 & -> & Hdb & Hclock).
    destruct (workload_ltb s lowest).
    + destruct (IH (Some t) s w1) as (b' & l' & w' & Hrun & Hdb' & Hclock' & Hb).
      exists b', l', w'. split; [exact Hrun|]. repeat split; try congruence.
      right. destruct Hb as [-> | (t' & Ht' & ->)]; [exists t | exists t']; cbn; auto.
    + destruct (IH best lowest w1) as (b' & l' & w' & Hrun & Hdb' & Hclock' & Hb).
      exists b', l', w'. split; [exact Hrun|]. repeat split; try congruence.
      destruct Hb as [-> | (t' & Ht' & ->)]; [now left | right].
      exists t'. cbn. auto.
Qed.

Lemma find_least_busy_technician_run priority w :
  exists best lowest w',
    find_least_busy_technician priority w = (Ok (best, lowest), w')
    /\ db w' = db w /\ clock w' = clock w
    /\ (forall t, best = Some t -> In t (users (db w)) /\ eligible priority t)
    /\ ((forall u, In u (users (db w)) -> ~ eligible priority u) -> best = None).
Proof.
  unfold find_least_busy_technician. unfold bind at 1.
  destruct (get_available_technicians_pool priority w)
    as (pool & w1 & -> & Hdb & Hclock & _ & Hpool & Hnone).
  destruct pool as [|t0 rest] eqn:Ep.
  - exists None, None, w1. cbn. repeat split; auto; discriminate.
  - unfold bind.
    destruct (least_busy_loop_run (t0 :: rest) None Inf w1)
      as (b & lo & w' & -> & Hdb' & Hclock' & Hb).
    exists b, (Some lo), w'. cbn [fst snd ret]. split; [reflexivity|].
    split; [congruence|]. split; [congruence|]. split.
    + intros t Ht. destruct Hb as [-> | (t' & Ht' & ->)]; [discriminate|].
      injection Ht as <-. now apply Hpool.
    + intros Hno. specialize (Hnone Hno). discriminate.
Qed.

(** X9.  [auto_assign_request] has three outcomes and never raises.
    Either nobody could be selected, and the store is as it was; or the
    transition was refused; or it succeeded, and then the technician it
    returns is an active user whose role may take a ticket of this priority
    (for ["high"], a super admin), and the ticket is [assigned], held by that
    technician, with the priority of the call. *)
Theorem auto_assign_request_outcomes rid prio w :
  exists r w',
    auto_assign_request rid prio w = (Ok r, w')
    /\ ((r = (false, None, "No available technicians found") /\ db w' = db w)
        \/ r = (false, None, "Failed to update request status")
        \/ (exists u msg,
              In u (users (db w)) /\ eligible prio u
              /\ r = (true, Some (user_id u), msg)
              /\ ticket_exists (db w') rid
              /\ ticket_has (db w') rid
                   (fun t => status t = "assigned"
                             /\ assigned_to t = Some (user_id u)
                             /\ priority t = prio))).
Proof.
  unfold auto_assign_request, try_except. unfold bind at 1.
  destruct (find_least_busy_technician_run prio w)
    as (best & lo & w1 & -> & Hdb & _ & Hbest & _).
  cbn [fst]. destruct best as [u|].
  - unfold bind.
    pose proof (update_never_raises rid "assigned" (Some (user_id u)) (Some prio)
                                    false w1) as Hnr.
    destruct (update_help_request_status rid "assigned" (Some (user_id u))
                (Some prio) false w1) as [[[|]|] w'] eqn:Hupd;
      cbn in Hnr; [| |congruence].
    + do 2 eexists. split; [reflexivity|]. right. right.
      destruct (Hbest u eq_refl) as [Hin Hel].
      destruct (accepted_transition_rows _ _ _ _ _ _ _ Hupd) as [Hex Hrows].
      exists u. eexists. split; [exact Hin|]. split; [exact Hel|].
      split; [reflexivity|]. split; [exact Hex|].
      intros t Ht Hid. destruct (Hrows t Ht Hid) as (Hs & Ha & Hp).
      split; [exact Hs|]. split; [exact Ha | now apply Hp].
    + do 2 eexists. split; [reflexivity|]. auto.
  - do 2 eexists. split; [reflexivity|]. left. auto.
Qed.

Lemma current_workload_run tid w :
  exists n w',
    get_technician_current_workload tid w = (Ok n, w')
    /\ db w' = db w /\ clock w' = clock w
    /\ (n = 999 \/ n = active_count_of (db w) tid).
Proof.
  unfold get_technician_current_workload, try_except, select, bind, cursor_execute.
  destruct (faults w) as [|[|] fs]; cbn; do 2 eexists;
    (split; [reflexivity|]); cbn; auto.
Qed.

Lemma simple_loop_run technicians : forall best lowest w,
  lowest <= 999 ->
  exists best' lowest' w',
    simple_loop technicians best lowest w = (Ok (best', lowest'), w')
    /\ db w' = db w /\ clock w' = clock w
    /\ ((best' = best /\ lowest' = lowest)
        \/ exists t, In t technicians /\ best' = Some t
                     /\ active_count_of (db w) (user_id t) < lowest).
Proof.
  induction technicians as [|t rest IH]; intros best lowest w Hbound;
    cbn [simple_loop].
  - exists best, lowest, w. cbn. repeat split; auto.
  - unfold bind.
    destruct (current_workload_run (user_id t) w) as (n & w1 & -> & Hdb & Hclock & Hn).
    destruct (n <? lowest) eqn:Hlt.
    + apply Z.ltb_lt in Hlt.
      destruct (IH (Some t) n w1 ltac:(lia))
        as (b' & l' & w' & Hrun & Hdb' & Hclock' & Hb).
      exists b', l', w'. split; [exact Hrun|].
      split; [congruence|]. split; [congruence|]. right.
      destruct Hb as [[-> ->] | (t' & Ht' & -> & Hc)].
      * exists t. split; [now left|]. split; [reflexivity|].
        destruct Hn as [-> | ->]; [lia | exact Hlt].
      * exists t'. split; [now right|]. split; [reflexivity|].
        rewrite Hdb in Hc. lia.
    + destruct (IH best lowest w1 Hbound)
        as (b' & l' & w' & Hrun & Hdb' & Hclock' & Hb).
      exists b', l', w'. split; [exact Hrun|].
      split; [congruence|]. split; [congruence|].
      destruct Hb as [[-> ->] | (t' & Ht' & -> & Hc)]; [now left | right].
      exists t'. split; [now right|]. split; [reflexivity|]. now rewrite Hdb in Hc.
Qed.

(** X10.  [simple_auto_assign] has four outcomes and never raises.  With
    an empty pool, or when no technician of the pool could be read with fewer
    than 999 active tickets, it reports so and the store is as it was; or the
    transition was refused; or it succeeded, and then the technician it
    returns is an active user whose role may take a ticket of this priority,
    holds fewer than 999 active tickets, and the ticket is [assigned], held
    by that technician, with the priority of the call. *)
Theorem simple_auto_assign_outcomes rid prio w :
  exists r w',
    simple_auto_assign rid prio w = (Ok r, w')
    /\ ((r = (false, None, "No available technicians found") /\ db w' = db w)
        \/ (r = (false, None, "No suitable technician found") /\ db w' = db w)
        \/ r = (false, None, "Failed to update request status")
        \/ (exists u msg,
              In u (users (db w)) /\ eligible prio u
              /\ active_count_of (db w) (user_id u) < 999
              /\ r = (true, Some (user_id u), msg)
              /\ ticket_exists (db w') rid
              /\ ticket_has (db w') rid
                   (fun t => status t = "assigned"
                             /\ assigned_to t = Some (user_id u)
                             /\ priority t = prio))).
Proof.
  unfold simple_auto_assign, try_except. unfold bind at 1.
  destruct (get_available_technicians_pool prio w)
    as (pool & w1 & -> & Hdb & _ & _ & Hpool & _).
  destruct pool as [|t0 rest].
  { do 2 eexists. split; [reflexivity|]. left. auto. }
  unfold bind at 1.
  destruct (simple_loop_run (t0 :: rest) None 999 w1 ltac:(lia))
    as (best & lo & w2 & Hloop & Hdb2 & _ & Hbest).
  rewrite Hloop. cbn [fst snd].
  destruct Hbest as [[-> ->] | (u & Hu & -> & Hcount)].
  { do 2 eexists. split; [reflexivity|]. right. left. split; [reflexivity|]. congruence. }
  unfold bind.
  pose proof (update_never_raises rid "assigned" (Some (user_id u)) (Some prio)
                                  false w2) as Hnr.
  destruct (update_help_request_status rid "assigned" (Some (user_id u))
              (Some prio) false w2) as [[[|]|] w'] eqn:Hupd;
    cbn in Hnr; [| |congruence].
  - do 2 eexists. split; [reflexivity|]. right. right. right.
    destruct (Hpool u Hu) as [Hin Hel].
    destruct (accepted_transition_rows _ _ _ _ _ _ _ Hupd) as [Hex Hrows].
    exists u. eexists. split; [exact Hin|]. split; [exact Hel|].
    split; [now rewrite <- Hdb|].
    split; [reflexivity|]. split; [exact Hex|].
    intros t Ht Hid. destruct (Hrows t Ht Hid) as (Hs & Ha & Hp).
    split; [exact Hs|]. split; [exact Ha | now apply Hp].
  - do 2 eexists. split; [reflexivity|]. auto.
Qed.

Lemma engine_auto_assign_request rid prio :
  stable (engine_step (eq rid)) (auto_assign_request rid prio).
Proof.
  pose proof (engine_step_refl (eq rid)) as Hrefl.
  pose proof (engine_step_trans (eq rid)) as Htrans.
  unfold auto_assign_request. apply stable_try_except; auto; [|now apply stable_ret].
  apply stable_bind; auto; [now apply stable_find_least_busy_technician|].
  intros [[u|] lo]; cbn [fst]; [|now apply stable_ret].
  apply stable_bind; auto.
  - apply engine_update_help_request_status. now left.
  - intros [|]; now apply stable_ret.
Qed.

Lemma engine_simple_auto_assign rid prio :
  stable (engine_step (eq rid)) (simple_auto_assign rid prio).
Proof.
  pose proof (engine_step_refl (eq rid)) as Hrefl.
  pose proof (engine_step_trans (eq rid)) as Htrans.
  unfold simple_auto_assign. apply stable_try_except; auto; [|now apply stable_ret].
  apply stable_bind; auto; [now apply stable_get_available_technicians|].
  intros [|t0 rest]; [now apply stable_ret|].
  apply stable_bind; auto; [now apply stable_simple_loop|].
  intros [[u|] lo]; cbn [fst]; [|now apply stable_ret].
  apply stable_bind; auto.
  - apply engine_update_help_request_status. now left.
  - intros [|]; now apply stable_ret.
Qed.

(** X11.  Whatever their outcome, the two assigners only write to the
    ticket they are given: the users are untouched, no ticket is added,
    removed or re-identified, every other ticket is unchanged, notifications
    are only appended, with allowed categories, and known statuses stay
    known. *)
Theorem assigners_frame rid prio w :
  engine_step (eq rid) (db w) (db (snd (auto_assign_request rid prio w)))
  /\ engine_step (eq rid) (db w) (db (snd (simple_auto_assign rid prio w))).
Proof.
  split; [apply engine_auto_assign_request | apply engine_simple_auto_assign].
Qed.

(** X12.  With no active user whose role may take the priority, both
    assigners answer "No available technicians found" and leave the store as
    it was, on any connection. *)
Theorem no_eligible_technician rid prio w :
  (forall u, In u (users (db w)) -> ~ eligible prio u) ->
  (fst (auto_assign_request rid prio w) = Ok (false, None, "No available technicians found")
   /\ db (snd (auto_assign_request rid prio w)) = db w)
  /\ (fst (simple_auto_assign rid prio w) = Ok (false, None, "No available technicians found")
      /\ db (snd (simple_auto_assign rid prio w)) = db w).
Proof.
  intros Hno.
  assert (H1 : exists w1,
             auto_assign_request rid prio w
             = (Ok (false, None, "No available technicians found"), w1)
             /\ db w1 = db w).
  { unfold auto_assign_request, try_except. unfold bind at 1.
    destruct (find_least_busy_technician_run prio w)
      as (best & lo & w1 & -> & Hdb & _ & _ & Hnone).
    rewrite (Hnone Hno). exists w1. split; [reflexivity | exact Hdb]. }
  assert (H2 : exists w1,
             simple_auto_assign rid prio w
             = (Ok (false, None, "No available technicians found"), w1)
             /\ db w1 = db w).
  { unfold simple_auto_assign, try_except. unfold bind at 1.
    destruct (get_available_technicians_pool prio w)
      as (pool & w1 & -> & Hdb & _ & _ & _ & Hnone).
    rewrite (Hnone Hno). exists w1. split; [reflexivity | exact Hdb]. }
  destruct H1 as (w1 & -> & Hdb1). destruct H2 as (w2 & -> & Hdb2). cbn [fst snd].
  auto.
Qed.

Lemma no_eligible_technician_witness :
  let w := mkWorld (mkDb [olga; alice] [ticket 1 "high" "new" None] []) 5000 [] in
  (fst (auto_assign_request 1 "high" w) = Ok (false, None, "No available technicians found")
   /\ db (snd (auto_assign_request 1 "high" w)) = db w)
  /\ (fst (simple_auto_assign 1 "high" w) = Ok (false, None, "No available technicians found")
      /\ db (snd (simple_auto_assign 1 "high" w)) = db w).
Proof.
  intros w. apply (no_eligible_technician 1 "high" w).
  intros u [<-|[<-|[]]] [_ Hrole]; discriminate.
Defined.





Lemma fault_free_current_workload tid w :
  faults w = [] ->
  get_technician_current_workload tid w = (Ok (active_count_of (db w) tid), w).
Proof.
  intros Hf. unfold get_technician_current_workload, try_except.
  rewrite fault_free_select by exact Hf. reflexivity.
Qed.

Lemma count_ltb n m :
  workload_ltb (Fin (inject_Z n)) (Fin (inject_Z m)) = (n <? m).
Proof.
  cbn. destruct (n <? m) eqn:E.
  - apply Qltb_lt. rewrite <- Zlt_Qlt. now apply Z.ltb_lt.
  - apply Qltb_ge. rewrite <- Zle_Qle. now apply Z.ltb_ge.
Qed.

(** On a connection without faults the loop of [simple_auto_assign] is the
    scan of the counts. *)
Lemma simple_loop_scan w technicians : forall best lowest,
  faults w = [] ->
  exists lowest',
    simple_loop technicians best lowest w
    = (Ok (fst (scan (fun tid => Fin (inject_Z (active_count_of (db w) tid)))
                     technicians best (Fin (inject_Z lowest))),
           lowest'), w).
Proof.
  induction technicians as [|t rest IH]; intros best lowest Hf; cbn [simple_loop scan].
  - exists lowest. reflexivity.
  - unfold bind. rewrite fault_free_current_workload by exact Hf.
    rewrite count_ltb.
    destruct (active_count_of (db w) (user_id t) <? lowest); now apply IH.
Qed.

(** X14.  On a connection that answers, the technician that
    [simple_auto_assign] assigns holds the fewest active tickets of the
    eligible pool and, among those who hold as few, has the lowest id. *)
Theorem simple_auto_assign_picks_the_least_loaded rid prio w tid msg w' :
  faults w = [] ->
  simple_auto_assign rid prio w = (Ok (true, Some tid, msg), w') ->
  forall t, In t (select_technicians (roles_for prio) (db w)) ->
            active_count_of (db w) tid <= active_count_of (db w) (user_id t)
            /\ (active_count_of (db w) (user_id t) = active_count_of (db w) tid ->
                tid <= user_id t).
Proof.
  intros Hf Hrun.
  pose proof (select_technicians_sorted (roles_for prio) (db w)) as Hsorted.
  revert Hrun Hsorted. unfold simple_auto_assign, try_except. unfold bind at 1.
  rewrite (fault_free_available prio w Hf).
  destruct (select_technicians (roles_for prio) (db w)) as [|t0 rest];
    [discriminate|].
  assert (Hloop := simple_loop_scan w (t0 :: rest) None 999 Hf).
  destruct Hloop as (lo' & Hloop).
  set (sc := fun tid => Fin (inject_Z (active_count_of (db w) tid))) in *.
  destruct (scan sc (t0 :: rest) None (Fin (inject_Z 999))) as [b lo] eqn:Hscan.
  cbn [fst] in Hloop.
  unfold bind at 1. rewrite Hloop. cbn [fst].
  destruct b as [best|]; [|discriminate].
  unfold bind.
  destruct (update_help_request_status rid "assigned" (Some (user_id best))
              (Some prio) false w) as [[[|]|] w2]; try discriminate.
  intros [= <- _ _] Hsorted.
  destruct (scan_spec _ _ _ _ _ _ Hscan) as (_ & Hall & Hwin).
  destruct Hwin as [[Hb _] | (l1 & best' & l2 & Hsplit & Hb & -> & _ & Hfront)];
    [discriminate|].
  injection Hb as <-.
  intros t Ht. split.
  - specialize (Hall t Ht). unfold sc in Hall. rewrite count_ltb in Hall.
    now apply Z.ltb_ge in Hall.
  - intros Heq. rewrite Hsplit in Ht, Hsorted.
    apply in_app_or in Ht. destruct Ht as [Ht | [<- | Ht]].
    + specialize (Hfront t Ht). unfold sc in Hfront. rewrite count_ltb in Hfront.
      apply Z.ltb_lt in Hfront. lia.
    + lia.
    + apply sorted_from_position in Hsorted.
      rewrite Forall_forall in Hsorted. exact (Hsorted t Ht).
Qed.

(** Witness of X14: [sam] holds one active ticket and [alice] two; the new
    medium ticket 4 goes to [sam]. *)
Lemma simple_auto_assign_picks_the_least_loaded_witness :
  active_count_of (db busy_world) 2 <= active_count_of (db busy_world) (user_id alice)
  /\ (active_count_of (db busy_world) (user_id alice)
      = active_count_of (db busy_world) 2 ->
      2 <= user_id alice).
Proof.
  apply (simple_auto_assign_picks_the_least_loaded
           4 "medium" busy_world 2 "Assigned to Sam Stone"
           (snd (simple_auto_assign 4 "medium" busy_world))).
  - reflexivity.
  - reflexivity.
  - vm_compute. auto.
Defined.

Lemma fault_free_find_some prio w :
  faults w = [] ->
  select_technicians (roles_for prio) (db w) <> [] ->
  exists best lowest,
    find_least_busy_technician prio w = (Ok (Some best, lowest), w).
Proof.
  intros Hf Hpool.
  pose proof (fault_free_available prio w Hf) as Havail.
  assert (Hsc : forall tid,
             calculate_technician_workload tid w = (Ok (code_score w tid), w))
    by (intros tid; apply fault_free_score; assumption).
  unfold find_least_busy_technician. unfold bind at 1. rewrite Havail.
  destruct (select_technicians (roles_for prio) (db w)) as [|x rest]; [congruence|].
  unfold bind. rewrite (least_busy_loop_scan (code_score w)) by exact Hsc.
  destruct (scan (code_score w) (x :: rest) None Inf) as [b lo] eqn:Hscan.
  destruct (scan_spec _ _ _ _ _ _ Hscan) as (_ & Hall & Hwin).
  destruct Hwin as [[-> ->] | (l1 & best & l2 & _ & -> & _)].
  - exfalso. specialize (Hall x (or_introl eq_refl)).
    destruct (fault_free_score w (user_id x) Hf) as (_ & s & Hs & _).
    rewrite Hs in Hall. discriminate.
  - exists best. eexists. reflexivity.
Qed.

Lemma fault_free_update_accepts rid st a p bypass w info :
  faults w = [] ->
  fetchone (select_request_info rid (db w)) = Some info ->
  passes_validation bypass (old_status info) st ->
  exists w', update_help_request_status rid st a p bypass w = (Ok true, w').
Proof.
  intros Hf Hinfo Hpass. unfold update_help_request_status, try_except.
  unfold bind at 1. rewrite fault_free_select by exact Hf. rewrite Hinfo.
  assert (Hcond : negb bypass
                  && match validate_status_transition (old_status info) st with
                     | Some _ => true
                     | None => false
                     end = false).
  { destruct Hpass as [-> | ->]; [reflexivity | apply andb_false_r]. }
  rewrite Hcond. unfold bind at 1.
  destruct (clean_modify
              (fun now d =>
                 mkDb (users d)
                      (update_rows (update_fields st a p) rid now (help_requests d))
                      (notifications d)) w Hf) as ([] & w1 & Hupd & Hf1).
  unfold execute_update. rewrite Hupd. unfold bind.
  destruct (clean_notify_changes rid info st a p w1 Hf1) as ([] & w2 & -> & _).
  exists w2. reflexivity.
Qed.

Lemma fault_free_update_rejects rid st a p w info :
  faults w = [] ->
  fetchone (select_request_info rid (db w)) = Some info ->
  validate_status_transition (old_status info) st <> None ->
  update_help_request_status rid st a p false w = (Ok false, w).
Proof.
  intros Hf Hinfo Hval. unfold update_help_request_status, try_except.
  unfold bind at 1. rewrite fault_free_select by exact Hf. rewrite Hinfo.
  destruct (validate_status_transition (old_status info) st); [|congruence].
  reflexivity.
Qed.

Lemma validate_to_assigned s :
  validate_status_transition s "assigned" = None
  <-> In s ["new"; "assigned"; "blocked"].
Proof.
  split.
  - intros Hv. apply validate_accepts in Hv. destruct Hv as [<- | Hin]; [cbn; auto|].
    revert Hin. unfold get_valid_status_transitions, status_transitions.
    cbn [dict_get].
    destruct (String.eqb_spec s "new") as [->|_]; [cbn; auto|].
    destruct (String.eqb_spec s "assigned") as [->|_]; [cbn; auto|].
    destruct (String.eqb_spec s "blocked") as [->|_]; [cbn; auto|].
    destruct (String.eqb s "solved"); cbn; intuition discriminate.
  - intros [<-|[<-|[<-|[]]]]; reflexivity.
Qed.

(** X15.  On a connection that answers, with a non-empty pool,
    [auto_assign_request] succeeds on a ticket that is found exactly when the
    ticket is [new], [assigned] or [blocked]: a ticket that is already
    assigned is accepted again, as a same-state transition, and handed to
    the least busy technician; any other status, [solved] first, is refused
    with nothing changed. *)
Theorem auto_assign_request_succeeds_unless_closed rid prio w info :
  faults w = [] ->
  select_technicians (roles_for prio) (db w) <> [] ->
  fetchone (select_request_info rid (db w)) = Some info ->
  (In (old_status info) ["new"; "assigned"; "blocked"] ->
   exists tid msg w',
     auto_assign_request rid prio w = (Ok (true, Some tid, msg), w'))
  /\ (~ In (old_status info) ["new"; "assigned"; "blocked"] ->
      auto_assign_request rid prio w
      = (Ok (false, None, "Failed to update request status"), w)).
Proof.
  intros Hf Hpool Hinfo.
  destruct (fault_free_find_some prio w Hf Hpool) as (best & lo & Hfind).
  split; intros Hst; unfold auto_assign_request, try_except; unfold bind at 1;
    rewrite Hfind; cbn [fst]; unfold bind.
  - apply validate_to_assigned in Hst.
    destruct (fault_free_update_accepts rid "assigned" (Some (user_id best))
                (Some prio) false w info Hf Hinfo (or_intror Hst)) as (w' & ->).
    do 3 eexists. reflexivity.
  - rewrite <- validate_to_assigned in Hst.
    rewrite (fault_free_update_rejects rid "assigned" (Some (user_id best))
               (Some prio) w info Hf Hinfo Hst).
    reflexivity.
Qed.

(** Witness of X15: ticket 1 is already assigned to [alice]; auto-assigning
    it again succeeds. *)
Lemma auto_assign_request_succeeds_unless_closed_witness :
  (In "assigned" ["new"; "assigned"; "blocked"] ->
   exists tid msg w',
     auto_assign_request 1 "urgent" busy_world = (Ok (true, Some tid, msg), w'))
  /\ (~ In "assigned" ["new"; "assigned"; "blocked"] ->
      auto_assign_request 1 "urgent" busy_world
      = (Ok (false, None, "Failed to update request status"), busy_world)).
Proof.
  apply (auto_assign_request_succeeds_unless_closed
           1 "urgent" busy_world
           (mkInfo 9 "Cannot log in" "assigned" (Some 1) "urgent" "Olga" "Oak"));
    [reflexivity | discriminate | reflexivity].
Defined.

(** ** The batch distributor as a whole *)

Lemma stable_mono (R R' : database -> database -> Prop) {A} (m : M A) :
  (forall d d', R d d' -> R' d d') -> stable R m -> stable R' m.
Proof. intros HR Hm w. apply HR, Hm. Qed.

Lemma engine_assign_step (P : Z -> Prop) st request :
  P (request_id request) -> stable (engine_step P) (assign_step st request).
Proof.
  intros HP.
  pose proof (engine_step_refl P) as Hrefl.
  pose proof (engine_step_trans P) as Htrans.
  destruct st as [[tw count] failed]. unfold assign_step.
  destruct (py_min (total_workload tw) (keys tw)) as [best|]; [|now apply stable_raise].
  destruct (lookup best tw) as [e|]; [|now apply stable_raise].
  destruct (String.eqb (priority request) "high" && _); [now apply stable_ret|].
  apply stable_bind; auto.
  - apply (stable_mono (engine_step (eq (request_id request)))).
    + intros d d'. apply engine_step_mono. now intros rid <-.
    + apply engine_update_help_request_status. now left.
  - intros [|]; now apply stable_ret.
Qed.

Lemma engine_assign_loop (P : Z -> Prop) requests : forall st,
  (forall r, In r requests -> P (request_id r)) ->
  stable (engine_step P) (assign_loop requests st).
Proof.
  pose proof (engine_step_refl P) as Hrefl.
  pose proof (engine_step_trans P) as Htrans.
  induction requests as [|r rest IH]; intros st HP; cbn [assign_loop].
  - now apply stable_ret.
  - apply stable_bind; auto.
    + apply engine_assign_step. apply HP. now left.
    + intros st'. apply IH. intros r' Hr'. apply HP. now right.
Qed.

Lemma engine_bulk_auto_assign_balanced reqs :
  stable (engine_step (fun rid => In rid (map request_id reqs)))
         (bulk_auto_assign_balanced reqs).
Proof.
  set (P := fun rid => In rid (map request_id reqs)).
  pose proof (engine_step_refl P) as Hrefl.
  pose proof (engine_step_trans P) as Htrans.
  unfold bulk_auto_assign_balanced.
  apply stable_try_except; auto; [|now apply stable_ret].
  apply stable_bind; auto; [now apply stable_get_available_technicians|].
  intros [|t0 rest]; [now apply stable_ret|].
  apply stable_bind; auto; [now apply stable_init_workloads|]. intros tw.
  apply stable_bind; auto; [|intros; now apply stable_ret].
  apply engine_assign_loop. intros r Hr. unfold P. apply in_map.
  unfold sorted_requests in Hr. now apply sort_by_In in Hr.
Qed.

(** X16.  The batch distributor only writes to the tickets of the backlog
    it is given: the users are untouched, no ticket is added, removed or
    re-identified, every ticket whose id is not in the backlog is unchanged,
    notifications are only appended, with allowed categories, and known
    statuses stay known. *)
Theorem bulk_auto_assign_balanced_frame reqs w :
  engine_step (fun rid => In rid (map request_id reqs))
              (db w) (db (snd (bulk_auto_assign_balanced reqs w))).
Proof. apply engine_bulk_auto_assign_balanced. Qed.

(** X17.  On an empty backlog the batch distributor assigns nothing,
    reports no failure and leaves the store as it was, on any connection and
    whoever is in the directory. *)
Theorem bulk_auto_assign_balanced_empty w :
  fst (bulk_auto_assign_balanced [] w) = Ok (0, [])
  /\ db (snd (bulk_auto_assign_balanced [] w)) = db w.
Proof.
  destruct (bulk_auto_assign_balanced_run [] w)
    as (technicians & w1 & Havail & [[_ Hrun] | Hrun]).
  - rewrite Hrun. cbn [fst snd map]. split; [reflexivity|].
    destruct (get_available_technicians_pool "medium" w)
      as (pool & w1' & Havail' & Hdb & _).
    rewrite Havail in Havail'. injection Havail' as _ <-. exact Hdb.
  - destruct Hrun as (tw & w2 & tw' & count & failed & w3 & Hinit & _ & _ & Hloop
                      & Hrun & _ & _ & Hlen).
    rewrite Hrun. cbn [fst snd].
    unfold sorted_requests in Hloop. cbn in Hloop. injection Hloop as <- <- <- <-.
    split; [reflexivity|].
    destruct (get_available_technicians_pool "medium" w)
      as (pool & w1' & Havail' & Hdb & _).
    rewrite Havail in Havail'. injection Havail' as _ <-.
    assert (Hs : stable eq (init_workloads technicians []))
      by (apply stable_init_workloads; [reflexivity | intros; congruence]).
    specialize (Hs w1). rewrite Hinit in Hs. cbn in Hs. congruence.
Qed.

Lemma batch_result_refl reqs d : batch_result reqs d d.
Proof.
  split; [reflexivity|]. induction (help_requests d); constructor; auto.
Qed.

Lemma batch_result_trans reqs d1 d2 d3 :
  batch_result reqs d1 d2 -> batch_result reqs d2 d3 -> batch_result reqs d1 d3.
Proof.
  intros [Hu1 Ht1] [Hu2 Ht2]. split; [congruence|].
  rewrite Hu1 in Ht2. revert Ht2. generalize (help_requests d3).
  induction Ht1 as [|t1 t2 l1 l2 H12 _ IH]; intros l3 Ht2;
    inversion Ht2 as [|? t3 ? l3' H23 Hrest]; subst; constructor; [|now apply IH].
  destruct H23 as [-> | (Hid & Hst & r & u & Hr & Hrid & Hu & Hel & Ha & Hp)];
    [exact H12|].
  assert (Hid12 : request_id t2 = request_id t1)
    by (destruct H12 as [-> | (Hid1 & _)]; congruence).
  right. split; [congruence|]. split; [exact Hst|].
  exists r, u. split; [exact Hr|]. split; [congruence|].
  split; [exact Hu|]. split; [exact Hel|]. split; [exact Ha | exact Hp].
Qed.

Lemma update_assigns reqs r u w :
  In r reqs -> In u (users (db w)) -> eligible (priority r) u ->
  batch_result reqs (db w)
    (db (snd (update_help_request_status (request_id r) "assigned" (Some (user_id u))
                                         (Some (priority r)) false w))).
Proof.
  intros Hr Hu Hel.
  destruct (update_status_outcome (request_id r) "assigned" (Some (user_id u))
              (Some (priority r)) false w)
    as (b & w' & -> & _ & Husers & [[_ Hsame] | [_ Hupd]]); cbn [snd].
  - split; [exact Husers|]. rewrite Hsame. apply batch_result_refl.
  - split; [exact Husers|]. rewrite Hupd. clear Hupd. unfold update_rows.
    generalize (help_requests (db w)) as rows.
    induction rows as [|t rows IH]; cbn [map]; constructor; [|exact IH].
    destruct (request_id t =? request_id r) eqn:E; [right | now left].
    apply Z.eqb_eq in E.
    fold (applied "assigned" (Some (user_id u)) (Some (priority r)) (clock w) t).
    destruct (applied_fields "assigned" (Some (user_id u)) (Some (priority r))
                             (clock w) t) as (Hid & Hst & Ha & _ & Hp & _).
    split; [exact Hid|]. split; [exact Hst|].
    exists r, u. split; [exact Hr|]. split; [congruence|].
    split; [exact Hu|]. split; [exact Hel|]. split; [exact Ha | exact Hp].
Qed.

Lemma eligible_for_priority prio u :
  eligible "medium" u ->
  (prio = "high" -> platform_role u = "super_admin") ->
  eligible prio u.
Proof.
  unfold eligible, eligible_role. intros [Hact Hrole] Hhigh. split; [exact Hact|].
  destruct (String.eqb_spec prio "high") as [E|_]; [now apply Hhigh|].
  exact Hrole.
Qed.

Lemma dict_ok_add_assignment staff best tw :
  dict_ok staff tw -> dict_ok staff (add_assignment best tw).
Proof.
  intros Hok k e. rewrite lookup_add_assignment.
  destruct (k =? best); [|apply Hok].
  destruct (lookup k tw) as [e0|] eqn:E; [|discriminate].
  intros [= <-]. cbn. exact (Hok k e0 E).
Qed.

(** One turn of the loop: the dict stays a dict of the staff, and the store
    moves by [batch_result]. *)
Lemma assign_step_result reqs tw count failed request w :
  In request reqs -> dict_ok (users (db w)) tw ->
  batch_result reqs (db w) (db (snd (assign_step (tw, count, failed) request w)))
  /\ forall st', fst (assign_step (tw, count, failed) request w) = Ok st' ->
                 dict_ok (users (db w)) (fst (fst st')).
Proof.
  intros Hreq Hok. unfold assign_step.
  destruct (py_min (total_workload tw) (keys tw)) as [best|];
    [|split; [apply batch_result_refl | discriminate]].
  destruct (lookup best tw) as [e|] eqn:He;
    [|split; [apply batch_result_refl | discriminate]].
  destruct (Hok best e He) as (Hin & Hkey & Hel).
  destruct (String.eqb (priority request) "high"
            && negb (String.eqb (platform_role (technician e)) "super_admin"))
    eqn:Hguard.
  { split; [apply batch_result_refl|]. intros st' [= <-]. exact Hok. }
  assert (Help : eligible (priority request) (technician e)).
  { apply eligible_for_priority; [exact Hel|]. intros Hhigh.
    rewrite Hhigh in Hguard. cbn in Hguard.
    apply negb_false_iff, String.eqb_eq in Hguard. exact Hguard. }
  pose proof (update_assigns reqs request (technician e) w Hreq Hin Help) as Hupd.
  rewrite Hkey in Hupd. unfold bind.
  destruct (update_help_request_status (request_id request) "assigned" (Some best)
              (Some (priority request)) false w) as [[[|]|] w'];
    cbn [fst snd] in *; (split; [exact Hupd|]).
  - intros st' [= <-]. cbn. now apply dict_ok_add_assignment.
  - intros st' [= <-]. exact Hok.
  - discriminate.
Qed.

Lemma assign_loop_result reqs requests : forall st w,
  (forall r, In r requests -> In r reqs) ->
  dict_ok (users (db w)) (fst (fst st)) ->
  batch_result reqs (db w) (db (snd (assign_loop requests st w))).
Proof.
  induction requests as [|r rest IH]; intros [[tw count] failed] w Hin Hok;
    cbn [assign_loop].
  - apply batch_result_refl.
  - unfold bind.
    destruct (assign_step_result reqs tw count failed r w (Hin r (or_introl eq_refl)) Hok)
      as [Hstep Hdict].
    destruct (assign_step (tw, count, failed) r w) as [[st'|] w'];
      cbn [fst snd] in *; [|exact Hstep].
    apply batch_result_trans with (db w'); [exact Hstep|].
    apply IH.
    + intros r' Hr'. apply Hin. now right.
    + destruct Hstep as [Husers _]. rewrite Husers. now apply Hdict.
Qed.

Lemma init_workloads_dict staff technicians : forall tw w,
  (forall t, In t technicians -> In t staff /\ eligible "medium" t) ->
  dict_ok staff tw ->
  forall tw', fst (init_workloads technicians tw w) = Ok tw' -> dict_ok staff tw'.
Proof.
  induction technicians as [|t rest IH]; intros tw w Hstaff Hok tw';
    cbn [init_workloads].
  - intros [= <-]. exact Hok.
  - unfold bind.
    destruct (calculate_never_raises (user_id t) w) as (s & w1 & -> & _).
    apply IH.
    + intros t' Ht'. apply Hstaff. now right.
    + intros k e. rewrite lookup_dict_set.
      destruct (k =? user_id t) eqn:E; [|apply Hok].
      intros [= <-]. cbn. apply Z.eqb_eq in E.
      destruct (Hstaff t (or_introl eq_refl)). auto.
Qed.

(** X18.  After a run of the batch distributor every ticket is either
    exactly as it was, or assigned from the backlog: its status is
    [assigned], its priority is that of a backlog entry for this ticket, and
    it is held by an active user whose role may take that priority; so a
    ticket that the backlog gives as ["high"] is held by an active super
    admin.  The users are untouched. *)
Theorem bulk_auto_assign_balanced_result reqs w :
  batch_result reqs (db w) (db (snd (bulk_auto_assign_balanced reqs w))).
Proof.
  destruct (get_available_technicians_pool "medium" w)
    as (pool & w1 & Havail & Hdb1 & _ & _ & Hpool & _).
  destruct (bulk_auto_assign_balanced_run reqs w)
    as (technicians & w1' & Havail' & [[_ Hrun] | Hrun]);
    rewrite Havail in Havail'; injection Havail' as <- <-.
  - rewrite Hrun. cbn [snd]. rewrite Hdb1. apply batch_result_refl.
  - destruct Hrun as (tw & w2 & tw' & count & failed & w3 & Hinit & _ & _ & Hloop
                      & Hrun & _).
    rewrite Hrun. cbn [snd].
    assert (Hdb2 : db w2 = db w).
    { assert (Hs : stable eq (init_workloads pool []))
        by (apply stable_init_workloads; [reflexivity | intros; congruence]).
      specialize (Hs w1). rewrite Hinit in Hs. cbn in Hs. congruence. }
    assert (Hdict : dict_ok (users (db w2)) tw).
    { apply (init_workloads_dict (users (db w2)) pool [] w1).
      - rewrite Hdb2. exact Hpool.
      - intros k e. discriminate.
      - rewrite Hinit. reflexivity. }
    pose proof (assign_loop_result reqs (sorted_requests reqs) (tw, 0, []) w2) as Hres.
    rewrite Hloop in Hres. cbn [snd fst] in Hres. rewrite Hdb2 in Hres.
    apply Hres; [|now rewrite <- Hdb2].
    intros r Hr. unfold sorted_requests in Hr. now apply sort_by_In in Hr.
Qed.

(** ** The simple bulk path *)

Lemma simple_auto_assign_never_raises rid prio :
  never_raises (simple_auto_assign rid prio).
Proof. unfold simple_auto_assign. apply nr_try_except, nr_ret. Qed.

Lemma is_unassigned_open_spec r :
  is_unassigned_open r = true <-> assigned_to r = None /\ status r <> "solved".
Proof.
  unfold is_unassigned_open. destruct (assigned_to r).
  - split; [discriminate | intros [H _]; discriminate].
  - rewrite negb_true_iff, String.eqb_neq. tauto.
Qed.

Lemma select_unassigned_In d r :
  In r (select_unassigned d)
  <-> In r (help_requests d) /\ assigned_to r = None /\ status r <> "solved".
Proof.
  unfold select_unassigned. rewrite sort_by_In, filter_In, is_unassigned_open_spec.
  reflexivity.
Qed.

Lemma simple_assign_loop_run requests : forall count failed w,
  exists count' failed' w',
    simple_assign_loop requests count failed w = (Ok (count', failed'), w')
    /\ count <= count'
    /\ (count' - count) + Z.of_nat (List.length failed')
       = Z.of_nat (List.length requests) + Z.of_nat (List.length failed).
Proof.
  induction requests as [|r rest IH]; intros count failed w; cbn [simple_assign_loop].
  - exists count, failed, w. cbn. repeat split; lia.
  - unfold bind.
    pose proof (simple_auto_assign_never_raises (request_id r) (priority r) w) as Hnr.
    destruct (simple_auto_assign (request_id r) (priority r) w)
      as [[[[success tid] message]|] w1]; cbn in Hnr; [|congruence].
    destruct success.
    + destruct (IH (count + 1) failed w1) as (c' & f' & w' & -> & Hle & Hlen).
      exists c', f', w'. split; [reflexivity|]. cbn [List.length]. split; lia.
    + destruct (IH count (failed ++ [(request_id r, message)]) w1)
        as (c' & f' & w' & -> & Hle & Hlen).
      exists c', f', w'. split; [reflexivity|].
      rewrite length_app in Hlen. cbn [List.length] in *. split; lia.
Qed.

(** X19.  [bulk_simple_assign] never raises.  When its query fails it
    reports an error and the store is as it was; when the query finds no
    unassigned open ticket it says so and the store is as it was; otherwise
    every ticket the query found is either counted as assigned or listed as
    failed. *)
Theorem bulk_simple_assign_report d now fs :
  bulk_simple_assign (mkWorld d now (true :: fs)) = (Ok ReportError, mkWorld d now fs)
  /\ (select_unassigned d = [] ->
      bulk_simple_assign (mkWorld d now (false :: fs))
      = (Ok (Report "No unassigned requests found" 0 []), mkWorld d now fs))
  /\ (select_unassigned d <> [] ->
      exists count failed w',
        bulk_simple_assign (mkWorld d now (false :: fs))
        = (Ok (Report ("Bulk assignment completed. " ++ str_of_int count
                       ++ " requests assigned.")%string count failed), w')
        /\ 0 <= count
        /\ count + Z.of_nat (List.length failed)
           = Z.of_nat (List.length (select_unassigned d))).
Proof.
  split; [reflexivity|]. split.
  - intros Hempty. unfold bulk_simple_assign, try_except, select, bind, cursor_execute.
    cbn [faults db clock]. rewrite Hempty. reflexivity.
  - intros Hsome. unfold bulk_simple_assign, try_except. unfold bind at 1.
    unfold select, bind at 1, cursor_execute. cbn [faults db clock].
    destruct (select_unassigned d) as [|r rest] eqn:E; [congruence|].
    unfold bind.
    destruct (simple_assign_loop_run (r :: rest) 0 [] (mkWorld d now fs))
      as (count & failed & w' & -> & Hle & Hlen).
    exists count, failed, w'. cbn [fst snd]. split; [reflexivity|].
    cbn [List.length] in *. split; lia.
Qed.

Lemma engine_simple_assign_loop (P : Z -> Prop) requests : forall count failed,
  (forall r, In r requests -> P (request_id r)) ->
  stable (engine_step P) (simple_assign_loop requests count failed).
Proof.
  pose proof (engine_step_refl P) as Hrefl.
  pose proof (engine_step_trans P) as Htrans.
  induction requests as [|r rest IH]; intros count failed HP; cbn [simple_assign_loop].
  - now apply stable_ret.
  - assert (Hrest : forall r', In r' rest -> P (request_id r'))
      by (intros r' Hr'; apply HP; now right).
    apply stable_bind; auto.
    + apply (stable_mono (engine_step (eq (request_id r)))).
      * intros d d'. apply engine_step_mono. intros rid <-. apply HP. now left.
      * apply engine_simple_auto_assign.
    + intros [[[|] tid] message]; now apply IH.
Qed.

(** The run of [bulk_simple_assign] after its query: the loop over the rows
    found in the store it started from. *)
Lemma bulk_simple_assign_run w :
  (exists w1, bulk_simple_assign w = (Ok ReportError, w1) /\ db w1 = db w)
  \/ (exists w1 r w',
         db w1 = db w
         /\ simple_assign_loop (select_unassigned (db w)) 0 [] w1 = (Ok r, w')
         /\ snd (bulk_simple_assign w) = w').
Proof.
  unfold bulk_simple_assign, try_except. unfold bind at 1. unfold bind at 2.
  unfold select, bind, cursor_execute.
  destruct w as [d now [|[|] fs]]; cbn [faults db clock].
  - right. destruct (select_unassigned d) as [|r rest] eqn:E.
    + exists (mkWorld d now []), (0, []), (mkWorld d now []).
      split; [reflexivity|]. split; reflexivity.
    + destruct (simple_assign_loop_run (r :: rest) 0 [] (mkWorld d now []))
        as (c & f & w' & Hrun & _).
      exists (mkWorld d now []), (c, f), w'. rewrite Hrun.
      split; [reflexivity|]. split; reflexivity.
  - left. eexists. split; reflexivity.
  - right. destruct (select_unassigned d) as [|r rest] eqn:E.
    + exists (mkWorld d now fs), (0, []), (mkWorld d now fs).
      split; [reflexivity|]. split; reflexivity.
    + destruct (simple_assign_loop_run (r :: rest) 0 [] (mkWorld d now fs))
        as (c & f & w' & Hrun & _).
      exists (mkWorld d now fs), (c, f), w'. rewrite Hrun.
      split; [reflexivity|]. split; reflexivity.
Qed.

(** X20.  [bulk_simple_assign] only writes to tickets that were unassigned
    and not solved when it started: the users are untouched, no ticket is
    added, removed or re-identified, every ticket whose id is not the id of
    such a ticket is unchanged, notifications are only appended, and known
    statuses stay known. *)
Theorem bulk_simple_assign_frame w :
  engine_step (unassigned_open_id (db w)) (db w) (db (snd (bulk_simple_assign w))).
Proof.
  destruct (bulk_simple_assign_run w)
    as [(w1 & -> & Hdb) | (w1 & r & w' & Hdb & Hloop & ->)].
  - cbn [snd]. rewrite Hdb. apply engine_step_refl.
  - pose proof (engine_simple_assign_loop (unassigned_open_id (db w))
                  (select_unassigned (db w)) 0 []) as Hs.
    rewrite <- Hdb at 2. specialize (Hs ltac:(
      intros t Ht; apply select_unassigned_In in Ht;
      exists t; tauto) w1).
    now rewrite Hloop in Hs.
Qed.

Lemma simple_auto_assign_result reqs r w :
  In r reqs ->
  batch_result reqs (db w) (db (snd (simple_auto_assign (request_id r) (priority r) w))).
Proof.
  intros Hr. unfold simple_auto_assign, try_except. unfold bind at 1.
  destruct (get_available_technicians_pool (priority r) w)
    as (pool & w1 & -> & Hdb & _ & _ & Hpool & _).
  destruct pool as [|t0 rest].
  { cbn. rewrite Hdb. apply batch_result_refl. }
  unfold bind at 1.
  destruct (simple_loop_run (t0 :: rest) None 999 w1 ltac:(lia))
    as (best & lo & w2 & -> & Hdb2 & _ & Hbest).
  cbn [fst snd].
  destruct Hbest as [[-> ->] | (u & Hu & -> & _)].
  { cbn. rewrite Hdb2, Hdb. apply batch_result_refl. }
  destruct (Hpool u Hu) as [Hin Hel].
  assert (Hin2 : In u (users (db w2))) by (rewrite Hdb2, Hdb; exact Hin).
  pose proof (update_assigns reqs r u w2 Hr Hin2 Hel) as Hupd.
  rewrite Hdb2, Hdb in Hupd. unfold bind.
  destruct (update_help_request_status (request_id r) "assigned" (Some (user_id u))
              (Some (priority r)) false w2) as [[[|]|] w']; exact Hupd.
Qed.

Lemma simple_assign_loop_result reqs requests : forall count failed w,
  (forall r, In r requests -> In r reqs) ->
  batch_result reqs (db w) (db (snd (simple_assign_loop requests count failed w))).
Proof.
  induction requests as [|r rest IH]; intros count failed w Hin;
    cbn [simple_assign_loop].
  - apply batch_result_refl.
  - unfold bind.
    pose proof (simple_auto_assign_result reqs r w (Hin r (or_introl eq_refl))) as Hstep.
    assert (Hrest : forall r', In r' rest -> In r' reqs)
      by (intros r' Hr'; apply Hin; now right).
    destruct (simple_auto_assign (request_id r) (priority r) w)
      as [[[[success tid] message]|] w1]; cbn [snd] in *; [|exact Hstep].
    apply batch_result_trans with (db w1); [exact Hstep|].
    destruct success; now apply IH.
Qed.

(** X21.  After a run of [bulk_simple_assign] every ticket is either
    exactly as it was, or assigned: its status is [assigned], it keeps the
    priority that a ticket with its id, unassigned and not solved, had at the
    start, and it is held by an active user whose role may take that
    priority; a ["high"] ticket is assigned here too, to an active super
    admin. *)
Theorem bulk_simple_assign_result w :
  batch_result (select_unassigned (db w)) (db w) (db (snd (bulk_simple_assign w))).
Proof.
  destruct (bulk_simple_assign_run w)
    as [(w1 & -> & Hdb) | (w1 & r & w' & Hdb & Hloop & ->)].
  - cbn [snd]. rewrite Hdb. apply batch_result_refl.
  - pose proof (simple_assign_loop_result (select_unassigned (db w))
                  (select_unassigned (db w)) 0 [] w1 (fun r H => H)) as Hres.
    rewrite Hloop, Hdb in Hres. exact Hres.
Qed.

(** ** The dashboard *)

Lemma active_load_counts tid rows :
  count_where (fun r => String.eqb (status r) "assigned") (filter (is_active_load tid) rows)
  + count_where (fun r => String.eqb (status r) "blocked") (filter (is_active_load tid) rows)
  = count_where (fun _ => true) (filter (is_active_load tid) rows)
  /\ 0 <= count_where (fun r => String.eqb (priority r) "urgent")
                      (filter (is_active_load tid) rows)
       <= count_where (fun _ => true) (filter (is_active_load tid) rows).
Proof.
  unfold count_where.
  induction rows as [|r rows IH]; cbn [filter]; [cbn; lia|].
  destruct (is_active_load tid r) eqn:Hact; [|exact IH].
  unfold is_active_load in Hact. apply andb_true_iff in Hact. destruct Hact as [_ Hst].
  cbn [str_in] in Hst. rewrite orb_false_r in Hst.
  cbn [filter].
  destruct (String.eqb_spec (status r) "assigned") as [E|E].
  - rewrite E. cbn [String.eqb Ascii.eqb Bool.eqb andb].
    destruct (String.eqb (priority r) "urgent"); cbn [List.length]; lia.
  - cbn [orb] in Hst. rewrite Hst.
    destruct (String.eqb (priority r) "urgent"); cbn [List.length]; lia.
Qed.

Lemma count_all tid d :
  count_where (fun _ => true) (filter (is_active_load tid) (help_requests d))
  = active_count_of d tid.
Proof.
  unfold count_where, active_count_of.
  induction (filter (is_active_load tid) (help_requests d)) as [|r l IH];
    [reflexivity|].
  cbn [filter]. cbn [List.length] in *. lia.
Qed.

Lemma select_run {A} (q : database -> A) w :
  exists w', db w' = db w
             /\ (select q w = (Raised, w') \/ select q w = (Ok (q (db w)), w')).
Proof.
  unfold select, bind, cursor_execute.
  destruct (faults w) as [|[|] fs]; eexists; (split; [|auto]); reflexivity.
Qed.

Lemma sound_row_built d t n :
  In t (users d) -> eligible "medium" t ->
  n = 999 \/ n = active_count_of d (user_id t) ->
  sound_row d
    (let '(total, active, blocked, urgent) := select_stats (user_id t) d in
     mkRow (user_id t) (first_name t ++ " " ++ last_name t)%string
           (platform_role t) n total active blocked urgent).
Proof.
  intros Hin Hel Hn. unfold select_stats.
  destruct (active_load_counts (user_id t) (help_requests d)) as [Hsum Hurg].
  unfold sound_row. cbn [total_assigned active_count blocked_count urgent_count
                          workload_score technician_id role].
  split; [lia|]. split; [exact Hurg|]. split; [apply count_all|]. split.
  - destruct Hn as [-> | ->]; [now right | left]. symmetry. apply count_all.
  - exists t. auto.
Qed.

Lemma dashboard_loop_run technicians : forall data w,
  (forall t, In t technicians -> In t (users (db w)) /\ eligible "medium" t) ->
  Forall (sound_row (db w)) data ->
  (exists w', dashboard_loop technicians data w = (Raised, w') /\ db w' = db w)
  \/ (exists rows w',
         dashboard_loop technicians data w = (Ok (data ++ rows), w')
         /\ db w' = db w
         /\ Forall (sound_row (db w)) rows
         /\ map technician_id rows = map user_id technicians).
Proof.
  induction technicians as [|t rest IH]; intros data w Hstaff Hdata;
    cbn [dashboard_loop].
  - right. exists [], w. rewrite app_nil_r. cbn. auto.
  - unfold bind.
    destruct (current_workload_run (user_id t) w) as (n & w1 & Hcw & Hdb & _ & Hn).
    rewrite Hcw. cbv beta iota.
    destruct (select_run (select_stats (user_id t)) w1) as (w2 & Hdb2 & [Hs | Hs]);
      rewrite Hs; cbv beta iota.
    + left. exists w2. split; [reflexivity | congruence].
    + destruct (Hstaff t (or_introl eq_refl)) as [Hin Hel].
      pose proof (sound_row_built (db w) t n Hin Hel Hn) as Hrow.
      rewrite Hdb.
      destruct (select_stats (user_id t) (db w)) as [[[total active] blocked] urgent].
      cbv beta iota.
      destruct (IH (data ++ [mkRow (user_id t) (first_name t ++ " " ++ last_name t)%string
                                   (platform_role t) n total active blocked urgent]) w2)
        as [(w' & Hrun & Hdb') | (rows & w' & Hrun & Hdb' & Hrows & Hids)].
      * intros t' Ht'. replace (db w2) with (db w) by congruence. apply Hstaff. now right.
      * replace (db w2) with (db w) by congruence.
        apply Forall_app. split; [exact Hdata|]. constructor; [exact Hrow | constructor].
      * left. exists w'. split; [exact Hrun | congruence].
      * right.
        exists (mkRow (user_id t) (first_name t ++ " " ++ last_name t)%string
                      (platform_role t) n total active blocked urgent :: rows), w'.
        rewrite Hrun, <- app_assoc. cbn [app].
        split; [reflexivity|]. split; [congruence|]. split.
        -- constructor; [exact Hrow|]. now replace (db w) with (db w2) by congruence.
        -- cbn [map technician_id]. f_equal. exact Hids.
Qed.

Lemma by_workload_score_sorted rows :
  StronglySorted (fun a b => workload_score a <= workload_score b)
                 (sort_by by_workload_score rows).
Proof.
  apply sort_by_sorted; unfold by_workload_score; intros; lia.
Qed.

Lemma sound_rows_sorted d rows :
  Forall (sound_row d) rows -> Forall (sound_row d) (sort_by by_workload_score rows).
Proof.
  intros H. eapply Permutation_Forall; [|exact H]. symmetry. apply sort_by_perm.
Qed.

(** X22 ([get_simple_workload_dashboard]).  On any connection the
    dashboard returns a list and never raises, and it leaves the store as
    it was.  The list is in ascending order of [workload_score].  Every
    entry is about an active user of the store whose role is super admin
    or support technician; its [total_assigned] is the number of tickets
    assigned or blocked to that user, and is the sum of [active_count] and
    [blocked_count]; its [urgent_count] is between 0 and [total_assigned];
    its [workload_score] is [total_assigned], or 999 when the count could
    not be read.  Unless the list is empty, the technicians listed are
    those of the eligible pool, each as often as the pool has it. *)
Theorem get_simple_workload_dashboard_rows w :
  exists rows w',
    get_simple_workload_dashboard w = (Ok rows, w')
    /\ db w' = db w
    /\ StronglySorted (fun a b => workload_score a <= workload_score b) rows
    /\ Forall (sound_row (db w)) rows
    /\ (rows = []
        \/ Permutation (map technician_id rows)
                       (map user_id (select_technicians (roles_for "medium") (db w)))).
Proof.
  assert (Hempty : forall w0 : world, db w0 = db w ->
            exists rows w',
              (@Ok (list workload_row) [], w0) = (Ok rows, w')
              /\ db w' = db w
              /\ StronglySorted (fun a b => workload_score a <= workload_score b) rows
              /\ Forall (sound_row (db w)) rows
              /\ (rows = []
                  \/ Permutation (map technician_id rows)
                       (map user_id (select_technicians (roles_for "medium") (db w))))).
  { intros w0 H0. exists [], w0. repeat split; auto; constructor. }
  unfold get_simple_workload_dashboard, try_except, bind.
  destruct (get_available_technicians_run "medium" w) as (w1 & _ & Hdb1 & [Hrun | Hrun]);
    rewrite Hrun; cbv beta iota.
  - destruct (dashboard_loop_run (select_technicians (roles_for "medium") (db w)) [] w1)
      as [(w2 & Hloop & Hdb2) | (rows & w2 & Hloop & Hdb2 & Hrows & Hids)].
    + intros t Ht. rewrite Hdb1. split.
      * unfold select_technicians in Ht. apply sort_by_In in Ht.
        apply filter_In in Ht. tauto.
      * now apply select_technicians_eligible in Ht.
    + constructor.
    + rewrite Hloop. unfold ret. apply Hempty. congruence.
    + rewrite Hloop. cbn [app]. unfold ret.
      exists (sort_by by_workload_score rows), w2.
      split; [reflexivity|]. split; [congruence|].
      split; [apply by_workload_score_sorted|].
      split; [apply sound_rows_sorted; now rewrite <- Hdb1|].
      right. rewrite <- Hids. apply Permutation_map. apply sort_by_perm.
  - destruct (dashboard_loop_run [] [] w1)
      as [(w2 & Hloop & Hdb2) | (rows & w2 & Hloop & Hdb2 & Hrows & Hids)].
    + intros t [].
    + constructor.
    + rewrite Hloop. unfold ret. apply Hempty. congruence.
    + rewrite Hloop. cbn [app]. unfold ret.
      exists (sort_by by_workload_score rows), w2.
      split; [reflexivity|]. split; [congruence|].
      split; [apply by_workload_score_sorted|].
      split; [apply sound_rows_sorted; now rewrite <- Hdb1|].
      left. destruct rows; [reflexivity | discriminate].
Qed.

(** ** The staff list of the assignment dropdown *)

Lemma case_role_rank u :
  case_role (platform_role u) = None
  \/ case_role (platform_role u) = Some 1
  \/ case_role (platform_role u) = Some 2.
Proof.
  unfold case_role.
  destruct (String.eqb (platform_role u) "super_admin"); auto.
  destruct (String.eqb (platform_role u) "support_technician"); auto.
Qed.

Lemma by_role_then_name_sorted collate l :
  StronglySorted (fun a b => role_rank a <= role_rank b)
                 (sort_by (by_role_then_name collate) l).
Proof.
  apply sort_by_sorted.
  - intros; lia.
  - intros x y. unfold by_role_then_name, role_rank.
    destruct (case_role_rank x) as [-> | [-> | ->]];
      destruct (case_role_rank y) as [-> | [-> | ->]]; cbn; intros; try lia;
      discriminate.
  - intros x y. unfold by_role_then_name, role_rank.
    destruct (case_role_rank x) as [-> | [-> | ->]];
      destruct (case_role_rank y) as [-> | [-> | ->]]; cbn; intros; try lia;
      discriminate.
Qed.

Lemma get_support_staff_run collate priority w :
  let p := match priority with Some p => p | None => "medium"%string end in
  exists staff w',
    get_support_staff collate priority w = (Ok staff, w')
    /\ db w' = db w
    /\ (staff = [] \/
        staff = sort_by (if String.eqb p "high" then by_name collate
                         else by_role_then_name collate)
                        (filter (fun u => str_in (platform_role u) (roles_for p)
                                          && is_active u) (users (db w)))).
Proof.
  intros p. unfold get_support_staff, try_except, select, bind, cursor_execute, ret.
  unfold roles_for. subst p.
  destruct priority as [p|]; [destruct (String.eqb p "high")|];
    destruct (faults w) as [|[|] fs]; cbn [db fst snd];
    do 2 eexists; (split; [reflexivity|]); cbn [db]; auto.
Qed.

(** X23 ([get_support_staff], [get_available_technicians]).  The staff
    list offered for a ticket of a given priority has the members of the
    pool of the assignment engine for that priority, in another order:
    on any connection, and for any collation of the name columns, the two
    reads either both fail to an empty list or return permutations of one
    another, and both leave the store as it was.  Without a priority
    the staff list is that of a priority other than high. *)
Theorem get_support_staff_is_the_pool collate priority w :
  let p := match priority with Some p => p | None => "medium"%string end in
  exists staff pool w',
    get_support_staff collate priority w = (Ok staff, w')
    /\ get_available_technicians p w = (Ok pool, w')
    /\ Permutation staff pool
    /\ db w' = db w.
Proof.
  intros p. unfold get_support_staff, get_available_technicians, select_technicians,
    try_except, select, bind, cursor_execute, ret. subst p.
  destruct priority as [p|];
    [destruct (String.eqb p "high")
    | change (String.eqb "medium" "high") with false; cbv beta iota];
    destruct (faults w) as [|[|] fs]; cbn [db fst snd];
    do 3 eexists; (split; [reflexivity|]); (split; [reflexivity|]);
    (split; [|reflexivity]);
    try (constructor; fail);
    (etransitivity; [apply sort_by_perm | symmetry; apply sort_by_perm]).
Qed.

(** X24 ([get_support_staff]).  Whatever the collation of the names, the
    staff list puts the super admins first: once a support technician
    appears, every later entry is a support technician.  Every entry is an
    active user of the store with one of the two roles, and a super admin
    when the priority is high. *)
Theorem get_support_staff_order collate priority w staff w' :
  get_support_staff collate priority w = (Ok staff, w') ->
  StronglySorted (fun a b => platform_role a = "support_technician"%string
                             -> platform_role b = "support_technician"%string) staff
  /\ Forall (fun u => In u (users (db w))
                      /\ eligible (match priority with
                                   | Some p => p | None => "medium"%string end) u)
            staff.
Proof.
  intros Hrun.
  destruct (get_support_staff_run collate priority w) as (staff0 & w0 & Hrun0 & _ & Hst).
  rewrite Hrun in Hrun0. injection Hrun0 as <- <-.
  destruct Hst as [-> | ->]; [split; constructor|].
  set (p := match priority with Some p => p | None => "medium"%string end).
  split.
  - destruct (String.eqb p "high") eqn:Hp.
    + apply String.eqb_eq in Hp.
      assert (Hall : Forall (fun u => platform_role u = "super_admin"%string)
                (sort_by (by_name collate)
                   (filter (fun u => str_in (platform_role u) (roles_for p) && is_active u)
                           (users (db w))))).
      { apply Forall_forall. intros u Hu. apply sort_by_In, filter_In in Hu.
        destruct Hu as [_ Hu]. apply andb_true_iff in Hu. destruct Hu as [Hu _].
        rewrite Hp in Hu. cbn in Hu. rewrite orb_false_r in Hu.
        now apply String.eqb_eq in Hu. }
      induction Hall as [|u l Hu Hl IH]; constructor; [exact IH|].
      apply Forall_forall. intros v _ Hv. rewrite Hu in Hv. discriminate.
    + pose proof (by_role_then_name_sorted collate
        (filter (fun u => str_in (platform_role u) (roles_for p) && is_active u)
                (users (db w)))) as Hs.
      induction Hs as [|u l Hs IH Hall]; constructor; [exact IH|].
      eapply Forall_impl; [|exact Hall]. cbv beta. intros v Hle Hu.
      unfold role_rank, case_role in Hle. rewrite Hu in Hle. cbn in Hle.
      destruct (String.eqb (platform_role v) "super_admin"); [lia|].
      destruct (String.eqb_spec (platform_role v) "support_technician"); [assumption | lia].
  - apply Forall_forall. intros u Hu.
    apply (select_technicians_eligible p (db w) u).
    apply select_technicians_In.
    apply sort_by_In, filter_In in Hu. destruct Hu as [Hin Hu].
    apply andb_true_iff in Hu. tauto.
Qed.

Lemma get_support_staff_order_witness :
  StronglySorted (fun a b => platform_role a = "support_technician"%string
                             -> platform_role b = "support_technician"%string)
                 [sam; alice]
  /\ Forall (fun u => In u (users (db busy_world)) /\ eligible "medium" u) [sam; alice].
Proof.
  apply (get_support_staff_order (fun _ _ => Eq) None busy_world [sam; alice] busy_world).
  vm_compute. reflexivity.
Defined.

(** ** The routes that take and release a ticket *)

Lemma update_effect rid st a p bypass w :
  exists b w',
    update_help_request_status rid st a p bypass w = (Ok b, w')
    /\ (db w' = db w
        \/ ticket_has (db w') rid (fun t => status t = st /\ assigned_to t = a)).
Proof.
  destruct (update_run rid st a p bypass w)
    as (b & w' & Hrun & [(_ & Hdb & _) | (info & w3 & r & _ & _ & Hdb3 & Hn & _)]);
    exists b, w'; (split; [exact Hrun|]); [now left | right].
  pose proof (keeps_notify_changes rid info st a p w3) as (Hrows & _ & _).
  rewrite Hn in Hrows. cbn [snd] in Hrows.
  intros t Hin Hid. rewrite Hrows, Hdb3 in Hin. cbn [help_requests] in Hin.
  apply update_rows_In in Hin. destruct Hin as (t0 & _ & ->).
  destruct (request_id t0 =? rid) eqn:E.
  - pose proof (applied_fields st a p (clock w) t0) as (_ & Hst & Ha & _).
    split; assumption.
  - apply Z.eqb_neq in E. contradiction.
Qed.

Lemma gate_cases allowed s (f : M (list (string * string) * endpoint)) w :
  (logged_in_as s allowed
   /\ require_platform_role allowed s f w
      = (r <- f ;; ret (mkResponse (fst r) (redirect (snd r)) true)) w)
  \/ (~ logged_in_as s allowed
      /\ exists r, require_platform_role allowed s f w = (Ok r, w)
                   /\ flashed r = []
                   /\ (body r = redirect login \/ body r = access_denied)).
Proof.
  unfold require_platform_role, logged_in_as, is_user_logged_in,
    get_current_platform_role, role_in.
  destruct (loggedin s); cbn [negb].
  - destruct (session_platform_role s) as [r|].
    + destruct (str_in r allowed) eqn:E; cbn [negb].
      * left. split; [|reflexivity]. split; [reflexivity|].
        exists r. split; [reflexivity | now apply str_in_iff].
      * right. split.
        -- intros (_ & r' & Hr & Hin). injection Hr as <-.
           apply str_in_iff in Hin. congruence.
        -- eexists. split; [reflexivity|]. cbn. auto.
    + right. split.
      * intros (_ & r' & Hr & _). discriminate.
      * eexists. split; [reflexivity|]. cbn. auto.
  - right. split.
    + intros (H & _). discriminate.
    + eexists. split; [reflexivity|]. cbn. auto.
Qed.

Lemma read_then {A} rid (k : option help_request -> M A) (h : M A) w :
  exists w1,
    db w1 = db w
    /\ (try_except (request <- select (select_request_row rid) ;; k request) h w = h w1
        \/ try_except (request <- select (select_request_row rid) ;; k request) h w
           = try_except (k (select_request_row rid (db w))) h w1).
Proof.
  destruct (select_run (select_request_row rid) w) as (w1 & Hdb & [Hs | Hs]);
    exists w1; (split; [exact Hdb|]); [left | right];
    unfold try_except, bind; rewrite Hs; reflexivity.
Qed.

Lemma update_then {A} rid st a p bypass (k : bool -> M A) (h : M A) w :
  bypass = false \/ In st HELP_REQUEST_STATUSES ->
  exists b w',
    try_except (success <- update_help_request_status rid st a p bypass ;; k success) h w
    = try_except (k b) h w'
    /\ engine_step (eq rid) (db w) (db w')
    /\ (db w' = db w
        \/ ticket_has (db w') rid (fun t => status t = st /\ assigned_to t = a)).
Proof.
  intros Hok.
  destruct (update_effect rid st a p bypass w) as (b & w' & Hrun & Heff).
  exists b, w'. split; [|split; [|exact Heff]].
  - unfold try_except, bind. rewrite Hrun. reflexivity.
  - pose proof (engine_update_help_request_status rid st a p bypass Hok w) as H.
    rewrite Hrun in H. exact H.
Qed.

Lemma engine_step_same touched d d' :
  d' = d -> engine_step touched d d'.
Proof. intros ->. apply engine_step_refl. Qed.

Lemma opt_Z_eqb_true a b : opt_Z_eqb a b = true -> a = b.
Proof.
  destruct a, b; cbn; try discriminate; auto.
  intros H. apply Z.eqb_eq in H. now subst.
Qed.

Lemma valid_to_assigned current_status :
  is_valid_status_transition current_status "assigned" = true ->
  current_status = "new"%string \/ current_status = "blocked"%string.
Proof.
  unfold is_valid_status_transition, get_valid_status_transitions, status_transitions.
  cbn [dict_get].
  destruct (String.eqb_spec current_status "new"); [auto|].
  destruct (String.eqb_spec current_status "assigned"); [subst; cbn; discriminate|].
  destruct (String.eqb_spec current_status "blocked"); [auto|].
  destruct (String.eqb_spec current_status "solved"); cbn; discriminate.
Qed.

Lemma valid_to_new current_status :
  is_valid_status_transition current_status "new" = true ->
  current_status = "assigned"%string \/ current_status = "blocked"%string.
Proof.
  unfold is_valid_status_transition, get_valid_status_transitions, status_transitions.
  cbn [dict_get].
  destruct (String.eqb_spec current_status "new"); [subst; cbn; discriminate|].
  destruct (String.eqb_spec current_status "assigned"); [auto|].
  destruct (String.eqb_spec current_status "blocked"); [auto|].
  destruct (String.eqb_spec current_status "solved"); cbn; discriminate.
Qed.

Ltac route_refuses Hdb1 :=
  unfold try_except, ret; do 2 eexists;
  split; [reflexivity|];
  split; [apply engine_step_same; exact Hdb1 | left; exact Hdb1].

Ltac route_reads rid w w1 Hdb1 :=
  match goal with
  | |- context [try_except (bind (select (select_request_row rid)) ?k) ?h w] =>
      let E := fresh "E" in
      destruct (read_then rid k h w) as (w1 & Hdb1 & [E | E]); rewrite E; clear E
  end.

Lemma take_request_view_run s rid w :
  exists x w',
    take_request_view s rid w = (Ok x, w')
    /\ engine_step (eq rid) (db w) (db w')
    /\ (db w' = db w
        \/ ((exists request,
                select_request_row rid (db w) = Some request
                /\ (truthy_id (assigned_to request) = false
                    \/ assigned_to request = session_user_id s)
                /\ (priority request = "high"%string
                    -> session_platform_role s = Some "super_admin"%string)
                /\ (status request = "new"%string \/ status request = "blocked"%string))
            /\ ticket_has (db w') rid
                 (fun t => status t = "assigned"%string
                           /\ assigned_to t = session_user_id s))).
Proof.
  unfold take_request_view, get_current_user_id, get_current_platform_role. cbv zeta.
  route_reads rid w w1 Hdb1; [route_refuses Hdb1|].
  destruct (select_request_row rid (db w)) as [request|] eqn:Hrow; [|route_refuses Hdb1].
  destruct (truthy_id (assigned_to request)
            && opt_Z_neqb (assigned_to request) (session_user_id s)) eqn:G1;
    [route_refuses Hdb1|].
  destruct (String.eqb (priority request) "high"
            && negb (role_in (session_platform_role s) ["super_admin"])) eqn:G2;
    [route_refuses Hdb1|].
  destruct (is_valid_status_transition (status request) "assigned") eqn:G3; cbn [negb];
    [|route_refuses Hdb1].
  match goal with
  | |- context [try_except (bind (update_help_request_status ?r ?st ?a ?p ?b) ?k) ?h w1] =>
      destruct (update_then r st a p b k h w1 (or_introl eq_refl))
        as (b0 & w' & E & Heng & Heff); rewrite E; clear E
  end.
  assert (Hres : exists x, try_except
            (if b0
             then ret ([("Request assigned to you"%string, "success"%string)],
                       view_help_request rid)
             else ret ([("Failed to assign request"%string, "error"%string)],
                       view_help_request rid))
            (ret ([("An error occurred while assigning the request"%string,
                    "error"%string)], view_help_request rid)) w' = (Ok x, w')).
  { destruct b0; eexists; reflexivity. }
  destruct Hres as (x & ->). exists x, w'. split; [reflexivity|].
  rewrite Hdb1 in Heng. split; [exact Heng|].
  destruct Heff as [Heff | Heff]; [left; congruence | right].
  split; [|exact Heff].
  exists request. split; [reflexivity|]. split; [|split].
  - apply andb_false_iff in G1. destruct G1 as [G1 | G1]; [now left | right].
    unfold opt_Z_neqb in G1. apply negb_false_iff in G1. now apply opt_Z_eqb_true.
  - intros Hp. apply andb_false_iff in G2. destruct G2 as [G2 | G2].
    + rewrite Hp in G2. discriminate.
    + apply negb_false_iff in G2. unfold role_in in G2.
      destruct (session_platform_role s) as [r|]; [|discriminate].
      cbn in G2. rewrite orb_false_r in G2. apply String.eqb_eq in G2. now subst.
  - now apply valid_to_assigned.
Qed.

Lemma gate_then allowed s (f : M (list (string * string) * endpoint)) w x w'
    (P : Prop) :
  f w = (Ok x, w') ->
  (logged_in_as s allowed -> db w' = db w \/ P) ->
  exists r w2,
    require_platform_role allowed s f w = (Ok r, w2)
    /\ (db w2 = db w' \/ db w2 = db w)
    /\ (db w2 = db w \/ (logged_in_as s allowed /\ w2 = w' /\ P)).
Proof.
  intros Hf HP.
  destruct (gate_cases allowed s f w) as [(Hin & E) | (Hout & r & E & _)]; rewrite E.
  - unfold bind, ret. rewrite Hf. do 2 eexists. split; [reflexivity|].
    split; [now left|]. destruct (HP Hin) as [H | H]; [now left | right; auto].
  - exists r, w. split; [reflexivity|]. split; [now right | now left].
Qed.

(** X25 ([take_request] under [require_platform_role]).  The route
    never raises and only ever writes to the ticket it is given.  It
    leaves the store as it was unless the session is logged in as a super
    admin or a support technician and the row read for the ticket is not
    held by somebody else, is ["high"] only for a super admin, and is
    [new] or [blocked]; a ticket that is already [assigned], even to the
    caller, or [solved], is refused.  When the store changes, the ticket is
    [assigned] and held by the user of the session. *)
Theorem take_request_effect s rid w :
  exists r w',
    take_request s rid w = (Ok r, w')
    /\ engine_step (eq rid) (db w) (db w')
    /\ (db w' = db w
        \/ (may_take s (db w) rid
            /\ ticket_has (db w') rid
                 (fun t => status t = "assigned"%string
                           /\ assigned_to t = session_user_id s))).
Proof.
  destruct (take_request_view_run s rid w) as (x & w1 & Hrun & Heng & Heff).
  unfold take_request.
  destruct (gate_then ["super_admin"; "support_technician"]%string s _ w x w1 _ Hrun
              (fun _ => Heff))
    as (r & w2 & E & Hdb & Hres).
  exists r, w2. split; [exact E|]. split.
  - destruct Hdb as [Hdb | Hdb]; [now rewrite Hdb | now apply engine_step_same].
  - destruct Hres as [Hres | (Hin & -> & (request & Hg) & Hafter)]; [now left | right].
    split; [|exact Hafter]. split; [exact Hin|]. exists request. exact Hg.
Qed.

Lemma has_super_admin_permission s :
  has_platform_permission s "super_admin" = true ->
  session_platform_role s = Some "super_admin"%string.
Proof.
  unfold has_platform_permission, is_user_logged_in, get_current_platform_role,
    platform_hierarchy.
  destruct (loggedin s); [|discriminate]. cbn [negb].
  destruct (session_platform_role s) as [r|]; [|discriminate].
  cbn [dict_get].
  destruct (String.eqb_spec r "super_admin"); [now subst|].
  repeat match goal with
         | |- context [String.eqb ?a ?b] => destruct (String.eqb a b)
         end; cbn; discriminate.
Qed.

Ltac route_updates w1 w' Heng Heff Hok :=
  match goal with
  | |- context [try_except (bind (update_help_request_status ?r ?st ?a ?p ?b) ?k) ?h w1] =>
      let E := fresh "E" in
      destruct (update_then r st a p b k h w1 (or_intror Hok))
        as (? & w' & E & Heng & Heff); rewrite E; clear E
  end.

Lemma drop_request_view_run s rid w :
  exists x w',
    drop_request_view s rid w = (Ok x, w')
    /\ engine_step (eq rid) (db w) (db w')
    /\ (db w' = db w
        \/ ((exists request,
                select_request_row rid (db w) = Some request
                /\ truthy_id (assigned_to request) = true
                /\ (assigned_to request = session_user_id s
                    \/ session_platform_role s = Some "super_admin"%string)
                /\ In (status request) ["new"; "assigned"; "blocked"]%string)
            /\ released (db w') rid)).
Proof.
  assert (Hnew : In "new"%string HELP_REQUEST_STATUSES) by (cbn; auto).
  unfold drop_request_view, get_current_user_id. cbv zeta.
  route_reads rid w w1 Hdb1; [route_refuses Hdb1|].
  destruct (select_request_row rid (db w)) as [request|] eqn:Hrow; [|route_refuses Hdb1].
  destruct (truthy_id (assigned_to request)) eqn:G1; cbn [negb]; [|route_refuses Hdb1].
  destruct (opt_Z_neqb (assigned_to request) (session_user_id s)
            && negb (has_platform_permission s "super_admin")) eqn:G2;
    [route_refuses Hdb1|].
  assert (Hwho : assigned_to request = session_user_id s
                 \/ session_platform_role s = Some "super_admin"%string).
  { apply andb_false_iff in G2. destruct G2 as [G2 | G2]; [left | right].
    - unfold opt_Z_neqb in G2. apply negb_false_iff in G2. now apply opt_Z_eqb_true.
    - apply negb_false_iff in G2. now apply has_super_admin_permission. }
  clear G2.
  destruct (String.eqb (status request) "solved") eqn:G3; [route_refuses Hdb1|].
  destruct (String.eqb_spec (status request) "new") as [G4 | G4].
  - rewrite G4.
    route_updates w1 w' Heng Heff Hnew.
    unfold try_except, ret. do 2 eexists. split; [reflexivity|].
    rewrite Hdb1 in Heng. split; [exact Heng|].
    destruct Heff as [Heff | Heff]; [left; congruence | right].
    split; [|exact Heff].
    exists request. split; [reflexivity|]. split; [exact G1|]. split; [exact Hwho|].
    rewrite G4. cbn. auto.
  - destruct (is_valid_status_transition (status request) "new") eqn:G5; cbn [negb];
      [|route_refuses Hdb1].
    route_updates w1 w' Heng Heff Hnew.
    unfold try_except, ret. do 2 eexists. split; [reflexivity|].
    rewrite Hdb1 in Heng. split; [exact Heng|].
    destruct Heff as [Heff | Heff]; [left; congruence | right].
    split; [|exact Heff].
    exists request. split; [reflexivity|]. split; [exact G1|]. split; [exact Hwho|].
    apply valid_to_new in G5. destruct G5 as [-> | ->]; cbn; auto.
Qed.

Lemma unassign_request_view_run s rid w :
  exists x w',
    unassign_request_view s rid w = (Ok x, w')
    /\ engine_step (eq rid) (db w) (db w')
    /\ (db w' = db w
        \/ ((exists request,
                select_request_row rid (db w) = Some request
                /\ truthy_id (assigned_to request) = true
                /\ status request <> "solved"%string)
            /\ released (db w') rid)).
Proof.
  assert (Hnew : In "new"%string HELP_REQUEST_STATUSES) by (cbn; auto).
  unfold unassign_request_view.
  route_reads rid w w1 Hdb1; [route_refuses Hdb1|].
  destruct (select_request_row rid (db w)) as [request|] eqn:Hrow; [|route_refuses Hdb1].
  destruct (truthy_id (assigned_to request)) eqn:G1; cbn [negb]; [|route_refuses Hdb1].
  destruct (String.eqb_spec (status request) "solved") as [G3 | G3];
    [route_refuses Hdb1|].
  route_updates w1 w' Heng Heff Hnew.
  unfold try_except, ret. do 2 eexists. split; [reflexivity|].
  rewrite Hdb1 in Heng. split; [exact Heng|].
  destruct Heff as [Heff | Heff]; [left; congruence | right].
  split; [|exact Heff].
  exists request. repeat split; auto.
Qed.

(** X26 ([drop_request] under [require_platform_role]).  The route never
    raises and only ever writes to the ticket it is given.  It leaves the
    store as it was unless the session is logged in as a super admin or a
    support technician, the row read for the ticket is assigned, to the
    caller unless the caller is a super admin, and its status is [new],
    [assigned] or [blocked]: nobody releases a [solved] ticket here, and a
    support technician never releases the ticket of a colleague.  When
    the store changes, the ticket is [new] and unassigned. *)
Theorem drop_request_effect s rid w :
  exists r w',
    drop_request s rid w = (Ok r, w')
    /\ engine_step (eq rid) (db w) (db w')
    /\ (db w' = db w \/ (may_drop s (db w) rid /\ released (db w') rid)).
Proof.
  destruct (drop_request_view_run s rid w) as (x & w1 & Hrun & Heng & Heff).
  unfold drop_request.
  destruct (gate_then ["super_admin"; "support_technician"]%string s _ w x w1 _ Hrun
              (fun _ => Heff))
    as (r & w2 & E & Hdb & Hres).
  exists r, w2. split; [exact E|]. split.
  - destruct Hdb as [Hdb | Hdb]; [now rewrite Hdb | now apply engine_step_same].
  - destruct Hres as [Hres | (Hin & -> & (request & Hg) & Hafter)]; [now left | right].
    split; [|exact Hafter]. split; [exact Hin|]. exists request. exact Hg.
Qed.

(** X27 ([unassign_request] under [require_platform_role]).  The route
    never raises and only ever writes to the ticket it is given.  It
    leaves the store as it was unless the session is logged in as a super
    admin and the row read for the ticket is assigned and not [solved];
    a support technician is turned away before anything is read.  When the
    store changes, the ticket is [new] and unassigned. *)
Theorem unassign_request_effect s rid w :
  exists r w',
    unassign_request s rid w = (Ok r, w')
    /\ engine_step (eq rid) (db w) (db w')
    /\ (db w' = db w \/ (may_unassign s (db w) rid /\ released (db w') rid)).
Proof.
  destruct (unassign_request_view_run s rid w) as (x & w1 & Hrun & Heng & Heff).
  unfold unassign_request.
  destruct (gate_then ["super_admin"]%string s _ w x w1 _ Hrun (fun _ => Heff))
    as (r & w2 & E & Hdb & Hres).
  exists r, w2. split; [exact E|]. split.
  - destruct Hdb as [Hdb | Hdb]; [now rewrite Hdb | now apply engine_step_same].
  - destruct Hres as [Hres | (Hin & -> & (request & Hg) & Hafter)]; [now left | right].
    split; [|exact Hafter]. split; [exact Hin|]. exists request. exact Hg.
Qed.

Lemma joined_ticket rid d t u :
  filter (fun r => request_id r =? rid) (help_requests d) = [t] ->
  In u (users d) -> user_id u = owner_id t ->
  exists info, fetchone (select_request_info rid d) = Some info
               /\ old_status info = status t.
Proof.
  intros Hrow Hu Hown. unfold select_request_info. rewrite Hrow. cbn [flat_map].
  rewrite app_nil_r.
  assert (Hin : In u (filter (fun u0 => owner_id t =? user_id u0) (users d))).
  { apply filter_In. split; [exact Hu|]. apply Z.eqb_eq. now symmetry. }
  destruct (filter (fun u0 => owner_id t =? user_id u0) (users d)) as [|u0 rest];
    [destruct Hin|].
  cbn. eexists. split; reflexivity.
Qed.

Lemma fault_free_transition rid st a p bypass w t u :
  faults w = [] ->
  filter (fun r => request_id r =? rid) (help_requests (db w)) = [t] ->
  In u (users (db w)) -> user_id u = owner_id t ->
  passes_validation bypass (status t) st ->
  exists w',
    update_help_request_status rid st a p bypass w = (Ok true, w')
    /\ ticket_has (db w') rid (fun t' => status t' = st /\ assigned_to t' = a).
Proof.
  intros Hf Hrow Hu Hown Hpass.
  destruct (joined_ticket rid (db w) t u Hrow Hu Hown) as (info & Hinfo & Hst).
  rewrite <- Hst in Hpass.
  destruct (fault_free_update_accepts rid st a p bypass w info Hf Hinfo Hpass)
    as (w' & Hrun).
  exists w'. split; [exact Hrun|].
  destruct (accepted_transition_rows rid st a p bypass w w' Hrun) as (_ & Hhas).
  intros t' Hin Hid. destruct (Hhas t' Hin Hid) as (H1 & H2 & _). auto.
Qed.

Lemma opt_Z_eqb_refl a : opt_Z_eqb a a = true.
Proof. destruct a; cbn; [apply Z.eqb_refl | reflexivity]. Qed.

Lemma gate_open allowed s (f : M (list (string * string) * endpoint)) w x w' :
  logged_in_as s allowed ->
  f w = (Ok x, w') ->
  require_platform_role allowed s f w
  = (Ok (mkResponse (fst x) (redirect (snd x)) true), w').
Proof.
  intros Hin Hf.
  destruct (gate_cases allowed s f w) as [(_ & E) | (Hout & _)]; [|contradiction].
  rewrite E. unfold bind, ret. rewrite Hf. reflexivity.
Qed.

(** X28 ([take_request], [update_help_request_status]).  On a connection
    that answers, a logged-in super admin or support technician who takes
    a ticket that exists once, whose owner is a user, that nobody else
    holds, that is [new] or [blocked], and that is not ["high"] unless the
    caller is a super admin, gets it: the route flashes "Request assigned
    to you", redirects to the ticket with the no-cache headers set, and
    the ticket is [assigned] and held by the user of the session. *)
Theorem take_request_succeeds s rid w t u :
  faults w = [] ->
  filter (fun r => request_id r =? rid) (help_requests (db w)) = [t] ->
  In u (users (db w)) -> user_id u = owner_id t ->
  logged_in_as s ["super_admin"; "support_technician"]%string ->
  truthy_id (assigned_to t) = false \/ assigned_to t = session_user_id s ->
  (priority t = "high"%string -> session_platform_role s = Some "super_admin"%string) ->
  status t = "new"%string \/ status t = "blocked"%string ->
  exists w',
    take_request s rid w
    = (Ok (mkResponse [("Request assigned to you"%string, "success"%string)]
                      (redirect (view_help_request rid)) true), w')
    /\ ticket_has (db w') rid
         (fun t' => status t' = "assigned"%string
                    /\ assigned_to t' = session_user_id s).
Proof.
  intros Hf Hrow Hu Hown Hin Hfree Hprio Hst.
  destruct (fault_free_transition rid "assigned" (session_user_id s) None false
              w t u Hf Hrow Hu Hown) as (w' & Hup & Hafter).
  { right. destruct Hst as [-> | ->]; reflexivity. }
  exists w'. split; [|exact Hafter].
  unfold take_request.
  apply (gate_open _ s _ w
           ([("Request assigned to you"%string, "success"%string)], view_help_request rid)
           w' Hin).
  unfold take_request_view, get_current_user_id, get_current_platform_role,
    try_except, bind.
  rewrite (fault_free_select _ w Hf). unfold select_request_row. rewrite Hrow.
  cbn [fetchone hd_error].
  assert (G1 : truthy_id (assigned_to t)
               && opt_Z_neqb (assigned_to t) (session_user_id s) = false).
  { destruct Hfree as [-> | ->]; [reflexivity|].
    unfold opt_Z_neqb. rewrite opt_Z_eqb_refl. apply andb_false_r. }
  rewrite G1.
  assert (G2 : String.eqb (priority t) "high"
               && negb (role_in (session_platform_role s) ["super_admin"]) = false).
  { destruct (String.eqb_spec (priority t) "high") as [Hp | Hp]; [|reflexivity].
    rewrite (Hprio Hp). reflexivity. }
  rewrite G2.
  assert (G3 : is_valid_status_transition (status t) "assigned" = true)
    by (destruct Hst as [-> | ->]; reflexivity).
  rewrite G3. cbn [negb]. rewrite Hup. reflexivity.
Qed.

Lemma take_request_succeeds_witness :
  exists w',
    take_request (mkSession true (Some 1) (Some "support_technician"%string)) 4 busy_world
    = (Ok (mkResponse [("Request assigned to you"%string, "success"%string)]
                      (redirect (view_help_request 4)) true), w')
    /\ ticket_has (db w') 4
         (fun t' => status t' = "assigned"%string /\ assigned_to t' = Some 1).
Proof.
  apply (take_request_succeeds
           (mkSession true (Some 1) (Some "support_technician"%string)) 4 busy_world
           (mkRequest 4 9 "New question" "medium" "new" None 400 None None) olga).
  - reflexivity.
  - reflexivity.
  - simpl. auto.
  - reflexivity.
  - split; [reflexivity|]. exists "support_technician"%string. simpl. auto.
  - left. reflexivity.
  - simpl. discriminate.
  - left. reflexivity.
Defined.

(** X29 ([drop_request], [update_help_request_status]).  On a connection
    that answers, a logged-in super admin or support technician who drops
    a ticket that exists once, whose owner is a user, that is assigned (to
    the caller, unless the caller is a super admin) and [new], [assigned]
    or [blocked], releases it: the route flashes "Request unassigned
    successfully", redirects to the ticket, and the ticket is [new] and
    unassigned. *)
Theorem drop_request_succeeds s rid w t u :
  faults w = [] ->
  filter (fun r => request_id r =? rid) (help_requests (db w)) = [t] ->
  In u (users (db w)) -> user_id u = owner_id t ->
  logged_in_as s ["super_admin"; "support_technician"]%string ->
  truthy_id (assigned_to t) = true ->
  assigned_to t = session_user_id s
  \/ session_platform_role s = Some "super_admin"%string ->
  In (status t) ["new"; "assigned"; "blocked"]%string ->
  exists w',
    drop_request s rid w
    = (Ok (mkResponse [("Request unassigned successfully"%string, "success"%string)]
                      (redirect (view_help_request rid)) true), w')
    /\ released (db w') rid.
Proof.
  intros Hf Hrow Hu Hown Hin Hheld Hwho Hst.
  assert (Hpass : forall bypass, passes_validation bypass (status t) "new").
  { intros bypass. right.
    destruct Hst as [<- | [<- | [<- | []]]]; reflexivity. }
  destruct (fault_free_transition rid "new" None None true w t u Hf Hrow Hu Hown
              (Hpass true)) as (w1 & Hup1 & Hafter1).
  destruct (fault_free_transition rid "new" None None
              (has_platform_permission s "super_admin") w t u Hf Hrow Hu Hown
              (Hpass _)) as (w2 & Hup2 & Hafter2).
  assert (G2 : opt_Z_neqb (assigned_to t) (session_user_id s)
               && negb (has_platform_permission s "super_admin") = false).
  { destruct Hwho as [-> | Hrole].
    - unfold opt_Z_neqb. rewrite opt_Z_eqb_refl. reflexivity.
    - unfold has_platform_permission, is_user_logged_in, get_current_platform_role.
      destruct Hin as (-> & _). rewrite Hrole. cbn. apply andb_false_r. }
  assert (Hview : exists w',
             drop_request_view s rid w
             = (Ok ([("Request unassigned successfully"%string, "success"%string)],
                    view_help_request rid), w')
             /\ released (db w') rid).
  { unfold drop_request_view, get_current_user_id, try_except, bind.
    rewrite (fault_free_select _ w Hf). unfold select_request_row. rewrite Hrow.
    cbn [fetchone hd_error]. rewrite Hheld. cbn [negb]. rewrite G2.
    destruct Hst as [Hst | [Hst | [Hst | []]]]; rewrite <- Hst;
      cbn [String.eqb Ascii.eqb Bool.eqb andb negb];
      change (is_valid_status_transition "assigned" "new") with true;
      change (is_valid_status_transition "blocked" "new") with true;
      cbn [negb].
    - exists w1. rewrite Hup1. split; [reflexivity | exact Hafter1].
    - exists w2. rewrite Hup2. split; [reflexivity | exact Hafter2].
    - exists w2. rewrite Hup2. split; [reflexivity | exact Hafter2]. }
  destruct Hview as (w' & Hview & Hafter).
  exists w'. split; [|exact Hafter].
  unfold drop_request.
  apply (gate_open _ s _ w
           ([("Request unassigned successfully"%string, "success"%string)],
            view_help_request rid) w' Hin Hview).
Qed.

Lemma drop_request_succeeds_witness :
  exists w',
    drop_request (mkSession true (Some 1) (Some "support_technician"%string)) 1 busy_world
    = (Ok (mkResponse [("Request unassigned successfully"%string, "success"%string)]
                      (redirect (view_help_request 1)) true), w')
    /\ released (db w') 1.
Proof.
  apply (drop_request_succeeds
           (mkSession true (Some 1) (Some "support_technician"%string)) 1 busy_world
           (mkRequest 1 9 "Cannot log in" "urgent" "assigned" (Some 1) 100 (Some 9200) None)
           olga).
  - reflexivity.
  - reflexivity.
  - simpl. auto.
  - reflexivity.
  - split; [reflexivity|]. exists "support_technician"%string. simpl. auto.
  - reflexivity.
  - left. reflexivity.
  - simpl. auto.
Defined.
